(** * ezbp: the boilerplate expansion engine

    A shallow embedding of [Expand], [expandFirst] and
    [incrementBoilerplateCount] of boilerplate.go, with the regular
    expression [variableRe] written out as a matcher, the [UI] and
    [Database] interfaces as type classes, and the properties of the
    expansion loop proved over them. *)

From Stdlib Require Import ZArith Ascii String List Bool Lia.
From stdpp Require Import base gmap strings sorting.

Local Open Scope string_scope.
Local Open Scope nat_scope.

(** ** Go strings

    A Go string is a sequence of bytes.  Every literal of [variableRe]
    and the separator '|' are ASCII, and no byte of a multi-byte UTF-8
    sequence is below 0x80, so matching rune by rune and matching byte by
    byte select the same spans: a string is modelled as [string], one
    [ascii] per byte. *)

Module GoString.

(** value[n:] *)
Fixpoint drop (n : nat) (s : string) : string :=
  match n, s with
  | O, _ => s
  | S n', String _ s' => drop n' s'
  | S _, EmptyString => EmptyString
  end.

(** value[:n] *)
Fixpoint take (n : nat) (s : string) : string :=
  match n, s with
  | O, _ => EmptyString
  | S n', String c s' => String c (take n' s')
  | S _, EmptyString => EmptyString
  end.

(** value[a:b] *)
Definition slice (a b : nat) (s : string) : string := take (b - a) (drop a s).

(** value[i] *)
Definition at_index (i : nat) (s : string) : option ascii := String.get i s.

(** strings.HasPrefix *)
Definition HasPrefix (s p : string) : bool := String.prefix p s.

(** Length of the longest prefix all of whose bytes satisfy [p]. *)
Fixpoint span (p : ascii -> bool) (s : string) : nat :=
  match s with
  | String c s' => if p c then S (span p s') else O
  | EmptyString => O
  end.

(** Every byte of the string satisfies [p]. *)
Fixpoint all (p : ascii -> bool) (s : string) : bool :=
  match s with
  | String c s' => p c && all p s'
  | EmptyString => true
  end.

(** strings.IndexRune(s, c) >= 0, for an ASCII [c]. *)
Fixpoint contains_char (c : ascii) (s : string) : bool :=
  match s with
  | String d s' => Ascii.eqb d c || contains_char c s'
  | EmptyString => false
  end.

(** strings.Split(s, sep) for a one-byte separator: the pieces between
    the separators, empty pieces included, so n separators give n+1
    pieces. [cur] is the piece being read. *)
Fixpoint split_acc (sep : ascii) (cur : string) (s : string) : list string :=
  match s with
  | EmptyString => [cur]
  | String c s' =>
      if Ascii.eqb c sep then cur :: split_acc sep EmptyString s'
      else split_acc sep (cur ++ String c EmptyString) s'
  end.

Definition Split (s : string) (sep : ascii) : list string :=
  split_acc sep EmptyString s.

(** strings.Contains *)
Fixpoint Contains (s sub : string) : bool :=
  HasPrefix s sub ||
  match s with
  | String _ s' => Contains s' sub
  | EmptyString => false
  end.

End GoString.

Import GoString.

(** ** The regular expression [variableRe]

    [(\[\[([a-zA-Z0-9_]+)\]\]|{{[^}]+}})]

    Go's regexp gives the leftmost match and, at one start position,
    prefers the first alternative. Within an alternative the repetition is
    greedy; as neither character class contains the byte that must follow
    it, the repetition can only end at the end of the maximal run, so no
    backtracking into it can succeed. *)

Module variableRe.

(** [a-zA-Z0-9_] *)
Definition is_ident_char (c : ascii) : bool :=
  let n := nat_of_ascii c in
  ((97 <=? n) && (n <=? 122)) || ((65 <=? n) && (n <=? 90))
  || ((48 <=? n) && (n <=? 57)) || (n =? 95).

(** [^}] *)
Definition not_close_brace (c : ascii) : bool := negb (Ascii.eqb c "}").

(** An opening delimiter, a non-empty maximal run of [p], the closing
    delimiter: the length of the match at the head of [s]. *)
Definition match_delimited (op cl : string) (p : ascii -> bool) (s : string)
  : option nat :=
  if HasPrefix s op then
    let r := drop 2 s in
    let n := span p r in
    if (0 <? n) && HasPrefix (drop n r) cl then Some (n + 4) else None
  else None.

(** \[\[([a-zA-Z0-9_]+)\]\] *)
Definition match_include : string -> option nat :=
  match_delimited "[[" "]]" is_ident_char.

(** {{[^}]+}} *)
Definition match_prompt : string -> option nat :=
  match_delimited "{{" "}}" not_close_brace.

(** The alternation, tried in order at one position. *)
Definition match_here (s : string) : option nat :=
  match match_include s with
  | Some n => Some n
  | None => match_prompt s
  end.

(** Leftmost match at or after offset [i], where [s] is the text from
    offset [i] on. *)
Fixpoint find_from (i : nat) (s : string) : option (nat * nat) :=
  match match_here s with
  | Some n => Some (i, i + n)
  | None =>
      match s with
      | EmptyString => None
      | String _ s' => find_from (S i) s'
      end
  end.

(** variableRe.FindStringIndex(value): [None] is Go's nil. *)
Definition FindStringIndex (value : string) : option (nat * nat) :=
  find_from 0 value.

End variableRe.

Import variableRe.

(** ** Go's [int]

    [Count] is a Go [int]: 64 bits, two's complement, [Count++] wraps. *)

Module GoInt.

Local Open Scope Z_scope.

Definition max_int : Z := 2 ^ 63 - 1.
Definition min_int : Z := - 2 ^ 63.

Definition wrap (z : Z) : Z := (z + 2 ^ 63) mod 2 ^ 64 - 2 ^ 63.

(** x++ *)
Definition incr (x : Z) : Z := wrap (x + 1).

End GoInt.

(** ** Data model *)

(** Boilerplate represents a single boilerplate template. *)
Record Boilerplate := mkBoilerplate {
  Name : string;
  Value : string;
  Count : Z
}.

(** The error values the engine builds with fmt.Errorf, and the ones it
    passes on from the user interface and the database. *)
Inductive error :=
  | UnknownBoilerplate (name : string)
      (* "unknown boilerplate %q" *)
  | UnknownReferencedBoilerplate (inner : string)
      (* "unknown referenced boilerplate %q" *)
  | External (msg : string).

(** A Go result pair (string, error). *)
Definition result : Type := string * option error.

(** The two methods of the [UI] interface that the engine calls. A call
    may change the state of the interface (what was read, what remains to
    be read), so each method passes it on. *)
Class UI (U : Type) := {
  Select : string -> list string -> U -> result * U;
  Prompt : string -> U -> result * U
}.

(** The methods of the [Database] interface used here. [Close], the create,
    update and delete methods and [GetAllBoilerplates] play no part in the
    expansion. *)
Class Database (D : Type) := {
  GetBoilerplateByName : string -> D -> option Boilerplate * option error;
  IncBoilerplateCount : string -> D -> option error * D
}.

Section Engine.

Context {U D : Type} `{!UI U} `{!Database D}.

(** BoilerplateManager manages a collection of boilerplates. The map of
    the source holds pointers; [GetAllBoilerplates] allocates one record
    per key, so no two keys share a record and the map is modelled by
    value. The [config] field is not read by the engine. *)
Record BoilerplateManager := mkManager {
  db : D;
  ui : U;
  boilerplates : gmap string Boilerplate
}.

Definition with_ui (u : U) (bm : BoilerplateManager) : BoilerplateManager :=
  {| db := db bm; ui := u; boilerplates := boilerplates bm |}.

Definition with_db (d : D) (bm : BoilerplateManager) : BoilerplateManager :=
  {| db := d; ui := ui bm; boilerplates := boilerplates bm |}.

Definition with_boilerplates (m : gmap string Boilerplate)
    (bm : BoilerplateManager) : BoilerplateManager :=
  {| db := db bm; ui := ui bm; boilerplates := m |}.

(** value[:start] + replacement + value[end:] *)
Definition splice (value : string) (start end_ : nat) (replacement : string)
  : string :=
  take start value ++ replacement ++ drop end_ value.

(** The answer of the user interface turned into the result of a step:
    the error alone, or the answer between the text before the token and
    the text after it. The statements about [expandFirst] are written
    with it; [expandFirst] itself does not call it. *)
Definition answered (pre post : string) (bm : BoilerplateManager) (r : result * U)
  : result * BoilerplateManager :=
  match r with
  | ((_, Some e), u) => (("", Some e), with_ui u bm)
  | ((text, None), u) => ((pre ++ text ++ post, None), with_ui u bm)
  end.

(** expandFirst finds and expands the first variable in a boilerplate
    string. *)
Definition expandFirst (value : string) (bm : BoilerplateManager)
  : result * BoilerplateManager :=
  match FindStringIndex value with
  | None => ((value, None), bm)
  | Some (start, end_) =>
      let outerValue := slice start end_ value in
      let innerValue := slice (start + 2) (end_ - 2) value in
      match at_index start value with
      | Some "["%char =>
          match boilerplates bm !! outerValue with
          | None => (("", Some (UnknownReferencedBoilerplate innerValue)), bm)
          | Some bp => ((splice value start end_ (Value bp), None), bm)
          end
      | _ =>
          if contains_char "|" innerValue then
            let elements := Split innerValue "|" in
            let prompt := hd "" elements in
            let options := tl elements in
            let '((choice, err), u) := Select prompt options (ui bm) in
            match err with
            | Some e => (("", Some e), with_ui u bm)
            | None => ((splice value start end_ choice, None), with_ui u bm)
            end
          else
            let '((input, err), u) := Prompt innerValue (ui bm) in
            match err with
            | Some e => (("", Some e), with_ui u bm)
            | None => ((splice value start end_ input, None), with_ui u bm)
            end
      end
  end.

Definition incrementBoilerplateCount (name : string) (bm : BoilerplateManager)
  : option error * BoilerplateManager :=
  match boilerplates bm !! name with
  | None => (Some (UnknownBoilerplate name), bm)
  | Some bp =>
      let bp' := {| Name := Name bp; Value := Value bp;
                    Count := GoInt.incr (Count bp) |} in
      let bm1 := with_boilerplates (<[name := bp']> (boilerplates bm)) bm in
      let '(err, d) := IncBoilerplateCount name (db bm1) in
      (err, with_db d bm1)
  end.

(** The [for] loop of [Expand]. The source loop has no bound; [fuel]
    counts the iterations allowed, and [None] says that the loop is still
    running when they are used up. *)
Fixpoint expandLoop (fuel : nat) (before : string) (bm : BoilerplateManager)
  : option (result * BoilerplateManager) :=
  match fuel with
  | O => None
  | S fuel' =>
      let '((after, err), bm1) := expandFirst before bm in
      match err with
      | Some e => Some (("", Some e), bm1)
      | None =>
          if String.eqb before after then Some ((after, None), bm1)
          else expandLoop fuel' after bm1
      end
  end.

(** Expand recursively expands a boilerplate template by its name. The
    warning printed when the count cannot be incremented goes to the
    standard error stream and is not part of the state. *)
Definition Expand (fuel : nat) (name : string) (bm : BoilerplateManager)
  : option (result * BoilerplateManager) :=
  match boilerplates bm !! name with
  | None => Some (("", Some (UnknownBoilerplate name)), bm)
  | Some bp =>
      match expandLoop fuel (Value bp) bm with
      | None => None
      | Some ((_, Some e), bm1) => Some (("", Some e), bm1)
      | Some ((after, None), bm1) =>
          let '(_, bm2) := incrementBoilerplateCount name bm1 in
          Some ((after, None), bm2)
      end
  end.

End Engine.

Arguments BoilerplateManager : clear implicits.
Arguments mkManager {U D} _ _ _.

(** ** Implementations of the interfaces used to run the engine *)

(** A scripted user interface, in the manner of the mocks of the test
    files: it answers the calls with the replies it was given, in order,
    and records every call it receives. *)
Inductive UICall :=
  | CallSelect (prompt : string) (choices : list string)
  | CallPrompt (prompt : string).

Record Script := mkScript {
  replies : list result;
  calls : list UICall
}.

Definition script_next (c : UICall) (s : Script) : result * Script :=
  match replies s with
  | [] => (("", Some (External "no reply left")),
           {| replies := []; calls := calls s ++ [c] |})
  | r :: rs => (r, {| replies := rs; calls := calls s ++ [c] |})
  end.

#[export] Instance Script_UI : UI Script := {
  Select p cs := script_next (CallSelect p cs);
  Prompt p := script_next (CallPrompt p)
}.

Definition reply (s : string) : result := (s, None).
Definition cancel : result := ("", Some (External "user aborted")).

(** SQLiteDatabase, reduced to its table and to whether [s.db.Exec] fails
    (a read-only or locked file): the rows by name, as the primary key
    makes them. *)
Record SQLiteDatabase := mkSQLite {
  rows : gmap string Boilerplate;
  exec_fails : bool
}.

(** SELECT name, value, count FROM boilerplates WHERE name = ? *)
Definition sqlite_get (name : string) (s : SQLiteDatabase)
  : option Boilerplate * option error :=
  match rows s !! name with
  | Some b => (Some b, None)
  | None => (None, Some (UnknownBoilerplate name))
  end.

(** UPDATE boilerplates SET count = count + 1 WHERE name = ?

    The sum is that of SQLite as long as it fits 64 bits. Beyond the
    largest 64-bit integer SQLite stores a floating point number, which
    the reads of the source cannot scan; the model does not follow the
    table there, and what is proved of the stored count is proved for
    counts below that bound. *)
Definition sqlite_inc (name : string) (s : SQLiteDatabase)
  : option error * SQLiteDatabase :=
  if exec_fails s then (Some (External "exec failed"), s)
  else
    match rows s !! name with
    | None => (Some (UnknownBoilerplate name), s)
    | Some b =>
        (None,
         {| rows := <[name := {| Name := Name b; Value := Value b;
                                 Count := (Count b + 1)%Z |}]> (rows s);
            exec_fails := exec_fails s |})
    end.

#[export] Instance SQLite_Database : Database SQLiteDatabase := {
  GetBoilerplateByName := sqlite_get;
  IncBoilerplateCount := sqlite_inc
}.

(** The manager of TestExpand. *)
Definition bp (name value : string) : Boilerplate :=
  {| Name := name; Value := value; Count := 0 |}.

Definition store_of (l : list Boilerplate) : gmap string Boilerplate :=
  list_to_map (map (fun b => (Name b, b)) l).

Definition manager_of (l : list Boilerplate) (answers : list result)
  : BoilerplateManager Script SQLiteDatabase :=
  mkManager {| rows := store_of l; exec_fails := false |}
            {| replies := answers; calls := [] |}
            (store_of l).

(** The manager of the tests with a database whose writes fail. *)
Definition manager_with_failing_db (l : list Boilerplate) (answers : list result)
  : BoilerplateManager Script SQLiteDatabase :=
  mkManager {| rows := store_of l; exec_fails := true |}
            {| replies := answers; calls := [] |}
            (store_of l).

Definition test_boilerplates : list Boilerplate :=
  [ bp "foobar" "the text of foobar";
    bp "barfoo" "before [[foobar]] after";
    bp "fizzbuzz" "john [[barfoo]] doe" ].

(** What a caller observes of a run: the result pair, the calls the user
    interface received, and the counts in memory and in the database. *)
Definition observe (l : list string)
    (r : option (result * BoilerplateManager Script SQLiteDatabase)) :=
  match r with
  | None => None
  | Some (res, bm) =>
      Some (res, calls (ui bm),
            map (fun n => Count <$> (boilerplates bm !! n)) l,
            map (fun n => Count <$> (rows (db bm) !! n)) l)
  end.

(** ** The token grammar

    The two alternatives of [variableRe] read as a grammar: what a match
    is, apart from how it is searched. *)

Module Grammar.

(** [[identifier]], the identifier a non-empty run of [a-zA-Z0-9_]. *)
Definition is_include_token (t : string) : Prop :=
  exists id, id <> "" /\ all is_ident_char id = true /\ t = "[[" ++ id ++ "]]".

(** {{text}}, the text a non-empty run of bytes other than the closing
    brace. *)
Definition is_prompt_token (t : string) : Prop :=
  exists x, x <> "" /\ all not_close_brace x = true /\ t = "{{" ++ x ++ "}}".

Definition is_token (t : string) : Prop :=
  is_include_token t \/ is_prompt_token t.

(** No token occurs anywhere in the text. *)
Definition token_free (v : string) : Prop :=
  forall pre t post, v = pre ++ t ++ post -> ~ is_token t.

(** A token stands at offset [length pre] and none starts before it. *)
Definition first_token (v pre t post : string) : Prop :=
  v = pre ++ t ++ post /\ is_token t /\
  forall pre' t' post',
    v = pre' ++ t' ++ post' -> is_token t' ->
    String.length pre <= String.length pre'.

End Grammar.

Import Grammar.

(** ** The rest of the manager: names, additions, editions, deletions *)

(** The methods of the [Database] interface that write or list
    boilerplates. *)
Class DatabaseStore (D : Type) := {
  GetAllBoilerplates : D -> option (gmap string Boilerplate) * option error;
  CreateBoilerplate : Boilerplate -> D -> option error * D;
  UpdateBoilerplate : Boilerplate -> D -> option error * D;
  DeleteBoilerplate : string -> D -> option error * D
}.

(** INSERT INTO boilerplates (name, value, count) VALUES (?, ?, ?): the
    primary key refuses a second row of the same name. *)
Definition sqlite_create (b : Boilerplate) (s : SQLiteDatabase)
  : option error * SQLiteDatabase :=
  if exec_fails s then (Some (External "exec failed"), s)
  else
    match rows s !! Name b with
    | Some _ =>
        (Some (External "UNIQUE constraint failed: boilerplates.name"), s)
    | None =>
        (None, {| rows := <[Name b := b]> (rows s);
                  exec_fails := exec_fails s |})
    end.

(** UPDATE boilerplates SET value = ?, count = ? WHERE name = ?, then the
    check of the rows affected. *)
Definition sqlite_update (b : Boilerplate) (s : SQLiteDatabase)
  : option error * SQLiteDatabase :=
  if exec_fails s then (Some (External "exec failed"), s)
  else
    match rows s !! Name b with
    | None => (Some (UnknownBoilerplate (Name b)), s)
    | Some _ =>
        (None, {| rows := <[Name b := b]> (rows s);
                  exec_fails := exec_fails s |})
    end.

(** DELETE FROM boilerplates WHERE name = ?, then the check of the rows
    affected. *)
Definition sqlite_delete (name : string) (s : SQLiteDatabase)
  : option error * SQLiteDatabase :=
  if exec_fails s then (Some (External "exec failed"), s)
  else
    match rows s !! name with
    | None => (Some (UnknownBoilerplate name), s)
    | Some _ =>
        (None, {| rows := delete name (rows s); exec_fails := exec_fails s |})
    end.

(** SELECT name, value, count FROM boilerplates ORDER BY name, gathered
    in a map under [b.Name]. *)
Definition sqlite_get_all (s : SQLiteDatabase)
  : option (gmap string Boilerplate) * option error :=
  (Some (list_to_map ((fun kb => (Name (snd kb), snd kb)) <$> map_to_list (rows s))),
   None).

#[export] Instance SQLite_DatabaseStore : DatabaseStore SQLiteDatabase := {
  GetAllBoilerplates := sqlite_get_all;
  CreateBoilerplate := sqlite_create;
  UpdateBoilerplate := sqlite_update;
  DeleteBoilerplate := sqlite_delete
}.

(** Every row is stored under its own name, as the name column is the
    key of the table. *)
Definition sqlite_wf (s : SQLiteDatabase) : Prop :=
  forall k b, rows s !! k = Some b -> Name b = k.

(** [n] increments in a row. *)
Definition sqlite_inc_times (n : nat) (name : string) (s : SQLiteDatabase)
  : SQLiteDatabase :=
  Nat.iter n (fun s0 => snd (sqlite_inc name s0)) s.

Section Manager.

Context {U D : Type} `{!UI U} `{!Database D} `{!DatabaseStore D}.

(** NewBoilerplateManager, with the user interface that the configuration
    selects passed in: the boilerplates are those that the database
    lists. *)
Definition NewBoilerplateManager (d : D) (selectedUI : U)
  : option (BoilerplateManager U D) * option error :=
  match GetAllBoilerplates d with
  | (_, Some e) => (None, Some e)
  | (None, None) => (Some (mkManager d selectedUI ∅), None)
  | (Some m, None) => (Some (mkManager d selectedUI m), None)
  end.

(** Names: slices.Sorted(maps.Keys(bm.boilerplates)). Go compares strings
    byte by byte. *)
Definition Names (bm : BoilerplateManager U D) : list string :=
  merge_sort String.le (fst <$> map_to_list (boilerplates bm)).

Definition Add (name value : string) (bm : BoilerplateManager U D)
  : option error * BoilerplateManager U D :=
  if String.eqb name "" then (Some (External "empty boilerplate name"), bm)
  else if String.eqb value "" then
    (Some (External "empty boilerplate value"), bm)
  else
    let '(err, d) :=
      CreateBoilerplate {| Name := name; Value := value; Count := 0 |} (db bm) in
    (err, with_db d bm).

(** The record handed to UpdateBoilerplate has no [Count] field set: it
    carries Go's zero. *)
Definition Edit (name value : string) (bm : BoilerplateManager U D)
  : option error * BoilerplateManager U D :=
  if String.eqb name "" then (Some (External "empty boilerplate name"), bm)
  else if String.eqb value "" then
    (Some (External "empty boilerplate value"), bm)
  else
    let '(err, d) :=
      UpdateBoilerplate {| Name := name; Value := value; Count := 0 |} (db bm) in
    (err, with_db d bm).

Definition Delete (name : string) (bm : BoilerplateManager U D)
  : option error * BoilerplateManager U D :=
  if String.eqb name "" then (Some (External "empty boilerplate name"), bm)
  else
    let '(err, d) := DeleteBoilerplate name (db bm) in
    (err, with_db d bm).

End Manager.

(** What a caller sees of a run of [Expand] apart from the database: the
    result, the state of the user interface and the boilerplates in
    memory. *)
Definition outcome {U D : Type}
    (r : option (result * BoilerplateManager U D))
  : option (result * U * gmap string Boilerplate) :=
  match r with
  | None => None
  | Some (res, bm) => Some (res, ui bm, boilerplates bm)
  end.

(** ** Package engine: the manager that keeps its map up to date

    [Engine] has the fields of [BoilerplateManager] and the same [Expand],
    [expandFirst] and [incrementBoilerplateCount]; its [Add], [Edit] and
    [Delete] look at the map in memory before they call the database. *)

Module engine.

Section Operations.

Context {U D : Type} `{!UI U} `{!Database D} `{!DatabaseStore D}.

Definition ErrBoilerplateAlreadyExist : error :=
  External "boilerplate already exists".

Definition ErrBoilerplateUnknown : error :=
  External "boilerplate not found".

(** Get retrieves a boilerplate by name and returns whether it was
    found: [None] is (nil, false). *)
Definition Get (name : string) (bm : BoilerplateManager U D)
  : option Boilerplate :=
  boilerplates bm !! name.

(** Add creates a new boilerplate with the given name and value. *)
Definition Add (name value : string) (bm : BoilerplateManager U D)
  : option error * BoilerplateManager U D :=
  if String.eqb name "" then (Some (External "empty boilerplate name"), bm)
  else if String.eqb value "" then
    (Some (External "empty boilerplate value"), bm)
  else
    match boilerplates bm !! name with
    | Some _ => (Some ErrBoilerplateAlreadyExist, bm)
    | None =>
        let b := {| Name := name; Value := value; Count := 0 |} in
        let bm1 := with_boilerplates (<[name := b]> (boilerplates bm)) bm in
        let '(err, d) := CreateBoilerplate b (db bm1) in
        (err, with_db d bm1)
    end.

(** Edit updates the value of an existing boilerplate. The record of the
    map is changed in place ([bp.Value = value]) and then handed to the
    database. *)
Definition Edit (name value : string) (bm : BoilerplateManager U D)
  : option error * BoilerplateManager U D :=
  if String.eqb name "" then (Some (External "empty boilerplate name"), bm)
  else if String.eqb value "" then
    (Some (External "empty boilerplate value"), bm)
  else
    match boilerplates bm !! name with
    | None => (Some ErrBoilerplateUnknown, bm)
    | Some b0 =>
        let b := {| Name := Name b0; Value := value; Count := Count b0 |} in
        let bm1 := with_boilerplates (<[name := b]> (boilerplates bm)) bm in
        let '(err, d) := UpdateBoilerplate b (db bm1) in
        (err, with_db d bm1)
    end.

(** Delete removes a boilerplate by name: from the database. *)
Definition Delete (name : string) (bm : BoilerplateManager U D)
  : option error * BoilerplateManager U D :=
  if String.eqb name "" then (Some (External "empty boilerplate name"), bm)
  else
    match boilerplates bm !! name with
    | None => (Some ErrBoilerplateUnknown, bm)
    | Some _ =>
        let '(err, d) := DeleteBoilerplate name (db bm) in
        (err, with_db d bm)
    end.

End Operations.

(** The map in memory and the table hold the same boilerplates. *)
Definition in_sync {U : Type} (bm : BoilerplateManager U SQLiteDatabase)
  : Prop :=
  boilerplates bm = rows (db bm).

End engine.

(** ** The first version of the manager: boilerplates in a CSV file

    Its [expandFirst] is the one above, word for word; its [Expand] counts
    in memory only. *)

Module legacy.

Section Operations.

Context {U D : Type} `{!UI U}.

(** Expand, with [bp.Count++] on the record found at the start. The loop
    does not write to the map, so that record is still the one under
    [name]. The manager of this version has no database: the field is
    carried along untouched. *)
Definition Expand (fuel : nat) (name : string) (bm : BoilerplateManager U D)
  : option (result * BoilerplateManager U D) :=
  match boilerplates bm !! name with
  | None => Some (("", Some (UnknownBoilerplate name)), bm)
  | Some b =>
      match expandLoop fuel (Value b) bm with
      | None => None
      | Some ((_, Some e), bm1) => Some (("", Some e), bm1)
      | Some ((after, None), bm1) =>
          let b' := {| Name := Name b; Value := Value b;
                       Count := GoInt.incr (Count b) |} in
          Some ((after, None),
                with_boilerplates (<[name := b']> (boilerplates bm1)) bm1)
      end
  end.

End Operations.

End legacy.

(** strings.Count(s, sep) for a one-byte separator. *)
Fixpoint Count_char (s : string) (sep : ascii) : nat :=
  match s with
  | EmptyString => 0
  | String c s' => (if Ascii.eqb c sep then 1 else 0) + Count_char s' sep
  end.

(** ** The CSV file of the first version

    The manager reads and writes its boilerplates as CSV records; the
    encoding of a record as a line is left to encoding/csv. What is
    modelled is what the two functions do with the records. *)

Module csv.

Local Open Scope Z_scope.

(** The value of a decimal digit: [ch -= '0'; ch > 9] on a byte. *)
Definition digit_value (c : ascii) : option Z :=
  let n := Z.of_nat (nat_of_ascii c) - 48 in
  if (0 <=? n) && (n <=? 9) then Some n else None.

Fixpoint parse_digits (acc : Z) (s : string) : option Z :=
  match s with
  | EmptyString => Some acc
  | String c s' =>
      match digit_value c with
      | Some d => parse_digits (acc * 10 + d) s'
      | None => None
      end
  end.

(** strconv.Atoi: an optional sign, at least one digit, digits only, and
    a value that fits Go's int; [None] stands for its error. *)
Definition Atoi (s : string) : option Z :=
  match s with
  | EmptyString => None
  | String c rest =>
      let neg := Ascii.eqb c "-" in
      let digits := if neg || Ascii.eqb c "+" then rest else s in
      match digits with
      | EmptyString => None
      | _ =>
          match parse_digits 0 digits with
          | None => None
          | Some n =>
              let v := if neg then - n else n in
              if (GoInt.min_int <=? v) && (v <=? GoInt.max_int)
              then Some v else None
          end
      end
  end.

(** The decimal digits of a natural number, most significant first, put
    before [acc]. Twenty rounds cover every 64-bit value. *)
Fixpoint format_digits (fuel : nat) (n : Z) (acc : string) : string :=
  match fuel with
  | O => acc
  | S fuel' =>
      let acc' := String (ascii_of_nat (Z.to_nat (48 + n mod 10))) acc in
      if n <? 10 then acc' else format_digits fuel' (n / 10) acc'
  end.

(** fmt.Sprintf("%d", n) *)
Definition FormatInt (n : Z) : string :=
  if n <? 0 then String "-" (format_digits 20 (- n) "")
  else format_digits 20 n "".

(** One turn of the loop of readBoilerplatesFromPath on a record that the
    reader returned. *)
Definition readRecord (record : list string)
    (boilerplates : gmap string Boilerplate)
  : gmap string Boilerplate + error :=
  match record with
  | [name; value] =>
      inl (<[name := {| Name := name; Value := value; Count := 0 |}]>
             boilerplates)
  | [name; value; count] =>
      match Atoi count with
      | None => inr (External "unable to convert count")
      | Some n =>
          inl (<[name := {| Name := name; Value := value; Count := n |}]>
                 boilerplates)
      end
  | _ => inr (External "expecting 2 or 3 fields in CSV record")
  end.

(** The loop of readBoilerplatesFromPath over what the successive calls of
    [r.Read] return before the end of the file: a record or an error. *)
Fixpoint readRecords (reads : list (list string + error))
    (boilerplates : gmap string Boilerplate)
  : gmap string Boilerplate + error :=
  match reads with
  | [] => inl boilerplates
  | inr e :: _ => inr e
  | inl record :: reads' =>
      match readRecord record boilerplates with
      | inr e => inr e
      | inl boilerplates' => readRecords reads' boilerplates'
      end
  end.

(** The record that writeBoilerplatesToPath hands to the writer for one
    boilerplate, and the records for the boilerplates in the order in
    which the map gives them. *)
Definition record_of (b : Boilerplate) : list string :=
  [Name b; Value b; FormatInt (Count b)].

Definition records_of (l : list Boilerplate) : list (list string) :=
  record_of <$> l.

(** What the loop accepts from the reader: a record of two fields, or of
    three fields the last of which [Atoi] converts. *)
Definition accepted (read : list string + error) : Prop :=
  match read with
  | inl [_; _] => True
  | inl [_; _; count] => Atoi count <> None
  | _ => False
  end.

(** The name that a record gives, when it has a first field. *)
Definition name_of (read : list string + error) : option string :=
  match read with
  | inl (name :: _) => Some name
  | _ => None
  end.

End csv.

(** ** The command line: configuration, editor, the expand loop *)

Module cli.

(** RofiConfig holds configuration specific to the Rofi user interface. *)
Record RofiConfig := mkRofiConfig {
  Path : string;
  Theme : string;
  SelectArgs : list string;
  InputArgs : list string
}.

(** Config holds the configuration for the BoilerplateManager. *)
Record Config := mkConfig {
  DatabasePath : string;
  DefaultUI : string;
  Editor : string;
  Rofi : RofiConfig
}.

(** Config{}, the value returned beside an error. *)
Definition zeroConfig : Config :=
  {| DatabasePath := ""; DefaultUI := ""; Editor := "";
     Rofi := {| Path := ""; Theme := ""; SelectArgs := []; InputArgs := [] |} |}.

Definition defaultConfigFileName : string := "config.toml".
Definition defaultDatabaseFileName : string := "ezbp.db".

(** What os.Stat says of the configuration file. *)
Inductive StatResult :=
  | NotExist
  | StatError (e : error)
  | Found.

(** What the file system and the TOML decoder answer to the calls of
    loadConfigFromFile: each is asked at most once. *)
Record FileSystem := mkFileSystem {
  statFile : StatResult;
  mkdirAll : option error;
  createFile : option error;
  writeString : option error;
  decodeFile : Config + error
}.

Section LoadConfig.

(** filepath.Join, of the two elements it is given here. *)
Variable Join : string -> string -> string.

(** loadConfigFromFile loads the configuration from a TOML file. *)
Definition loadConfigFromFile (fs : FileSystem) (configDir : string)
  : Config * option error :=
  let defaultRofiConfig :=
    {| Path := "rofi"; Theme := ""; SelectArgs := []; InputArgs := [] |} in
  let defaultConfig :=
    {| DatabasePath := Join configDir defaultDatabaseFileName;
       DefaultUI := "terminal"; Editor := "";
       Rofi := defaultRofiConfig |} in
  match statFile fs with
  | NotExist =>
      match mkdirAll fs with
      | Some e => (zeroConfig, Some e)
      | None =>
          match createFile fs with
          | Some e => (zeroConfig, Some e)
          | None =>
              match writeString fs with
              | Some e => (zeroConfig, Some e)
              | None => (defaultConfig, None)
              end
          end
      end
  | StatError e => (zeroConfig, Some e)
  | Found =>
      match decodeFile fs with
      | inr e => (zeroConfig, Some e)
      | inl loaded =>
          let databasePath :=
            if String.eqb (DatabasePath loaded) ""
            then DatabasePath defaultConfig else DatabasePath loaded in
          let defaultUI :=
            if negb (String.eqb (DefaultUI loaded) "rofi")
               && negb (String.eqb (DefaultUI loaded) "terminal")
            then DefaultUI defaultConfig else DefaultUI loaded in
          let rofiPath :=
            if String.eqb (Path (Rofi loaded)) ""
            then Path defaultRofiConfig else Path (Rofi loaded) in
          ({| DatabasePath := databasePath; DefaultUI := defaultUI;
              Editor := Editor loaded;
              Rofi := {| Path := rofiPath; Theme := Theme (Rofi loaded);
                         SelectArgs := SelectArgs (Rofi loaded);
                         InputArgs := InputArgs (Rofi loaded) |} |}, None)
      end
  end.

End LoadConfig.

(** getDefaultEditor returns the user's preferred editor. [getenv] is
    os.Getenv, which gives the empty string for a variable that is not
    set, and [goos] is runtime.GOOS. *)
Definition getDefaultEditor (getenv : string -> string) (goos : string)
    (editor : string) : string :=
  if negb (String.eqb editor "") then editor
  else if negb (String.eqb (getenv "VISUAL") "") then getenv "VISUAL"
  else if negb (String.eqb (getenv "EDITOR") "") then getenv "EDITOR"
  else if String.eqb goos "windows" then "notepad"
  else if String.eqb goos "darwin" then "nano"
  else "nano".

(** The command and arguments that openEditor runs. *)
Definition openEditor_command (getenv : string -> string) (goos : string)
    (editor filename : string) : string * list string :=
  let editor := getDefaultEditor getenv goos editor in
  if String.eqb goos "windows" then ("cmd", ["/c"; editor; filename])
  else (editor, [filename]).

(** The errors of boilerplateExpand: fmt.Errorf with a message, the name
    where the message quotes it, and the wrapped error. *)
Inductive loop_error :=
  | FailedToSelect (cause : error)
  | FailedToExpand (name : string) (cause : error)
  | FailedToCopy (cause : error).

End cli.

(** SelectBoilerplate, the third method of the [UI] interface. *)
Class BoilerplateSelector (U : Type) := {
  SelectBoilerplate : gmap string Boilerplate -> U -> result * U
}.

(** clipboard.WriteAll, over the state of the clipboard. *)
Class Clipboard (W : Type) := {
  WriteAll : string -> W -> option error * W
}.

Section ExpandCommand.

Context {U D W : Type} `{!UI U} `{!Database D} `{!BoilerplateSelector U}
        `{!Clipboard W}.

(** boilerplateExpand: select, expand, copy, again. The source loop has no
    exit but the three returns of an error; [rounds] bounds the turns of
    the loop and [fuel] those of each [Expand], and [None] says that the
    command is still running. *)
Fixpoint boilerplateExpand (rounds fuel : nat) (bm : BoilerplateManager U D)
    (w : W) : option (option cli.loop_error * BoilerplateManager U D * W) :=
  match rounds with
  | O => None
  | S rounds' =>
      let '((name, err), u) := SelectBoilerplate (boilerplates bm) (ui bm) in
      let bm0 := with_ui u bm in
      match err with
      | Some e => Some (Some (cli.FailedToSelect e), bm0, w)
      | None =>
          match Expand fuel name bm0 with
          | None => None
          | Some ((_, Some e), bm1) =>
              Some (Some (cli.FailedToExpand name e), bm1, w)
          | Some ((value, None), bm1) =>
              let '(cerr, w1) := WriteAll value w in
              match cerr with
              | Some e => Some (Some (cli.FailedToCopy e), bm1, w1)
              | None => boilerplateExpand rounds' fuel bm1 w1
              end
          end
      end
  end.

End ExpandCommand.

(** A scripted selector, which answers a selection with the next reply
    of the script, and a clipboard that keeps all that was copied. *)
#[export] Instance Script_Selector : BoilerplateSelector Script := {
  SelectBoilerplate m := script_next (CallPrompt "Select Boilerplate")
}.

#[export] Instance List_Clipboard : Clipboard (list string) := {
  WriteAll text w := (None, (w ++ [text])%list)
}.

(** What is seen of a run of the expand command: how it ended, the count
    of one boilerplate in memory and in the table, and the clipboard. *)
Definition observe_command (name : string)
    (r : option (option cli.loop_error
                 * BoilerplateManager Script SQLiteDatabase * list string)) :=
  match r with
  | None => None
  | Some (e, bm, w) =>
      Some (e, Count <$> (boilerplates bm !! name),
            Count <$> (rows (db bm) !! name), w)
  end.

(** ** The terminal selector of boilerplates

    boilerplateSelectorModel, the Bubble Tea model behind
    TerminalUI.SelectBoilerplate. The viewport is a widget of the
    library: what is kept of it is the content it was last given; its
    sizes, which the model computes in floating point, and its scrolling
    are left out. *)

Module selector.

Local Open Scope Z_scope.

Record Model := mkModel {
  boilerplates : list Boilerplate;
  selectedIndex : Z;
  selectedName : string;
  cancelled : bool;
  content : option string;
  ready : bool;
  width : Z;
  height : Z
}.

(** The messages that [Update] tells apart; a key comes as its
    [msg.String()]. *)
Inductive Msg :=
  | WindowSizeMsg (w h : Z)
  | KeyMsg (key : string)
  | OtherMsg.

Definition newBoilerplateSelector (l : list Boilerplate) : Model :=
  {| boilerplates := l; selectedIndex := 0; selectedName := "";
     cancelled := false; content := None; ready := false;
     width := 0; height := 0 |}.

(** m.boilerplates[i]: [None] is the panic of an index out of range. *)
Definition at_index (l : list Boilerplate) (i : Z) : option Boilerplate :=
  if (0 <=? i) && (i <? Z.of_nat (length l)) then l !! Z.to_nat i else None.

Definition newline : string := String "010" "".

(** fmt.Sprintf("Name: %s\nUsage Count: %d\n\n%s", ...) *)
Definition preview_of (b : Boilerplate) : string :=
  ("Name: " ++ Name b ++ newline ++ "Usage Count: " ++ csv.FormatInt (Count b)
   ++ newline ++ newline ++ Value b)%string.

Definition with_index (i : Z) (m : Model) : Model :=
  {| boilerplates := boilerplates m; selectedIndex := i;
     selectedName := selectedName m; cancelled := cancelled m;
     content := content m; ready := ready m;
     width := width m; height := height m |}.

Definition with_content (c : string) (m : Model) : Model :=
  {| boilerplates := boilerplates m; selectedIndex := selectedIndex m;
     selectedName := selectedName m; cancelled := cancelled m;
     content := Some c; ready := ready m;
     width := width m; height := height m |}.

Definition updatePreview (m : Model) : option Model :=
  if (length (boilerplates m) =? 0)%nat then Some m
  else
    match at_index (boilerplates m) (selectedIndex m) with
    | None => None
    | Some selected => Some (with_content (preview_of selected) m)
    end.

Definition is_key (key : string) (keys : list string) : bool :=
  existsb (String.eqb key) keys.

(** Update: the new model and whether the command returned is tea.Quit;
    [None] is a panic. *)
Definition Update (msg : Msg) (m : Model) : option (Model * bool) :=
  match msg with
  | WindowSizeMsg w h =>
      let m1 := {| boilerplates := boilerplates m;
                   selectedIndex := selectedIndex m;
                   selectedName := selectedName m; cancelled := cancelled m;
                   content := content m; ready := ready m;
                   width := w; height := h |} in
      if ready m1 then Some (m1, false)
      else
        let m2 := {| boilerplates := boilerplates m1;
                     selectedIndex := selectedIndex m1;
                     selectedName := selectedName m1;
                     cancelled := cancelled m1;
                     content := content m1; ready := true;
                     width := width m1; height := height m1 |} in
        match updatePreview m2 with
        | None => None
        | Some m3 => Some (m3, false)
        end
  | KeyMsg key =>
      if is_key key ["ctrl+c"; "q"; "esc"] then
        Some ({| boilerplates := boilerplates m;
                 selectedIndex := selectedIndex m;
                 selectedName := selectedName m; cancelled := true;
                 content := content m; ready := ready m;
                 width := width m; height := height m |}, true)
      else if is_key key ["enter"] then
        if (0 <? length (boilerplates m))%nat then
          match at_index (boilerplates m) (selectedIndex m) with
          | None => None
          | Some b =>
              Some ({| boilerplates := boilerplates m;
                       selectedIndex := selectedIndex m;
                       selectedName := Name b; cancelled := cancelled m;
                       content := content m; ready := ready m;
                       width := width m; height := height m |}, true)
          end
        else Some (m, true)
      else if is_key key ["up"; "k"] then
        if 0 <? selectedIndex m then
          match updatePreview (with_index (selectedIndex m - 1) m) with
          | None => None
          | Some m1 => Some (m1, false)
          end
        else Some (m, false)
      else if is_key key ["down"; "j"] then
        if selectedIndex m <? Z.of_nat (length (boilerplates m)) - 1 then
          match updatePreview (with_index (selectedIndex m + 1) m) with
          | None => None
          | Some m1 => Some (m1, false)
          end
        else Some (m, false)
      else Some (m, false)
  | OtherMsg => Some (m, false)
  end.

(** How program.Run ends. *)
Inductive RunResult :=
  | Finished (m : Model)
  | RunError                (* program.Run returned an error *)
  | Panicked.

(** Bubble Tea is not part of the repository: its event loop is modelled
    here, from what the library documents. The loop takes what comes out
    of its queue: a message is handed to [Update]; a QuitMsg ends the
    loop and [Run] returns the model without error; the loop can also end
    with an error. The tea.Quit that [Update] returns is a command: it is
    run aside and its QuitMsg joins the queue behind the messages that
    are already there, and a QuitMsg also comes from the library itself
    when the process is told to stop. The model leaves open where the
    QuitMsg stands in the queue, so that what holds of every queue holds
    of those that the library makes. *)
Inductive Event :=
  | Message (msg : Msg)
  | QuitMsg
  | Killed.

(** The successive calls of [Update] for the messages [msgs]; [None] is
    a panic. *)
Fixpoint updates (msgs : list Msg) (m : Model) : option Model :=
  match msgs with
  | [] => Some m
  | msg :: msgs' =>
      match Update msg m with
      | None => None
      | Some (m', _) => updates msgs' m'
      end
  end.

(** program.Run over what comes out of the queue. A queue that ends
    without QuitMsg is a loop that was stopped from outside. *)
Fixpoint Run (events : list Event) (m : Model) : RunResult :=
  match events with
  | [] => RunError
  | QuitMsg :: _ => Finished m
  | Killed :: _ => RunError
  | Message msg :: events' =>
      match Update msg m with
      | None => Panicked
      | Some (m', _) => Run events' m'
      end
  end.

(** TerminalUI.SelectBoilerplate, after the boilerplates of the map have
    been put in a slice and sorted: [sorted] is that slice. [None] is a
    panic. *)
Definition SelectBoilerplate (sorted : list Boilerplate)
    (events : list Event) : option result :=
  if (length sorted =? 0)%nat then
    Some ("", Some (External "no boilerplates available"))
  else
    match Run events (newBoilerplateSelector sorted) with
    | Panicked => None
    | RunError => Some ("", Some (External "failed to run selection"))
    | Finished m =>
        if cancelled m then Some ("", Some (External "selection cancelled"))
        else Some (selectedName m, None)
    end.

(** What sort.Slice with [bps[i].Count > bps[j].Count] guarantees of the
    slice made from the map: the same boilerplates, counts not
    increasing. *)
Definition sorted_by_count (m : gmap string Boilerplate)
    (sorted : list Boilerplate) : Prop :=
  sorted ≡ₚ (snd <$> map_to_list m) /\
  Sorted (fun a b => Count b <= Count a) sorted.

(** The index is one of the list, or 0 when the list is empty; the
    content of the viewport, once given, is the preview of the selected
    boilerplate. *)
Definition well_formed (m : Model) : Prop :=
  ((boilerplates m = [] /\ selectedIndex m = 0) \/
   0 <= selectedIndex m < Z.of_nat (length (boilerplates m))) /\
  forall c, content m = Some c ->
    exists b, at_index (boilerplates m) (selectedIndex m) = Some b /\
              c = preview_of b.

End selector.

(** The position of the selector: the model is well formed, shows the
    list [l] with the cursor on its entry [i], and is not cancelled. *)
Definition selector_at (m : selector.Model) (l : list Boilerplate) (i : nat)
  : Prop :=
  selector.well_formed m /\ selector.boilerplates m = l /\
  selector.selectedIndex m = Z.of_nat i /\ (i < length l)%nat /\
  selector.cancelled m = false.

(** The messages that are not key presses. *)
Definition selector_not_key (msg : selector.Msg) : Prop :=
  match msg with selector.KeyMsg _ => False | _ => True end.

(** The messages that neither cancel nor select: every message but the
    keys "ctrl+c", "q", "esc" and "enter". *)
Definition selector_keeps_choice (msg : selector.Msg) : Prop :=
  match msg with
  | selector.KeyMsg key =>
      selector.is_key key ["ctrl+c"; "q"; "esc"; "enter"] = false
  | _ => True
  end.

(** The selector after a choice: the model is well formed, shows the
    list [l], is not cancelled and holds the name [name]. *)
Definition selector_chose (m : selector.Model) (l : list Boilerplate)
    (name : string) : Prop :=
  selector.well_formed m /\ selector.boilerplates m = l /\
  selector.cancelled m = false /\ selector.selectedName m = name.

(** The name that the model holds is empty or that of a boilerplate of
    the list, unless the selection is cancelled. *)
Definition selector_known (m : selector.Model) : Prop :=
  selector.cancelled m = true \/ selector.selectedName m = "" \/
  exists b, b ∈ selector.boilerplates m /\ selector.selectedName m = Name b.

(** Two boilerplates with different counts, and the map that holds them. *)
Definition often : Boilerplate :=
  {| Name := "often"; Value := "used a lot"; Count := 3 |}.

Definition seldom : Boilerplate :=
  {| Name := "seldom"; Value := "hardly used"; Count := 1 |}.

Definition both : gmap string Boilerplate :=
  <["often" := often]> (<["seldom" := seldom]> ∅).

(** ** White space, as package unicode and package strings see it

    unicode.IsSpace accepts the runes '\t', '\n', '\v', '\f', '\r', ' ',
    U+0085, U+00A0, U+1680, U+2000 to U+200A, U+2028, U+2029, U+202F,
    U+205F and U+3000. A Go string is a sequence of bytes: a rune is
    white space exactly when the bytes at that place are the UTF-8
    encoding of one of these. No encoding is a prefix or a suffix of
    another, and none begins with a continuation byte, so looking for one
    of them byte by byte finds what decoding rune by rune finds, forwards
    and backwards. *)

Module unicode.

Definition bytes (l : list nat) : string :=
  string_of_list_ascii (map ascii_of_nat l).

Definition space_runes : list string :=
  ((bytes <$> [[9]; [10]; [11]; [12]; [13]; [32];
               [194; 133]; [194; 160]; [225; 154; 128]])
   ++ ((fun k => bytes [226; 128; 128 + k]) <$> seq 0 11)
   ++ (bytes <$> [[226; 128; 168]; [226; 128; 169]; [226; 128; 175];
                  [226; 129; 159]; [227; 128; 128]]))%list.

(** [s] begins with the bytes of [p]. *)
Fixpoint starts_with (p s : string) {struct p} : bool :=
  match p with
  | EmptyString => true
  | String a p' =>
      match s with
      | String b s' => Ascii.eqb a b && starts_with p' s'
      | EmptyString => false
      end
  end.

(** The number of bytes of the rune of [runes] that begins [s]; 0 when
    none does. *)
Definition rune_width (runes : list string) (s : string) : nat :=
  match List.find (fun p => starts_with p s) runes with
  | Some p => String.length p
  | None => 0
  end.

(** A byte below 0x80 that is not white space. *)
Definition is_plain (c : ascii) : bool :=
  let n := nat_of_ascii c in
  (n <? 128) && negb (((9 <=? n) && (n <=? 13)) || (n =? 32)).

End unicode.

Module GoStrings.

Fixpoint rev (s : string) : string :=
  match s with
  | EmptyString => EmptyString
  | String c s' => rev s' ++ String c EmptyString
  end.

(** Runes of [runes] are taken off the head of [s] as long as one is
    there. Every round takes at least one byte, so the length of the
    string is fuel enough. *)
Fixpoint trim (runes : list string) (fuel : nat) (s : string) : string :=
  match fuel with
  | O => s
  | S fuel' =>
      match unicode.rune_width runes s with
      | O => s
      | S w => trim runes fuel' (drop (S w) s)
      end
  end.

(** strings.TrimLeftFunc(s, unicode.IsSpace) *)
Definition TrimLeft (s : string) : string :=
  trim unicode.space_runes (String.length s) s.

(** strings.TrimRightFunc(s, unicode.IsSpace): the same from the end,
    that is on the reversed string with the reversed encodings. *)
Definition TrimRight (s : string) : string :=
  rev (trim (rev <$> unicode.space_runes) (String.length s) (rev s)).

(** strings.TrimSpace *)
Definition TrimSpace (s : string) : string := TrimRight (TrimLeft s).

(** The field being read, when it ends. *)
Definition flush (cur : string) : list string :=
  match cur with
  | EmptyString => []
  | _ => [cur]
  end.

(** strings.Fields: the maximal runs of bytes between white space runes;
    [cur] is the field being read. *)
Fixpoint fields_acc (fuel : nat) (cur s : string) : list string :=
  match fuel with
  | O => flush cur
  | S fuel' =>
      match s with
      | EmptyString => flush cur
      | String c s' =>
          match unicode.rune_width unicode.space_runes s with
          | O => fields_acc fuel' (cur ++ String c EmptyString) s'
          | S w => (flush cur ++ fields_acc fuel' EmptyString (drop (S w) s))%list
          end
      end
  end.

Definition Fields (s : string) : list string :=
  fields_acc (String.length s) EmptyString s.

(** strings.Join *)
Fixpoint Join (elems : list string) (sep : string) : string :=
  match elems with
  | [] => EmptyString
  | [e] => e
  | e :: rest => e ++ sep ++ Join rest sep
  end.

Fixpoint spaces (n : nat) : string :=
  match n with
  | O => EmptyString
  | S n' => String " " (spaces n')
  end.

(** fmt.Sprintf("%5d", n): the decimal text of [n], sign included, with
    spaces before it up to five bytes. *)
Definition pad5 (n : Z) : string :=
  spaces (5 - String.length (csv.FormatInt n)) ++ csv.FormatInt n.

End GoStrings.

(** ** The Rofi user interface

    [exec] stands for the rofi process: what cmd.Run gives for the
    executable, the arguments and the standard input it is started
    with. *)

Module rofi.

Inductive CmdResult :=
  | Exited0 (stdout : string)                  (* cmd.Run returned nil *)
  | ExitError (code : Z) (stderr : string)     (* an *exec.ExitError *)
  | RunFailed (stderr : string).               (* any other error *)

Inductive error :=
  | ErrUserAborted
  | CommandFailed (stderr : string)
  | NoChoices
  | IncorrectFormat
  | NotFound (selected : string).

Definition result : Type := string * option error.

Definition newline : string := String "010" "".

Section RofiUI.

Variable exec : string -> list string -> string -> CmdResult.
Variable config : cli.RofiConfig.

Definition cmdArgs (prompt : string) (args : list string) : list string :=
  (["-dmenu"]
   ++ (if String.eqb prompt "" then [] else ["-p"; prompt])
   ++ (if String.eqb (cli.Theme config) "" then []
       else ["-theme"; cli.Theme config])
   ++ args)%list.

Definition runRofi (prompt input : string) (args : list string) : result :=
  match exec (cli.Path config) (cmdArgs prompt args) input with
  | ExitError code stderr =>
      if (code =? 1)%Z then ("", Some ErrUserAborted)
      else ("", Some (CommandFailed stderr))
  | RunFailed stderr => ("", Some (CommandFailed stderr))
  | Exited0 stdout =>
      let selected := GoStrings.TrimSpace stdout in
      if String.eqb selected "" && negb (String.eqb input "")
      then ("", Some ErrUserAborted)
      else (selected, None)
  end.

(** fmt.Sprintf("%5d %s", bp.Count, bp.Name) *)
Definition displayString (b : Boilerplate) : string :=
  GoStrings.pad5 (Count b) ++ " " ++ Name b.

Fixpoint rofiInput (bps : list Boilerplate) : string :=
  match bps with
  | [] => ""
  | b :: bps' => (displayString b ++ newline) ++ rofiInput bps'
  end.

(** SelectBoilerplate of internal/ui, which finds the name by the line
    displayed; [bps] is the slice made from the map and sorted. *)
Definition SelectBoilerplate_by_display (bps : list Boilerplate) : result :=
  let nameOnlyMap : gmap string string :=
    foldl (fun m b => <[displayString b := Name b]> m) ∅ bps in
  match runRofi "Select Boilerplate:" (rofiInput bps)
                (cli.SelectArgs config) with
  | (_, Some err) => ("", Some err)
  | (selectedDisplayString, None) =>
      match nameOnlyMap !! selectedDisplayString with
      | Some actualName => (actualName, None)
      | None =>
          if String.eqb selectedDisplayString ""
          then ("", Some ErrUserAborted)
          else ("", Some (NotFound selectedDisplayString))
      end
  end.

(** SelectBoilerplate of package ui, which cuts the count off the line
    selected. *)
Definition SelectBoilerplate (boilerplates : gmap string Boilerplate)
    (bps : list Boilerplate) : result :=
  match runRofi "Select Boilerplate" (rofiInput bps)
                (cli.SelectArgs config) with
  | (_, Some err) => ("", Some err)
  | (selected, None) =>
      let parts := GoStrings.Fields selected in
      if (length parts <=? 1)%nat then ("", Some IncorrectFormat)
      else
        let name := GoStrings.Join (tail parts) " " in
        match boilerplates !! name with
        | None => ("", Some (NotFound selected))
        | Some _ => (name, None)
        end
  end.

Definition Select (prompt : string) (choices : list string) : result :=
  if (length choices =? 0)%nat then ("", Some NoChoices)
  else runRofi prompt (GoStrings.Join choices newline)
               (cli.SelectArgs config).

Definition Prompt (prompt : string) : result :=
  match runRofi prompt "" (cli.InputArgs config) with
  | (_, Some err) => ("", Some err)
  | (response, None) => (response, None)
  end.

End RofiUI.

(** A string that neither begins nor ends with a byte of white space or
    of a rune of several bytes. *)
Definition plain_ends (s : string) : bool :=
  match s with
  | EmptyString => false
  | String c _ =>
      unicode.is_plain c &&
      match GoStrings.rev s with
      | String d _ => unicode.is_plain d
      | EmptyString => false
      end
  end.

End rofi.

(** A rofi that prints [out] and exits with status 0 whatever it is
    given, a configuration, and a boilerplate used more than 9999
    times. *)
Definition rofi_prints (out : string)
  : string -> list string -> string -> rofi.CmdResult :=
  fun _ _ _ => rofi.Exited0 out.

Definition rofi_config : cli.RofiConfig :=
  {| cli.Path := "rofi"; cli.Theme := "";
     cli.SelectArgs := []; cli.InputArgs := [] |}.

Definition worn : Boilerplate :=
  {| Name := "worn"; Value := "used all the time"; Count := 12345 |}.

(** ** A record that goes through encoding/csv

    The package encoding/csv is not part of the repository; what follows
    is modelled from its documentation. The Writer puts a field that
    holds a quote, the comma, a carriage return or a newline, or that
    begins with a space, between quotes and writes its bytes as they are,
    a quote doubled. The Reader returns the bytes of a field, a doubled
    quote as one quote, except that a carriage return before a newline
    is removed, also inside a quoted field. A record of three fields that
    is written and then read comes back with every "\r\n" inside a field
    turned into "\n", and with nothing else changed. *)

Definition crlf : string := String "013" (String "010" "").

(** A field as the Reader returns it after the Writer wrote it. *)
Fixpoint csv_read_back (field : string) : string :=
  match field with
  | EmptyString => EmptyString
  | String c rest =>
      match rest with
      | String d _ =>
          if Ascii.eqb c "013" && Ascii.eqb d "010" then csv_read_back rest
          else String c (csv_read_back rest)
      | EmptyString => String c EmptyString
      end
  end.

(** What the successive calls of [r.Read] return for the records that
    [w.Write] was given, when these all have three fields, as those of
    writeBoilerplatesToPath have. *)
Definition csv_reads_of (records : list (list string))
  : list (list string + error) :=
  (fun record : list string =>
     (inl (csv_read_back <$> record) : list string + error)) <$> records.

(** A boilerplate with its name and its value as they are read back. *)
Definition read_back (b : Boilerplate) : Boilerplate :=
  {| Name := csv_read_back (Name b); Value := csv_read_back (Value b);
     Count := Count b |}.

(** ** The matcher and [Split] on sample texts *)

Example find_include : FindStringIndex "before [[foobar]] after" = Some (7, 17).
Proof. reflexivity. Qed.

Example find_prompt : FindStringIndex "Hello {{name}}!" = Some (6, 14).
Proof. reflexivity. Qed.

Example find_none : FindStringIndex "the text of foobar" = None.
Proof. reflexivity. Qed.

Example split_choices : Split "Pick|red||blue|" "|" = ["Pick"; "red"; ""; "blue"; ""].
Proof. reflexivity. Qed.

(** ** Facts about strings *)

Module GoStringFacts.

Lemma app_cons (c : ascii) (a b : string) : String c a ++ b = String c (a ++ b).
Proof. reflexivity. Qed.

Lemma app_empty_l (a : string) : "" ++ a = a.
Proof. reflexivity. Qed.

Lemma app_empty_r (a : string) : a ++ "" = a.
Proof. induction a as [|c a IH]; [reflexivity|]. now rewrite app_cons, IH. Qed.

Lemma app_assoc (a b c : string) : (a ++ b) ++ c = a ++ b ++ c.
Proof.
  induction a as [|x a IH]; [reflexivity|].
  now rewrite !app_cons, IH.
Qed.

Lemma length_app (a b : string) :
  String.length (a ++ b) = String.length a + String.length b.
Proof.
  induction a as [|x a IH]; [reflexivity|].
  rewrite app_cons. simpl. now rewrite IH.
Qed.

Lemma drop_app (a b : string) : drop (String.length a) (a ++ b) = b.
Proof. induction a as [|x a IH]; [reflexivity|]. rewrite app_cons. exact IH. Qed.

Lemma take_app (a b : string) : take (String.length a) (a ++ b) = a.
Proof.
  induction a as [|x a IH]; [reflexivity|].
  rewrite app_cons. simpl. now rewrite IH.
Qed.

Lemma take_drop (n : nat) (s : string) : take n s ++ drop n s = s.
Proof.
  revert s. induction n as [|n IH]; intros s; [reflexivity|].
  destruct s as [|c s]; [reflexivity|].
  simpl. now rewrite app_cons, IH.
Qed.

Lemma drop_drop (n m : nat) (s : string) : drop n (drop m s) = drop (m + n) s.
Proof.
  revert s. induction m as [|m IH]; intros s; [reflexivity|].
  destruct s as [|c s]; simpl; [now destruct n|]. apply IH.
Qed.

Lemma length_take (n : nat) (s : string) :
  n <= String.length s -> String.length (take n s) = n.
Proof.
  revert s. induction n as [|n IH]; intros s Hn; [reflexivity|].
  destruct s as [|c s]; simpl in *; [lia|]. rewrite IH; lia.
Qed.

Lemma slice_app (a t b : string) :
  slice (String.length a) (String.length a + String.length t) (a ++ t ++ b) = t.
Proof.
  unfold slice. rewrite drop_app.
  replace (String.length a + String.length t - String.length a)
    with (String.length t) by lia.
  apply take_app.
Qed.

Lemma at_index_app (a : string) (c : ascii) (b : string) :
  at_index (String.length a) (a ++ String c b) = Some c.
Proof.
  unfold at_index. induction a as [|x a IH]; [reflexivity|].
  rewrite app_cons. exact IH.
Qed.

Lemma HasPrefix_app (p s : string) : HasPrefix (p ++ s) p = true.
Proof.
  unfold HasPrefix. induction p as [|c p IH]; [now destruct s|].
  rewrite app_cons. simpl.
  destruct (ascii_dec c c) as [_|Hne]; [exact IH|now elim Hne].
Qed.

Lemma HasPrefix_inv (p s : string) :
  HasPrefix s p = true -> s = p ++ drop (String.length p) s.
Proof.
  unfold HasPrefix. revert s. induction p as [|c p IH]; intros s H.
  - reflexivity.
  - destruct s as [|d s]; [discriminate|]. simpl in H.
    destruct (ascii_dec c d) as [->|]; [|discriminate].
    rewrite app_cons. simpl. f_equal. now apply IH.
Qed.

Lemma span_le (p : ascii -> bool) (s : string) : span p s <= String.length s.
Proof.
  induction s as [|c s IH]; simpl; [lia|]. destruct (p c); simpl; lia.
Qed.

Lemma all_take_span (p : ascii -> bool) (s : string) :
  all p (take (span p s) s) = true.
Proof.
  induction s as [|c s IH]; [reflexivity|]. simpl.
  destruct (p c) eqn:E; [|reflexivity]. simpl. now rewrite E, IH.
Qed.

(** The run stops where the first byte outside the class stands. *)
Lemma span_app (p : ascii -> bool) (x : string) (c : ascii) (r : string) :
  all p x = true -> p c = false -> span p (x ++ String c r) = String.length x.
Proof.
  intros Hx Hc. induction x as [|d x IH]; simpl in *.
  - rewrite ?app_empty_l. simpl. now rewrite Hc.
  - apply andb_true_iff in Hx as [Hd Hx].
    rewrite ?app_cons. simpl. rewrite Hd. f_equal. now apply IH.
Qed.

Lemma all_app (p : ascii -> bool) (a b : string) :
  all p (a ++ b) = all p a && all p b.
Proof.
  induction a as [|c a IH]; [reflexivity|].
  rewrite app_cons. simpl. now rewrite IH, andb_assoc.
Qed.

Lemma contains_char_false_all (c : ascii) (s : string) :
  contains_char c s = false <-> all (fun d => negb (Ascii.eqb d c)) s = true.
Proof.
  induction s as [|d s IH]; simpl; [tauto|].
  rewrite orb_false_iff, andb_true_iff, negb_true_iff. tauto.
Qed.

End GoStringFacts.

Import GoStringFacts.

(** ** The matcher against the grammar *)

Lemma nonempty_length (x : string) : x <> "" -> 0 < String.length x.
Proof. destruct x; [congruence|simpl; lia]. Qed.

Lemma match_delimited_complete (op cl : string) (p : ascii -> bool)
    (x post : string) (c1 c2 : ascii) :
  String.length op = 2 -> cl = String c1 (String c2 "") -> p c1 = false ->
  x <> "" -> all p x = true ->
  match_delimited op cl p (op ++ x ++ cl ++ post) = Some (String.length x + 4).
Proof.
  intros Hop -> Hc Hx Hall. unfold match_delimited.
  rewrite HasPrefix_app.
  replace (drop 2 (op ++ x ++ String c1 (String c2 "") ++ post))
    with (x ++ String c1 (String c2 "") ++ post)
    by (now rewrite <- Hop, drop_app).
  cbv zeta.
  change (String c1 (String c2 "") ++ post) with (String c1 (String c2 post)).
  rewrite (span_app p x c1 _ Hall Hc), drop_app.
  apply nonempty_length in Hx. apply Nat.ltb_lt in Hx. rewrite Hx.
  change (String c1 (String c2 post)) with (String c1 (String c2 "") ++ post).
  now rewrite HasPrefix_app.
Qed.

Lemma match_delimited_sound (op cl : string) (p : ascii -> bool)
    (s : string) (n : nat) :
  String.length op = 2 -> String.length cl = 2 ->
  match_delimited op cl p s = Some n ->
  exists x, x <> "" /\ all p x = true /\ n = String.length x + 4 /\
            s = op ++ x ++ cl ++ drop n s.
Proof.
  intros Hop Hcl. unfold match_delimited.
  destruct (HasPrefix s op) eqn:Hp; [|discriminate].
  cbv zeta. set (r := drop 2 s). set (k := span p r).
  destruct (0 <? k) eqn:Hk; [|discriminate].
  destruct (HasPrefix (drop k r) cl) eqn:Hc; [|discriminate].
  simpl. intros [= <-].
  apply Nat.ltb_lt in Hk.
  assert (Hlen : String.length (take k r) = k)
    by (apply length_take; apply span_le).
  exists (take k r). repeat split.
  - intros E. rewrite E in Hlen. simpl in Hlen. lia.
  - apply all_take_span.
  - now rewrite Hlen.
  - apply HasPrefix_inv in Hp, Hc. rewrite Hop in Hp. rewrite Hcl in Hc.
    rewrite drop_drop in Hc. fold r in Hp. unfold r in Hc at 2.
    rewrite drop_drop in Hc.
    replace (2 + (k + 2)) with (k + 4) in Hc by lia.
    rewrite Hp at 1. f_equal.
    rewrite <- Hc. symmetry. apply take_drop.
Qed.

Lemma match_here_token (t post : string) :
  is_token t -> match_here (t ++ post) = Some (String.length t).
Proof.
  intros [(id & Hne & Hall & ->) | (x & Hne & Hall & ->)]; unfold match_here.
  - unfold match_include. rewrite !app_assoc.
    rewrite (match_delimited_complete "[[" "]]" is_ident_char id post "]" "]");
      try done.
    rewrite !length_app. simpl. f_equal. lia.
  - replace (match_include (("{{" ++ x ++ "}}") ++ post)) with (@None nat)
      by reflexivity.
    unfold match_prompt. rewrite !app_assoc.
    rewrite (match_delimited_complete "{{" "}}" not_close_brace x post "}" "}");
      try done.
    rewrite !length_app. simpl. f_equal. lia.
Qed.

Lemma match_here_inv (s : string) (n : nat) :
  match_here s = Some n ->
  exists t, is_token t /\ n = String.length t /\ s = t ++ drop n s.
Proof.
  unfold match_here. destruct (match_include s) as [k|] eqn:Hi.
  - intros [= <-].
    apply match_delimited_sound in Hi as (id & Hne & Hall & -> & Hs); try done.
    exists ("[[" ++ id ++ "]]"). split; [left; exists id; repeat split; assumption|]. split.
    + rewrite !length_app. simpl. lia.
    + now rewrite !app_assoc.
  - intros Hp.
    apply match_delimited_sound in Hp as (x & Hne & Hall & -> & Hs); try done.
    exists ("{{" ++ x ++ "}}"). split; [right; exists x; repeat split; assumption|]. split.
    + rewrite !length_app. simpl. lia.
    + now rewrite !app_assoc.
Qed.

(** What [find_from] returns is a match and the leftmost one. *)
Lemma find_from_Some (i : nat) (s : string) (a b : nat) :
  find_from i s = Some (a, b) ->
  i <= a /\ a - i <= String.length s /\
  match_here (drop (a - i) s) = Some (b - a) /\ a <= b /\
  forall k, k < a - i -> match_here (drop k s) = None.
Proof.
  revert i. induction s as [|c s IH]; intros i; simpl.
  - discriminate.
  - destruct (match_here (String c s)) as [n|] eqn:Hm.
    + intros [= <- <-]. replace (i - i) with 0 by lia.
      replace (i + n - i) with n by lia. simpl. repeat split; try lia. exact Hm.
    + intros H. apply IH in H as (Hle & Hlen & Hmatch & Hab & Hleft).
      replace (a - i) with (S (a - S i)) by lia. simpl.
      repeat split; try lia; [exact Hmatch|].
      intros [|k] Hk; [exact Hm|]. simpl. apply Hleft. lia.
Qed.

Lemma find_from_None (i : nat) (s : string) :
  find_from i s = None -> forall k, match_here (drop k s) = None.
Proof.
  revert i. induction s as [|c s IH]; intros i; simpl.
  - intros _ [|k]; reflexivity.
  - destruct (match_here (String c s)) eqn:Hm; [discriminate|].
    intros H [|k]; [exact Hm|]. simpl. eapply IH, H.
Qed.

Lemma find_from_at (i : nat) (pre s : string) (n : nat) :
  match_here s = Some n ->
  (forall k, k < String.length pre -> match_here (drop k (pre ++ s)) = None) ->
  find_from i (pre ++ s) =
    Some (i + String.length pre, i + String.length pre + n).
Proof.
  revert i. induction pre as [|c pre IH]; intros i Hm Hleft.
  - rewrite app_empty_l. destruct s as [|c s]; [discriminate Hm|].
    simpl. rewrite Hm. simpl. do 2 f_equal; lia.
  - assert (H0 : match_here (String c (pre ++ s)) = None)
      by (apply (Hleft 0); simpl; lia).
    rewrite app_cons. simpl. rewrite H0.
    rewrite IH; [simpl; do 2 f_equal; lia|exact Hm|].
    intros k Hk. apply (Hleft (S k)). simpl. lia.
Qed.


(** ** [FindStringIndex] against the grammar *)

Lemma FindStringIndex_first_token (v pre t post : string) :
  first_token v pre t post ->
  FindStringIndex v =
    Some (String.length pre, String.length pre + String.length t).
Proof.
  intros (-> & Htok & Hleft). unfold FindStringIndex.
  rewrite (find_from_at 0 pre (t ++ post) (String.length t)).
  - reflexivity.
  - now apply match_here_token.
  - intros k Hk.
    destruct (match_here (drop k (pre ++ t ++ post))) as [n|] eqn:Hm;
      [|reflexivity].
    apply match_here_inv in Hm as (t' & Htok' & _ & Heq).
    assert (Hlen : String.length (take k (pre ++ t ++ post)) = k)
      by (apply length_take; rewrite length_app; lia).
    specialize (Hleft (take k (pre ++ t ++ post)) t' _
                  ltac:(rewrite <- Heq; symmetry; apply take_drop) Htok').
    lia.
Qed.

Lemma FindStringIndex_Some_inv (v : string) (a b : nat) :
  FindStringIndex v = Some (a, b) ->
  exists pre t post,
    first_token v pre t post /\
    a = String.length pre /\ b = a + String.length t.
Proof.
  intros H. apply find_from_Some in H as (_ & Hlen & Hm & Hab & Hleft).
  rewrite Nat.sub_0_r in *.
  apply match_here_inv in Hm as (t & Htok & Hn & Heq).
  assert (Ha : String.length (take a v) = a) by now apply length_take.
  exists (take a v), t, (drop (b - a) (drop a v)). repeat split.
  - rewrite <- Heq. symmetry. apply take_drop.
  - exact Htok.
  - intros pre' t' post' Hv Htok'. rewrite Ha.
    destruct (Nat.le_gt_cases a (String.length pre')) as [|Hlt]; [assumption|].
    apply Hleft in Hlt. rewrite Hv, drop_app in Hlt.
    rewrite match_here_token in Hlt by assumption. discriminate.
  - now rewrite Ha.
  - lia.
Qed.

Lemma FindStringIndex_None_iff (v : string) :
  FindStringIndex v = None <-> token_free v.
Proof.
  split.
  - intros H pre t post -> Htok.
    pose proof (find_from_None _ _ H (String.length pre)) as Hm.
    rewrite drop_app, match_here_token in Hm by assumption. discriminate.
  - intros Hfree. destruct (FindStringIndex v) as [[a b]|] eqn:H; [|reflexivity].
    apply FindStringIndex_Some_inv in H as (pre & t & post & (Hv & Htok & _) & _).
    now elim (Hfree pre t post Hv).
Qed.

(** The slices that [expandFirst] takes around a match. *)
Lemma slices_of_match (pre op x cl post : string) :
  String.length op = 2 -> String.length cl = 2 ->
  let v := pre ++ (op ++ x ++ cl) ++ post in
  let a := String.length pre in
  let b := a + String.length (op ++ x ++ cl) in
  slice a b v = op ++ x ++ cl /\
  slice (a + 2) (b - 2) v = x /\
  take a v = pre /\ drop b v = post.
Proof.
  intros Hop Hcl v a b. subst v a b. repeat split.
  - apply slice_app.
  - rewrite !length_app, Hop, Hcl.
    replace (String.length pre + (2 + (String.length x + 2)) - 2)
      with (String.length (pre ++ op) + String.length x)
      by (rewrite length_app; lia).
    replace (String.length pre + 2) with (String.length (pre ++ op))
      by (rewrite length_app; lia).
    rewrite <- (slice_app (pre ++ op) x (cl ++ post)) at 3.
    now rewrite !app_assoc.
  - apply take_app.
  - replace (pre ++ (op ++ x ++ cl) ++ post)
      with ((pre ++ op ++ x ++ cl) ++ post) by apply app_assoc.
    rewrite <- length_app. apply drop_app.
Qed.

(** ** One step of the loop, case by case *)

Section StepFacts.

Context {U D : Type} `{!UI U} `{!Database D}.

Lemma expandFirst_token_free (v : string) (bm : BoilerplateManager U D) :
  token_free v -> expandFirst v bm = ((v, None), bm).
Proof.
  intros Hfree. apply FindStringIndex_None_iff in Hfree.
  unfold expandFirst. now rewrite Hfree.
Qed.

Lemma expandFirst_include (v pre id post : string) (bm : BoilerplateManager U D) :
  first_token v pre ("[[" ++ id ++ "]]") post ->
  expandFirst v bm =
    match boilerplates bm !! ("[[" ++ id ++ "]]") with
    | None => (("", Some (UnknownReferencedBoilerplate id)), bm)
    | Some b => ((pre ++ Value b ++ post, None), bm)
    end.
Proof.
  intros Hft. pose proof (FindStringIndex_first_token _ _ _ _ Hft) as Hfind.
  destruct Hft as (-> & _ & _). unfold expandFirst. rewrite Hfind.
  destruct (slices_of_match pre "[[" id "]]" post eq_refl eq_refl)
    as (Houter & Hinner & Htake & Hdrop).
  cbv zeta. unfold splice. rewrite Houter, Hinner, Htake, Hdrop.
  change (("[[" ++ id ++ "]]") ++ post)
    with (String "[" (String "[" ((id ++ "]]") ++ post))).
  now rewrite at_index_app.
Qed.

Lemma expandFirst_prompt (v pre x post : string) (bm : BoilerplateManager U D) :
  first_token v pre ("{{" ++ x ++ "}}") post ->
  expandFirst v bm =
    answered pre post bm
      (if contains_char "|" x
       then Select (hd "" (Split x "|")) (tl (Split x "|")) (ui bm)
       else Prompt x (ui bm)).
Proof.
  intros Hft. pose proof (FindStringIndex_first_token _ _ _ _ Hft) as Hfind.
  destruct Hft as (-> & _ & _). unfold expandFirst. rewrite Hfind.
  destruct (slices_of_match pre "{{" x "}}" post eq_refl eq_refl)
    as (Houter & Hinner & Htake & Hdrop).
  cbv zeta. unfold splice. rewrite Hinner, Htake, Hdrop.
  change (("{{" ++ x ++ "}}") ++ post)
    with (String "{" (String "{" ((x ++ "}}") ++ post))).
  rewrite at_index_app. unfold answered.
  destruct (contains_char "|" x).
  - now destruct (Select _ _ _) as [[choice [e|]] u].
  - now destruct (Prompt _ _) as [[input [e|]] u].
Qed.

(** A step that fails returns the empty text, and no step touches the
    boilerplates or the database. *)
Lemma expandFirst_preserves (v : string) (bm : BoilerplateManager U D) :
  let '((text, err), bm') := expandFirst v bm in
  boilerplates bm' = boilerplates bm /\ db bm' = db bm /\
  (err <> None -> text = "").
Proof.
  unfold expandFirst.
  destruct (FindStringIndex v) as [[a b]|]; [|now repeat split].
  cbv zeta.
  assert (Hprompt :
    let '((text, err), bm') :=
      if contains_char "|" (slice (a + 2) (b - 2) v)
      then
        let '((choice, err), u) :=
          Select (hd "" (Split (slice (a + 2) (b - 2) v) "|"))
                 (tl (Split (slice (a + 2) (b - 2) v) "|")) (ui bm) in
        match err with
        | Some e => (("", Some e), with_ui u bm)
        | None => ((splice v a b choice, None), with_ui u bm)
        end
      else
        let '((input, err), u) := Prompt (slice (a + 2) (b - 2) v) (ui bm) in
        match err with
        | Some e => (("", Some e), with_ui u bm)
        | None => ((splice v a b input, None), with_ui u bm)
        end in
    boilerplates bm' = boilerplates bm /\ db bm' = db bm /\
    (err <> None -> text = "")).
  { destruct (contains_char _ _).
    - destruct (Select _ _ _) as [[choice [e|]] u]; now repeat split.
    - destruct (Prompt _ _) as [[input [e|]] u]; now repeat split. }
  destruct (at_index a v) as [c|]; [|exact Hprompt].
  destruct (Ascii.eqb_spec c "[") as [->|Hne].
  - destruct (boilerplates bm !! slice a b v); now repeat split.
  - destruct c as [[] [] [] [] [] [] [] []]; try exact Hprompt. now elim Hne.
Qed.

End StepFacts.

(** ** Reading a match off a concrete text *)

Lemma app_inv_length (a b a' b' : string) :
  a ++ b = a' ++ b' -> String.length a = String.length a' ->
  a = a' /\ b = b'.
Proof.
  revert a'. induction a as [|c a IH]; intros [|c' a'] Heq Hlen;
    try discriminate.
  - now split.
  - rewrite !app_cons in Heq. injection Heq as -> Heq. simpl in Hlen.
    destruct (IH a' Heq ltac:(lia)) as [-> ->]. now split.
Qed.

(** When the scan of [pre ++ t ++ post] returns the span of [t], [t] is
    the first token of the text. *)
Lemma first_token_by_scan (pre t post : string) :
  FindStringIndex (pre ++ t ++ post) =
    Some (String.length pre, String.length pre + String.length t) ->
  first_token (pre ++ t ++ post) pre t post.
Proof.
  intros H.
  apply FindStringIndex_Some_inv in H
    as (pre0 & t0 & post0 & (Hv & Htok & Hleft) & Ha & Hb).
  destruct (app_inv_length _ _ _ _ Hv Ha) as [-> Hrest].
  destruct (app_inv_length _ _ _ _ Hrest ltac:(lia)) as [-> ->].
  repeat split; assumption.
Qed.

(** ** strings.Split *)

Lemma split_acc_piece (sep : ascii) (cur label rest : string) :
  contains_char sep label = false ->
  split_acc sep cur (label ++ String sep rest) =
    (cur ++ label) :: split_acc sep "" rest.
Proof.
  revert cur. induction label as [|c label IH]; intros cur Hno.
  - rewrite app_empty_l, app_empty_r. simpl. now rewrite Ascii.eqb_refl.
  - simpl in Hno. apply orb_false_iff in Hno as [Hc Hno].
    rewrite app_cons. simpl. rewrite Hc.
    rewrite IH by assumption. now rewrite app_assoc.
Qed.

Lemma split_acc_last (sep : ascii) (cur s : string) :
  contains_char sep s = false -> split_acc sep cur s = [cur ++ s].
Proof.
  revert cur. induction s as [|c s IH]; intros cur Hno; simpl.
  - now rewrite app_empty_r.
  - simpl in Hno. apply orb_false_iff in Hno as [Hc Hno].
    rewrite Hc, IH by assumption. now rewrite app_assoc.
Qed.

(** The text before the first separator is the first piece, and the
    pieces after it are those of the rest of the text. *)
Lemma Split_first (sep : ascii) (label rest : string) :
  contains_char sep label = false ->
  Split (label ++ String sep rest) sep = label :: Split rest sep.
Proof. intros Hno. unfold Split. now rewrite split_acc_piece. Qed.

Lemma Split_no_separator (sep : ascii) (s : string) :
  contains_char sep s = false -> Split s sep = [s].
Proof. intros Hno. unfold Split. now rewrite split_acc_last. Qed.

(** A text that holds the separator falls into the part before its first
    occurrence and the part after it. *)
Lemma contains_char_split (sep : ascii) (s : string) :
  contains_char sep s = true ->
  exists label rest,
    s = label ++ String sep rest /\ contains_char sep label = false.
Proof.
  induction s as [|c s IH]; simpl; [discriminate|].
  destruct (Ascii.eqb_spec c sep) as [->|Hne]; simpl.
  - intros _. now exists "", s.
  - intros H. destruct (IH H) as (label & rest & -> & Hno).
    exists (String c label), rest. split; [reflexivity|]. simpl.
    rewrite Hno. apply Ascii.eqb_neq in Hne. now rewrite Hne.
Qed.

(** Joining the pieces with the separator gives the text back: the pieces
    are in the order of the text and none is dropped, the empty ones
    included. *)
Lemma split_acc_join (sep : ascii) (cur s : string) :
  String.concat (String sep "") (split_acc sep cur s) = cur ++ s.
Proof.
  revert cur. induction s as [|c s IH]; intros cur; simpl.
  - now rewrite app_empty_r.
  - destruct (Ascii.eqb_spec c sep) as [->|Hne].
    + specialize (IH ""). rewrite app_empty_l in IH.
      destruct (split_acc sep "" s) as [|piece pieces] eqn:E.
      * destruct s; simpl in E; [discriminate|].
        destruct (Ascii.eqb a sep); discriminate.
      * cbn [String.concat]. cbn [String.concat] in IH. rewrite IH.
        reflexivity.
    + rewrite IH. now rewrite app_assoc.
Qed.

Lemma Split_join (sep : ascii) (s : string) :
  String.concat (String sep "") (Split s sep) = s.
Proof. unfold Split. now rewrite split_acc_join. Qed.

(** ** The loop and the bookkeeping *)

Section LoopFacts.

Context {U D : Type} `{!UI U} `{!Database D}.

Lemma expandLoop_unfold (fuel : nat) (before : string)
    (bm : BoilerplateManager U D) :
  expandLoop (S fuel) before bm =
    let '((after, err), bm1) := expandFirst before bm in
    match err with
    | Some e => Some (("", Some e), bm1)
    | None =>
        if String.eqb before after then Some ((after, None), bm1)
        else expandLoop fuel after bm1
    end.
Proof. reflexivity. Qed.

(** The loop reads the boilerplates and never writes them, nor the
    database; when it fails it returns the empty text. *)
Lemma expandLoop_preserves (fuel : nat) (before : string)
    (bm : BoilerplateManager U D) (text : string) (err : option error)
    (bm1 : BoilerplateManager U D) :
  expandLoop fuel before bm = Some ((text, err), bm1) ->
  boilerplates bm1 = boilerplates bm /\ db bm1 = db bm /\
  (err <> None -> text = "").
Proof.
  revert before bm. induction fuel as [|fuel IH]; intros before bm;
    [discriminate|].
  rewrite expandLoop_unfold.
  pose proof (expandFirst_preserves before bm) as Hstep.
  destruct (expandFirst before bm) as [[after [e|]] bm0].
  - intros [= <- <- <-]. destruct Hstep as (? & ? & ?). now repeat split.
  - destruct Hstep as (Hb & Hd & _).
    destruct (String.eqb before after).
    + intros [= <- <- <-]. now repeat split.
    + intros H. apply IH in H as (? & ? & ?).
      repeat split; [congruence|congruence|assumption].
Qed.

(** Every failure of [Expand] leaves the boilerplates and the database as
    they were, and returns the empty text. *)
Lemma Expand_error_no_side_effects (fuel : nat) (name : string)
    (bm bm' : BoilerplateManager U D) (text : string) (e : error) :
  Expand fuel name bm = Some ((text, Some e), bm') ->
  text = "" /\ boilerplates bm' = boilerplates bm /\ db bm' = db bm.
Proof.
  unfold Expand. destruct (boilerplates bm !! name) as [b|].
  - destruct (expandLoop fuel (Value b) bm) as [[[after [e0|]] bm1]|] eqn:Hloop;
      [| |discriminate].
    + intros [= <- <- <-]. apply expandLoop_preserves in Hloop as (? & ? & _).
      now repeat split.
    + destruct (incrementBoilerplateCount name bm1). discriminate.
  - intros [= <- <- <-]. now repeat split.
Qed.

Lemma Expand_unknown_name (fuel : nat) (name : string)
    (bm : BoilerplateManager U D) :
  boilerplates bm !! name = None ->
  Expand fuel name bm = Some (("", Some (UnknownBoilerplate name)), bm).
Proof. intros H. unfold Expand. now rewrite H. Qed.

End LoopFacts.

(** A cancelled prompt ends the expansion with the error of the user
    interface, the empty text and the counts as they were. *)
Example Expand_cancelled :
  observe ["t"] (Expand 3 "t" (manager_of [bp "t" "Hello {{name}}!"] [cancel]))
  = Some (("", Some (External "user aborted")), [CallPrompt "name"],
          [Some 0%Z], [Some 0%Z]).
Proof. vm_compute. reflexivity. Qed.

(** ** Properties of one scan-and-substitute step *)

Section StepClaims.

Context {U D : Type} `{!UI U} `{!Database D}.

(** C8: a scan-and-substitute step applied to a text without reference
    tokens returns the same text, and [Expand] of a boilerplate whose
    value has no reference token returns the value unchanged, after one
    iteration, without any request to the user interface. *)
Theorem Expand_token_free (name : string) (b : Boilerplate)
    (bm : BoilerplateManager U D) (fuel : nat) :
  boilerplates bm !! name = Some b ->
  token_free (Value b) ->
  (forall v (m : BoilerplateManager U D),
      token_free v -> expandFirst v m = ((v, None), m)) /\
  exists bm',
    Expand (S fuel) name bm = Some ((Value b, None), bm') /\
    ui bm' = ui bm.
Proof.
  intros Hname Hfree. split; [intros v m; apply expandFirst_token_free|].
  unfold Expand. rewrite Hname, expandLoop_unfold.
  rewrite expandFirst_token_free by assumption.
  rewrite String.eqb_refl. unfold incrementBoilerplateCount. rewrite Hname.
  cbv zeta. destruct (IncBoilerplateCount name _) as [err d].
  eexists. split; reflexivity.
Qed.

(** C5: a prompt token whose inner text holds the separator makes the
    engine call [Select] with the text before the first separator as the
    prompt and the pieces after it, in order and the empty ones included,
    as the choices; without a separator the engine calls [Prompt] with the
    whole inner text. In both cases the answer is spliced in as it is. *)
Theorem prompt_token_dispatch (v pre x post : string)
    (bm : BoilerplateManager U D) :
  first_token v pre ("{{" ++ x ++ "}}") post ->
  (forall label rest,
      x = label ++ String "|" rest -> contains_char "|" label = false ->
      Split x "|" = label :: Split rest "|" /\
      expandFirst v bm =
        answered pre post bm (Select label (Split rest "|") (ui bm))) /\
  (contains_char "|" x = true ->
   exists label rest,
     x = label ++ String "|" rest /\ contains_char "|" label = false) /\
  (contains_char "|" x = false ->
   expandFirst v bm = answered pre post bm (Prompt x (ui bm))) /\
  String.concat "|" (Split x "|") = x /\
  (forall text u,
      answered pre post bm ((text, None), u) =
        ((pre ++ text ++ post, None), with_ui u bm)).
Proof.
  intros Hft. pose proof (expandFirst_prompt v pre x post bm Hft) as Hstep.
  split; [|split; [|split; [|split]]].
  - intros label rest -> Hno. split; [now apply Split_first|].
    rewrite Hstep.
    assert (Hc : contains_char "|" (label ++ String "|" rest) = true).
    { destruct (contains_char "|" (label ++ String "|" rest)) eqn:E;
        [reflexivity|].
      apply contains_char_false_all in E.
      rewrite all_app in E. simpl in E.
      now rewrite andb_false_r in E. }
    rewrite Hc, Split_first by assumption. reflexivity.
  - apply contains_char_split.
  - intros Hno. now rewrite Hstep, Hno.
  - apply Split_join.
  - reflexivity.
Qed.

(** C6, amended: a step replaces the span of the first token, the
    leftmost one, and nothing else: the text before it and the text after
    it are kept as they are, further occurrences of the same token
    included. A prompt token written twice is asked twice, the second
    request being made of the user interface as the first left it and its
    answer, not the first one, put in the place of the second occurrence,
    whenever the second occurrence is the first token of the text once
    the first answer is in; the text has then changed, so the loop goes
    on, and it returns the text with both answers when that text holds no
    token. *)
Theorem expandFirst_substitutes_first_span (v pre t post : string)
    (bm : BoilerplateManager U D) :
  first_token v pre t post ->
  FindStringIndex v =
    Some (String.length pre, String.length pre + String.length t) /\
  (exists res bm',
      expandFirst v bm = (res, bm') /\
      (snd res = None ->
       exists replacement, fst res = pre ++ replacement ++ post) /\
      (snd res <> None -> fst res = "")) /\
  forall (fuel : nat) (x mid rest r1 r2 : string) (u1 u2 : U),
    let ask := fun u : U =>
      if contains_char "|" x
      then Select (hd "" (Split x "|")) (tl (Split x "|")) u
      else Prompt x u in
    let v1 := pre ++ r1 ++ mid ++ t ++ rest in
    let v2 := (pre ++ r1 ++ mid) ++ r2 ++ rest in
    t = "{{" ++ x ++ "}}" ->
    post = mid ++ t ++ rest ->
    ask (ui bm) = ((r1, None), u1) ->
    first_token v1 (pre ++ r1 ++ mid) t rest ->
    ask u1 = ((r2, None), u2) ->
    expandFirst v bm = ((v1, None), with_ui u1 bm) /\
    expandFirst v1 (with_ui u1 bm) = ((v2, None), with_ui u2 bm) /\
    v1 <> v /\
    expandLoop (S (S fuel)) v bm =
      (if String.eqb v1 v2 then Some ((v2, None), with_ui u2 bm)
       else expandLoop fuel v2 (with_ui u2 bm)) /\
    (token_free v2 ->
     expandLoop (S (S (S fuel))) v bm = Some ((v2, None), with_ui u2 bm)).
Proof.
  intros Hft. split; [exact (FindStringIndex_first_token v pre t post Hft)|].
  split.
  { pose proof Hft as (_ & [(id & _ & _ & Ht) | (x & _ & _ & Ht)] & _); subst t.
    - rewrite (expandFirst_include v pre id post bm Hft).
      destruct (boilerplates bm !! _) as [b0|]; do 2 eexists;
        (split; [reflexivity|]); simpl; split; intros E;
        first [discriminate E | now elim E | reflexivity
              | eexists; reflexivity].
    - rewrite (expandFirst_prompt v pre x post bm Hft). unfold answered.
      destruct (if contains_char "|" x then _ else _) as [[text [e|]] u];
        do 2 eexists; (split; [reflexivity|]); simpl; split; intros E;
        first [discriminate E | now elim E | reflexivity
              | eexists; reflexivity]. }
  intros fuel x mid rest r1 r2 u1 u2 ask v1 v2 Ht Hpost Hask1 Hft1 Hask2.
  assert (Hstep1 : expandFirst v bm = ((v1, None), with_ui u1 bm)).
  { subst t. rewrite (expandFirst_prompt v pre x post bm Hft).
    fold (ask (ui bm)). rewrite Hask1. unfold answered, v1.
    now rewrite Hpost. }
  assert (Hstep2 : expandFirst v1 (with_ui u1 bm)
                   = ((v2, None), with_ui u2 bm)).
  { subst t.
    rewrite (expandFirst_prompt v1 (pre ++ r1 ++ mid) x rest _ Hft1).
    cbn [ui with_ui]. fold (ask u1). rewrite Hask2. reflexivity. }
  assert (Hne : v1 <> v).
  { intros Heq. destruct Hft as (Hv & _ & _), Hft1 as (_ & Htok & Hmin).
    rewrite Heq in Hmin. specialize (Hmin pre t post Hv Htok).
    apply (f_equal String.length) in Heq. unfold v1 in Heq.
    rewrite Hv, Hpost in Heq. rewrite !length_app in Heq, Hmin.
    subst t. rewrite !length_app in Heq. cbn [String.length] in Heq. lia. }
  assert (Hloop : expandLoop (S (S fuel)) v bm =
            (if String.eqb v1 v2 then Some ((v2, None), with_ui u2 bm)
             else expandLoop fuel v2 (with_ui u2 bm))).
  { rewrite expandLoop_unfold, Hstep1.
    replace (String.eqb v v1) with false
      by (symmetry; apply String.eqb_neq; congruence).
    now rewrite expandLoop_unfold, Hstep2. }
  split; [exact Hstep1|]. split; [exact Hstep2|]. split; [exact Hne|].
  split; [exact Hloop|].
  intros Hfree. rewrite expandLoop_unfold, Hstep1.
  replace (String.eqb v v1) with false
    by (symmetry; apply String.eqb_neq; congruence).
  rewrite expandLoop_unfold, Hstep2.
  assert (Hne2 : v1 <> v2).
  { intros Heq. destruct Hft1 as (Hv1 & Htok & _).
    rewrite Heq in Hv1. exact (Hfree _ _ _ Hv1 Htok). }
  replace (String.eqb v1 v2) with false
    by (symmetry; now apply String.eqb_neq).
  rewrite expandLoop_unfold, (expandFirst_token_free v2 _ Hfree).
  now rewrite String.eqb_refl.
Qed.

(** C4, as the code has it: a span {{text}} whose inner text is not
    empty and holds no closing brace at all is matched as one prompt
    reference when no token starts before it, and its inner text reaches
    the user interface as it is, leading and trailing blanks included. *)
Theorem prompt_span_recognized (pre text post : string)
    (bm : BoilerplateManager U D) :
  text <> "" ->
  all not_close_brace text = true ->
  (forall pre' t' post',
      pre ++ ("{{" ++ text ++ "}}") ++ post = pre' ++ t' ++ post' ->
      is_token t' -> String.length pre <= String.length pre') ->
  let v := pre ++ ("{{" ++ text ++ "}}") ++ post in
  FindStringIndex v =
    Some (String.length pre, String.length pre + (String.length text + 4)) /\
  at_index (String.length pre) v = Some "{"%char /\
  slice (String.length pre + 2) (String.length pre + (String.length text + 4) - 2) v
    = text /\
  (contains_char "|" text = false ->
   expandFirst v bm = answered pre post bm (Prompt text (ui bm))).
Proof.
  intros Hne Hall Hleft v.
  assert (Hft : first_token v pre ("{{" ++ text ++ "}}") post).
  { repeat split; [|assumption]. right. exists text. now repeat split. }
  assert (Hlen : String.length ("{{" ++ text ++ "}}") = String.length text + 4)
    by (rewrite !length_app; simpl; lia).
  repeat split.
  - rewrite (FindStringIndex_first_token _ _ _ _ Hft). now rewrite Hlen.
  - subst v. change (("{{" ++ text ++ "}}") ++ post)
      with (String "{" (String "{" ((text ++ "}}") ++ post))).
    apply at_index_app.
  - rewrite <- Hlen.
    now destruct (slices_of_match pre "{{" text "}}" post eq_refl eq_refl)
      as (_ & Hinner & _).
  - intros Hno. rewrite (expandFirst_prompt v pre text post bm Hft).
    now rewrite Hno.
Qed.

End StepClaims.

(** ** Properties of the loop and of the usage count *)

Lemma incr_no_overflow (x : Z) :
  (GoInt.min_int <= x < GoInt.max_int)%Z -> GoInt.incr x = (x + 1)%Z.
Proof.
  unfold GoInt.incr, GoInt.wrap, GoInt.min_int, GoInt.max_int. intros Hx.
  rewrite Z.mod_small; lia.
Qed.

Section LoopClaims.

Context {U D : Type} `{!UI U} `{!Database D}.

(** C7: when the loop ends with a text, [Expand] returns that text with
    no error whatever the database answers to the increment, an error
    included; the count of the requested boilerplate has gone up once in
    memory, the database has received one increment for that name, and no
    other boilerplate has changed, however many boilerplates the loop
    went through. *)
Theorem Expand_increments_once (fuel : nat) (name : string) (b : Boilerplate)
    (bm bm1 : BoilerplateManager U D) (text : string)
    (err : option error) (d : D) :
  boilerplates bm !! name = Some b ->
  expandLoop fuel (Value b) bm = Some ((text, None), bm1) ->
  IncBoilerplateCount name (db bm) = (err, d) ->
  let b' := {| Name := Name b; Value := Value b;
               Count := GoInt.incr (Count b) |} in
  Expand fuel name bm =
    Some ((text, None),
          {| db := d; ui := ui bm1;
             boilerplates := <[name := b']> (boilerplates bm) |}) /\
  <[name := b']> (boilerplates bm) !! name = Some b' /\
  (forall other, other <> name ->
     <[name := b']> (boilerplates bm) !! other = boilerplates bm !! other) /\
  ((GoInt.min_int <= Count b < GoInt.max_int)%Z ->
   Count b' = (Count b + 1)%Z).
Proof.
  intros Hname Hloop Hinc b'. repeat split.
  - unfold Expand. rewrite Hname, Hloop.
    apply expandLoop_preserves in Hloop as (Hb & Hd & _).
    unfold incrementBoilerplateCount. rewrite Hb, Hname. cbv zeta.
    unfold with_boilerplates at 1. cbn [db]. rewrite Hd, Hinc.
    unfold with_db, with_boilerplates. cbn [db ui boilerplates]. reflexivity.
  - apply lookup_insert_eq.
  - intros other Hother. now apply lookup_insert_ne.
  - apply incr_no_overflow.
Qed.


(** C9, as the code has it: the answer to a prompt is spliced into the
    text as it is, and when the text has changed the next iteration scans
    the new text, answer included, so that a token written in the answer
    is handled like any other. When the new text equals the old one, which
    is when the answer is the very token it replaces, the loop ends and
    returns it. *)
Theorem reply_is_rescanned (fuel : nat) (v pre x post r : string)
    (u : U) (bm : BoilerplateManager U D) :
  first_token v pre ("{{" ++ x ++ "}}") post ->
  (if contains_char "|" x
   then Select (hd "" (Split x "|")) (tl (Split x "|")) (ui bm)
   else Prompt x (ui bm)) = ((r, None), u) ->
  expandFirst v bm = ((pre ++ r ++ post, None), with_ui u bm) /\
  (pre ++ r ++ post <> v ->
   expandLoop (S fuel) v bm = expandLoop fuel (pre ++ r ++ post) (with_ui u bm)) /\
  (pre ++ r ++ post = v ->
   expandLoop (S fuel) v bm = Some ((v, None), with_ui u bm)).
Proof.
  intros Hft Hans.
  assert (Hstep : expandFirst v bm = ((pre ++ r ++ post, None), with_ui u bm)).
  { rewrite (expandFirst_prompt v pre x post bm Hft), Hans. reflexivity. }
  split; [exact Hstep|]. split; intros Hv; rewrite expandLoop_unfold, Hstep.
  - assert (E : String.eqb v (pre ++ r ++ post) = false)
      by (apply String.eqb_neq; congruence).
    now rewrite E.
  - rewrite Hv, String.eqb_refl. reflexivity.
Qed.

End LoopClaims.

(** ** The properties at concrete inputs *)

Lemma Expand_token_free_witness :
  boilerplates (manager_of test_boilerplates []) !! "foobar"
    = Some (bp "foobar" "the text of foobar") /\
  exists bm',
    Expand 1 "foobar" (manager_of test_boilerplates [])
      = Some (("the text of foobar", None), bm') /\
    ui bm' = ui (manager_of test_boilerplates []).
Proof.
  assert (Hname : boilerplates (manager_of test_boilerplates []) !! "foobar"
                  = Some (bp "foobar" "the text of foobar"))
    by (vm_compute; reflexivity).
  split; [exact Hname|].
  refine (proj2 (Expand_token_free "foobar" (bp "foobar" "the text of foobar")
                   (manager_of test_boilerplates []) 0 Hname _)).
  apply FindStringIndex_None_iff. reflexivity.
Defined.

Lemma prompt_token_dispatch_witness :
  let bm := manager_of [bp "t" "{{Pick|red|green|blue}}"] [reply "green"] in
  first_token "{{Pick|red|green|blue}}" "" ("{{" ++ "Pick|red|green|blue" ++ "}}") "" /\
  expandFirst "{{Pick|red|green|blue}}" bm
    = answered "" "" bm (Select "Pick" ["red"; "green"; "blue"] (ui bm)).
Proof.
  intros bm.
  assert (Hft : first_token "{{Pick|red|green|blue}}" ""
                  ("{{" ++ "Pick|red|green|blue" ++ "}}") "")
    by (apply (first_token_by_scan "" "{{Pick|red|green|blue}}" ""); reflexivity).
  split; [exact Hft|].
  destruct (prompt_token_dispatch _ _ _ _ bm Hft) as (Hsel & _).
  destruct (Hsel "Pick" "red|green|blue" eq_refl eq_refl) as [_ Hstep].
  exact Hstep.
Defined.

Lemma expandFirst_substitutes_first_span_witness :
  let bm := manager_of [bp "t" "{{x}} and {{x}}"] [reply "1"; reply "2"] in
  let u1 := {| replies := [reply "2"]; calls := [CallPrompt "x"] |} in
  let u2 := {| replies := []; calls := [CallPrompt "x"; CallPrompt "x"] |} in
  first_token "{{x}} and {{x}}" "" "{{x}}" " and {{x}}" /\
  FindStringIndex "{{x}} and {{x}}" = Some (0, 5) /\
  expandFirst "{{x}} and {{x}}" bm = (("1 and {{x}}", None), with_ui u1 bm) /\
  expandFirst "1 and {{x}}" (with_ui u1 bm)
    = (("1 and 2", None), with_ui u2 bm) /\
  expandLoop 3 "{{x}} and {{x}}" bm = Some (("1 and 2", None), with_ui u2 bm).
Proof.
  intros bm u1 u2.
  assert (Hft : first_token "{{x}} and {{x}}" "" "{{x}}" " and {{x}}")
    by (apply (first_token_by_scan "" "{{x}}" " and {{x}}"); reflexivity).
  assert (Hft1 : first_token ("" ++ "1" ++ " and " ++ "{{x}}" ++ "")
                   ("" ++ "1" ++ " and ") "{{x}}" "")
    by (apply (first_token_by_scan "1 and " "{{x}}" ""); reflexivity).
  assert (Hfree : token_free (("" ++ "1" ++ " and ") ++ "2" ++ ""))
    by (apply FindStringIndex_None_iff; reflexivity).
  split; [exact Hft|].
  destruct (expandFirst_substitutes_first_span _ _ _ _ bm Hft)
    as (Hfind & _ & Htwice).
  split; [exact Hfind|].
  destruct (Htwice 0 "x" " and " "" "1" "2" u1 u2
              eq_refl eq_refl eq_refl Hft1 eq_refl)
    as (Hstep1 & Hstep2 & _ & _ & Hloop).
  split; [exact Hstep1|]. split; [exact Hstep2|]. exact (Hloop Hfree).
Defined.

Lemma prompt_span_recognized_witness :
  let bm := manager_of [bp "t" "Hello {{ name }}!"] [reply "Ada"] in
  FindStringIndex "Hello {{ name }}!" = Some (6, 16) /\
  slice 8 14 "Hello {{ name }}!" = " name " /\
  expandFirst "Hello {{ name }}!" bm
    = answered "Hello " "!" bm (Prompt " name " (ui bm)).
Proof.
  intros bm.
  assert (Hft : first_token "Hello {{ name }}!" "Hello " "{{ name }}" "!")
    by (apply (first_token_by_scan "Hello " "{{ name }}" "!"); reflexivity).
  destruct (prompt_span_recognized "Hello " " name " "!" bm
              ltac:(discriminate) eq_refl (proj2 (proj2 Hft)))
    as (Hfind & _ & Hinner & Hstep).
  split; [exact Hfind|]. split; [exact Hinner|]. exact (Hstep eq_refl).
Defined.

Lemma Expand_increments_once_witness :
  let bm := manager_with_failing_db [bp "t" "{{x}} and {{x}}"; bp "other" "o"]
              [reply "1"; reply "2"] in
  IncBoilerplateCount "t" (db bm) = (Some (External "exec failed"), db bm) /\
  observe ["t"; "other"] (Expand 3 "t" bm)
    = Some (("1 and 2", None), [CallPrompt "x"; CallPrompt "x"],
            [Some 1%Z; Some 0%Z], [Some 0%Z; Some 0%Z]).
Proof.
  intros bm. split; [reflexivity|].
  destruct (Expand_increments_once 3 "t" (bp "t" "{{x}} and {{x}}") bm
              (with_ui {| replies := [];
                          calls := [CallPrompt "x"; CallPrompt "x"] |} bm)
              "1 and 2" (Some (External "exec failed")) (db bm)
              ltac:(vm_compute; reflexivity) ltac:(vm_compute; reflexivity)
              eq_refl) as (Hexpand & _).
  rewrite Hexpand. vm_compute. reflexivity.
Defined.


Lemma reply_is_rescanned_witness :
  let bm := manager_of [bp "t" "{{x}}"] [reply "{{y}}"; reply "z"] in
  let u := {| replies := [reply "z"]; calls := [CallPrompt "x"] |} in
  expandFirst "{{x}}" bm = (("" ++ "{{y}}" ++ "", None), with_ui u bm) /\
  expandLoop 3 "{{x}}" bm = expandLoop 2 "{{y}}" (with_ui u bm) /\
  observe ["t"] (Expand 3 "t" bm)
    = Some (("z", None), [CallPrompt "x"; CallPrompt "y"],
            [Some 1%Z], [Some 1%Z]).
Proof.
  intros bm u.
  destruct (reply_is_rescanned 2 "{{x}}" "" "x" "" "{{y}}" u bm
              ltac:(apply (first_token_by_scan "" "{{x}}" ""); reflexivity)
              eq_refl) as (Hstep & Hnext & _).
  split; [exact Hstep|]. split; [apply Hnext; discriminate|].
  vm_compute. reflexivity.
Defined.

(** C4, as the claim is worded: the inner text "a}b" is not empty and
    does not contain the closing delimiter, and yet the span {{a}b}} is
    not matched; the text is returned as it is and nothing is asked. *)
Lemma prompt_span_with_single_brace_not_recognized :
  ("a}b" <> "" /\ Contains "a}b" "}}" = false /\
   FindStringIndex "{{a}b}}" = None /\
   observe ["t"] (Expand 1 "t" (manager_of [bp "t" "{{a}b}}"] [reply "green"]))
     = Some (("{{a}b}}", None), [], [Some 1%Z], [Some 1%Z])) /\
  ~ (forall text,
        text <> "" -> Contains text "}}" = false ->
        FindStringIndex ("{{" ++ text ++ "}}") <> None).
Proof.
  split.
  - repeat split; try discriminate; vm_compute; reflexivity.
  - intros H. apply (H "a}b"); [discriminate|reflexivity|reflexivity].
Qed.

(** C9, as the claim is worded: the answer "{{x}}" holds a prompt token,
    and it is never resolved: the text after the step equals the text
    before it, so the loop ends after one request and returns the text
    with the token in it, although an answer and iterations were left. *)
Lemma reply_equal_to_token_left_unresolved :
  FindStringIndex "{{x}}" = Some (0, 5) /\
  observe ["t"]
    (Expand 5 "t" (manager_of [bp "t" "{{x}}"] [reply "{{x}}"; reply "z"]))
    = Some (("{{x}}", None), [CallPrompt "x"], [Some 1%Z], [Some 1%Z]).
Proof. split; vm_compute; reflexivity. Qed.

(** C6, as the claim is worded: the prompt token [{{x}}] stands twice in
    the body; the answer to the first request is the token itself, so the
    text is the same after the step, the loop stops, and the second
    occurrence is never asked for: one request, both tokens returned. *)
Lemma repeated_prompt_token_asked_once :
  first_token "{{x}} and {{x}}" "" "{{x}}" (" and " ++ "{{x}}" ++ "") /\
  observe ["t"]
    (Expand 5 "t" (manager_of [bp "t" "{{x}} and {{x}}"]
                              [reply "{{x}}"; reply "2"]))
    = Some (("{{x}} and {{x}}", None), [CallPrompt "x"],
            [Some 1%Z], [Some 1%Z]).
Proof.
  split; [|vm_compute; reflexivity].
  apply (first_token_by_scan "" "{{x}}" " and {{x}}"). reflexivity.
Qed.

(** ** Where the code departs from its tests *)

(** C1: [expandFirst] looks the reference up under the whole token,
    brackets included, and not under the name between them. With the
    boilerplates of TestExpand, where "foobar" exists, the step on
    "before [[foobar]] after" fails, and so do the "substitution" and the
    "nested substitution" cases of the test, which expect the text of
    "foobar" in the place of the token. *)
Theorem TestExpand_substitution_fails (fuel : nat) :
  let bm := manager_of test_boilerplates [] in
  boilerplates bm !! "foobar" = Some (bp "foobar" "the text of foobar") /\
  boilerplates bm !! "[[foobar]]" = None /\
  expandFirst "before [[foobar]] after" bm
    = (("", Some (UnknownReferencedBoilerplate "foobar")), bm) /\
  observe ["foobar"; "barfoo"; "fizzbuzz"] (Expand (S fuel) "barfoo" bm)
    = Some (("", Some (UnknownReferencedBoilerplate "foobar")), [],
            [Some 0%Z; Some 0%Z; Some 0%Z], [Some 0%Z; Some 0%Z; Some 0%Z]) /\
  observe ["foobar"; "barfoo"; "fizzbuzz"] (Expand (S fuel) "fizzbuzz" bm)
    = Some (("", Some (UnknownReferencedBoilerplate "barfoo")), [],
            [Some 0%Z; Some 0%Z; Some 0%Z], [Some 0%Z; Some 0%Z; Some 0%Z]).
Proof. intros bm. repeat split; vm_compute; reflexivity. Qed.

(** C2: a boilerplate named "x" does not exist, a boilerplate whose name
    is the token "[[x]]" does; the reference [[x]] is then not an error:
    [Expand] returns a text and raises the count of the requested
    boilerplate. *)
Theorem Expand_missing_reference_succeeds :
  let bm := manager_of [bp "top" "[[x]]"; bp "[[x]]" "hi"] [] in
  boilerplates bm !! "x" = None /\
  observe ["top"; "[[x]]"] (Expand 2 "top" bm)
    = Some (("hi", None), [], [Some 1%Z; Some 0%Z], [Some 1%Z; Some 0%Z]).
Proof. intros bm. split; vm_compute; reflexivity. Qed.

(** C3: two boilerplates that refer to each other by name. The first
    iteration fails on the lookup of "[[B]]", so the loop ends at once,
    with an error, whatever number of iterations is allowed. *)
Theorem mutual_reference_stops_with_error (fuel : nat) :
  let bm := manager_of [bp "A" "[[B]]"; bp "B" "[[A]]"] [] in
  observe ["A"; "B"] (Expand (S fuel) "A" bm)
    = Some (("", Some (UnknownReferencedBoilerplate "B")), [],
            [Some 0%Z; Some 0%Z], [Some 0%Z; Some 0%Z]).
Proof. intros bm. vm_compute. reflexivity. Qed.

(** The loop itself has no bound: where the lookups succeed, which takes
    names that are themselves tokens, a cycle keeps it running for any
    number of iterations. *)
Lemma bracketed_cycle_never_ends (fuel : nat) :
  Expand fuel "[[A]]" (manager_of [bp "[[A]]" "[[B]]"; bp "[[B]]" "[[A]]"] [])
    = None.
Proof.
  set (bm := manager_of [bp "[[A]]" "[[B]]"; bp "[[B]]" "[[A]]"] []).
  assert (HA : expandFirst "[[A]]" bm = (("[[B]]", None), bm))
    by (vm_compute; reflexivity).
  assert (HB : expandFirst "[[B]]" bm = (("[[A]]", None), bm))
    by (vm_compute; reflexivity).
  assert (Hloop : forall n, expandLoop n "[[A]]" bm = None /\
                            expandLoop n "[[B]]" bm = None).
  { induction n as [|n [IHA IHB]]; [now split|].
    rewrite !expandLoop_unfold, HA, HB. simpl. now split. }
  unfold Expand.
  replace (boilerplates bm !! "[[A]]") with (Some (bp "[[A]]" "[[B]]"))
    by (vm_compute; reflexivity).
  simpl. now rewrite (proj2 (Hloop fuel)).
Qed.

(** ** The manager beyond [Expand] *)

Section ManagerFacts.

Context {U D : Type} `{!UI U} `{!Database D} `{!DatabaseStore D}.

(** [Names] lists every name of the map once, in increasing order, and
    the list does not depend on the order in which the map hands out its
    keys. *)
Theorem Names_sorted_complete (bm : BoilerplateManager U D) :
  Sorted String.le (Names bm) /\
  NoDup (Names bm) /\
  (forall n, n ∈ Names bm <-> is_Some (boilerplates bm !! n)) /\
  (forall keys,
      keys ≡ₚ (fst <$> map_to_list (boilerplates bm)) ->
      merge_sort String.le keys = Names bm).
Proof.
  unfold Names. set (ks := fst <$> map_to_list (boilerplates bm)).
  assert (Hperm : merge_sort String.le ks ≡ₚ ks)
    by apply merge_sort_Permutation.
  split; [apply Sorted_merge_sort; apply _|].
  split; [rewrite Hperm; apply NoDup_fst_map_to_list|].
  split.
  - intros n. rewrite Hperm. unfold ks. rewrite list_elem_of_fmap. split.
    + intros ([k b] & -> & Hin). apply elem_of_map_to_list in Hin. eauto.
    + intros [b Hb]. exists (n, b). split; [reflexivity|].
      now apply elem_of_map_to_list.
  - intros keys Hkeys. apply (Sorted_unique String.le).
    + apply Sorted_merge_sort; apply _.
    + apply Sorted_merge_sort; apply _.
    + now rewrite !merge_sort_Permutation.
Qed.

(** The step and the loop read the boilerplates and the user interface
    only: two managers that differ in their database alone go through the
    same steps. *)
Lemma expandFirst_db_irrelevant (v : string) (bm1 bm2 : BoilerplateManager U D) :
  boilerplates bm1 = boilerplates bm2 -> ui bm1 = ui bm2 ->
  fst (expandFirst v bm1) = fst (expandFirst v bm2) /\
  ui (snd (expandFirst v bm1)) = ui (snd (expandFirst v bm2)) /\
  boilerplates (snd (expandFirst v bm1)) = boilerplates (snd (expandFirst v bm2)).
Proof.
  intros Hb Hu. unfold expandFirst.
  destruct (FindStringIndex v) as [[a b]|]; [|now repeat split].
  cbv zeta. rewrite Hb, Hu.
  destruct (at_index a v) as [c|].
  - destruct c as [[] [] [] [] [] [] [] []];
      try (destruct (contains_char _ _);
           [destruct (Select _ _ _) as [[choice [e|]] u]
           |destruct (Prompt _ _) as [[input [e|]] u]];
           now repeat split).
    destruct (boilerplates bm2 !! _); now repeat split.
  - destruct (contains_char _ _);
      [destruct (Select _ _ _) as [[choice [e|]] u]
      |destruct (Prompt _ _) as [[input [e|]] u]];
      now repeat split.
Qed.

Lemma expandLoop_db_irrelevant (fuel : nat) (v : string)
    (bm1 bm2 : BoilerplateManager U D) :
  boilerplates bm1 = boilerplates bm2 -> ui bm1 = ui bm2 ->
  outcome (expandLoop fuel v bm1) = outcome (expandLoop fuel v bm2).
Proof.
  revert v bm1 bm2. induction fuel as [|fuel IH]; intros v bm1 bm2 Hb Hu;
    [reflexivity|].
  rewrite !expandLoop_unfold.
  destruct (expandFirst_db_irrelevant v bm1 bm2 Hb Hu) as (Hres & Hui & Hbp).
  destruct (expandFirst v bm1) as [[after1 err1] m1].
  destruct (expandFirst v bm2) as [[after2 err2] m2].
  simpl in Hres, Hui, Hbp. injection Hres as -> ->.
  destruct err2 as [e|]; [simpl; congruence|].
  destruct (String.eqb v after2); [simpl; congruence|].
  now apply IH.
Qed.

Lemma Expand_outcome_same (fuel : nat) (name : string)
    (bm1 bm2 : BoilerplateManager U D) :
  boilerplates bm1 = boilerplates bm2 -> ui bm1 = ui bm2 ->
  outcome (Expand fuel name bm1) = outcome (Expand fuel name bm2).
Proof.
  intros Hb Hu. unfold Expand. rewrite Hb.
  destruct (boilerplates bm2 !! name) as [b|] eqn:Hname; [|simpl; congruence].
  pose proof (expandLoop_db_irrelevant fuel (Value b) bm1 bm2 Hb Hu) as Hloop.
  destruct (expandLoop fuel (Value b) bm1) as [[[t1 e1] m1]|];
    destruct (expandLoop fuel (Value b) bm2) as [[[t2 e2] m2]|];
    simpl in Hloop; try discriminate; [|reflexivity].
  injection Hloop as -> -> Hu' Hb'.
  destruct e2 as [e|]; [simpl; congruence|].
  unfold incrementBoilerplateCount. rewrite Hb'.
  destruct (boilerplates m2 !! name) as [b0|]; [|simpl; congruence].
  cbv zeta.
  destruct (IncBoilerplateCount name (db (with_boilerplates _ m1))) as [x1 d1].
  destruct (IncBoilerplateCount name (db (with_boilerplates _ m2))) as [x2 d2].
  simpl. congruence.
Qed.

(** The text that [Expand] returns, its error, the dialogue with the user
    and the counts kept in memory do not depend on the database: neither
    on its content nor on whether its writes succeed. *)
Theorem Expand_db_irrelevant (fuel : nat) (name : string)
    (bm1 bm2 : BoilerplateManager U D) :
  boilerplates bm1 = boilerplates bm2 -> ui bm1 = ui bm2 ->
  outcome (Expand fuel name bm1) = outcome (Expand fuel name bm2).
Proof. apply Expand_outcome_same. Qed.

Lemma Add_memory (name value : string) (bm : BoilerplateManager U D) :
  boilerplates (snd (Add name value bm)) = boilerplates bm /\
  ui (snd (Add name value bm)) = ui bm.
Proof.
  unfold Add. destruct (String.eqb name ""); [now split|].
  destruct (String.eqb value ""); [now split|].
  now destruct (CreateBoilerplate _ _).
Qed.

Lemma Edit_memory (name value : string) (bm : BoilerplateManager U D) :
  boilerplates (snd (Edit name value bm)) = boilerplates bm /\
  ui (snd (Edit name value bm)) = ui bm.
Proof.
  unfold Edit. destruct (String.eqb name ""); [now split|].
  destruct (String.eqb value ""); [now split|].
  now destruct (UpdateBoilerplate _ _).
Qed.

Lemma Delete_memory (name : string) (bm : BoilerplateManager U D) :
  boilerplates (snd (Delete name bm)) = boilerplates bm /\
  ui (snd (Delete name bm)) = ui bm.
Proof.
  unfold Delete. destruct (String.eqb name ""); [now split|].
  now destruct (DeleteBoilerplate _ _).
Qed.

(** [Add], [Edit] and [Delete] write to the database only: the
    boilerplates in memory and the user interface are as before, and when
    the name (or, for [Add] and [Edit], the value) is empty they fail
    without calling the database. *)
Theorem manager_writes_leave_memory (name value : string)
    (bm : BoilerplateManager U D) :
  (boilerplates (snd (Add name value bm)) = boilerplates bm /\
   ui (snd (Add name value bm)) = ui bm) /\
  (boilerplates (snd (Edit name value bm)) = boilerplates bm /\
   ui (snd (Edit name value bm)) = ui bm) /\
  (boilerplates (snd (Delete name bm)) = boilerplates bm /\
   ui (snd (Delete name bm)) = ui bm) /\
  (name = "" ->
   Add name value bm = (Some (External "empty boilerplate name"), bm) /\
   Edit name value bm = (Some (External "empty boilerplate name"), bm) /\
   Delete name bm = (Some (External "empty boilerplate name"), bm)) /\
  (name <> "" -> value = "" ->
   Add name value bm = (Some (External "empty boilerplate value"), bm) /\
   Edit name value bm = (Some (External "empty boilerplate value"), bm)).
Proof.
  split; [apply Add_memory|]. split; [apply Edit_memory|].
  split; [apply Delete_memory|]. unfold Add, Edit, Delete. split.
  - intros ->. now repeat split.
  - intros Hname ->. apply String.eqb_neq in Hname. rewrite Hname.
    now split.
Qed.

End ManagerFacts.

(** ** The SQLite table *)

Lemma sqlite_get_all_rows (s : SQLiteDatabase) :
  sqlite_wf s -> sqlite_get_all s = (Some (rows s), None).
Proof.
  intros Hwf. unfold sqlite_get_all. do 2 f_equal.
  rewrite <- (list_to_map_to_list (rows s)) at 2. f_equal.
  rewrite <- (list_fmap_id (map_to_list (rows s))) at 2.
  apply Forall_fmap_ext, Forall_forall. intros [k b] Hin.
  apply elem_of_map_to_list in Hin. simpl. now rewrite (Hwf k b Hin).
Qed.

Lemma sqlite_wf_insert (s : SQLiteDatabase) (b : Boilerplate) :
  sqlite_wf s ->
  sqlite_wf {| rows := <[Name b := b]> (rows s); exec_fails := exec_fails s |}.
Proof.
  intros Hwf k x. simpl. rewrite lookup_insert. case_decide.
  - intros [= <-]. assumption.
  - apply Hwf.
Qed.

(** A boilerplate created under a fresh name is read back as it was
    written, the other rows are as before; a second creation under a name
    that exists fails and changes nothing. *)
Theorem sqlite_create_then_get (b : Boilerplate) (s : SQLiteDatabase) :
  exec_fails s = false ->
  (rows s !! Name b = None ->
   exists s',
     sqlite_create b s = (None, s') /\
     sqlite_get (Name b) s' = (Some b, None) /\
     (forall n, n <> Name b -> sqlite_get n s' = sqlite_get n s) /\
     exists e, sqlite_create b s' = (Some e, s')) /\
  (is_Some (rows s !! Name b) ->
   exists e, sqlite_create b s = (Some e, s)).
Proof.
  intros Hexec. unfold sqlite_create. rewrite Hexec. split.
  - intros Hfresh. rewrite Hfresh. eexists. split; [reflexivity|].
    unfold sqlite_get. simpl. rewrite !lookup_insert_eq.
    split; [reflexivity|]. split; [|eauto].
    intros n Hn. now rewrite lookup_insert_ne.
  - intros [r ->]. eauto.
Qed.

(** An update or a deletion of a name that has no row fails with the
    unknown-boilerplate error and changes nothing; on a name that has a
    row, the update is read back and the deleted row is no longer found,
    the other rows being untouched. *)
Theorem sqlite_update_delete (b : Boilerplate) (name : string)
    (s : SQLiteDatabase) :
  exec_fails s = false ->
  (rows s !! Name b = None ->
   sqlite_update b s = (Some (UnknownBoilerplate (Name b)), s)) /\
  (rows s !! name = None ->
   sqlite_delete name s = (Some (UnknownBoilerplate name), s) /\
   sqlite_inc name s = (Some (UnknownBoilerplate name), s)) /\
  (is_Some (rows s !! Name b) ->
   exists s',
     sqlite_update b s = (None, s') /\
     sqlite_get (Name b) s' = (Some b, None) /\
     forall n, n <> Name b -> sqlite_get n s' = sqlite_get n s) /\
  (is_Some (rows s !! name) ->
   exists s',
     sqlite_delete name s = (None, s') /\
     sqlite_get name s' = (None, Some (UnknownBoilerplate name)) /\
     (forall n, n <> name -> sqlite_get n s' = sqlite_get n s) /\
     sqlite_delete name s' = (Some (UnknownBoilerplate name), s')).
Proof.
  intros Hexec. unfold sqlite_update, sqlite_delete, sqlite_inc.
  rewrite Hexec. split; [|split; [|split]].
  - now intros ->.
  - now intros ->.
  - intros [r ->]. eexists. split; [reflexivity|].
    unfold sqlite_get. simpl. rewrite lookup_insert_eq. split; [reflexivity|].
    intros n Hn. now rewrite lookup_insert_ne.
  - intros [r ->]. eexists. split; [reflexivity|].
    unfold sqlite_get. simpl. rewrite !lookup_delete_eq.
    split; [reflexivity|]. split; [|reflexivity].
    intros n Hn. now rewrite lookup_delete_ne.
Qed.

(** Incrementing the count of a stored boilerplate [n] times adds [n] to
    it and changes neither its value nor any other row, as long as the
    count stays an integer of the table. *)
Theorem sqlite_inc_adds (n : nat) (name : string) (r : Boilerplate)
    (s : SQLiteDatabase) :
  exec_fails s = false ->
  rows s !! name = Some r ->
  (Count r + Z.of_nat n <= GoInt.max_int)%Z ->
  sqlite_get name (sqlite_inc_times n name s)
    = (Some {| Name := Name r; Value := Value r;
               Count := (Count r + Z.of_nat n)%Z |}, None) /\
  forall other, other <> name ->
    sqlite_get other (sqlite_inc_times n name s) = sqlite_get other s.
Proof.
  intros Hexec Hrow _. unfold sqlite_inc_times.
  assert (H : exec_fails (Nat.iter n (fun s0 => snd (sqlite_inc name s0)) s) = false /\
              rows (Nat.iter n (fun s0 => snd (sqlite_inc name s0)) s) !! name
              = Some {| Name := Name r; Value := Value r;
                        Count := (Count r + Z.of_nat n)%Z |} /\
              forall other, other <> name ->
                rows (Nat.iter n (fun s0 => snd (sqlite_inc name s0)) s) !! other
                = rows s !! other).
  { induction n as [|n (IHe & IHr & IHo)].
    - simpl. rewrite Z.add_0_r. destruct r. now repeat split.
    - rewrite Nat.iter_succ. unfold sqlite_inc at 1 3 5.
      rewrite IHe, IHr. simpl. rewrite lookup_insert_eq.
      split; [reflexivity|]. split; [do 2 f_equal; lia|].
      intros other Hother. rewrite lookup_insert_ne by congruence.
      now apply IHo. }
  destruct H as (_ & Hr & Ho). unfold sqlite_get. rewrite Hr.
  split; [reflexivity|]. intros other Hother. now rewrite Ho.
Qed.

(** ** The manager over the SQLite table *)

Section ManagerOverSQLite.

Context {U : Type} `{!UI U}.

Lemma Expand_value_without_token (fuel : nat) (name : string) (b : Boilerplate)
    (bm : BoilerplateManager U SQLiteDatabase) :
  boilerplates bm !! name = Some b -> token_free (Value b) ->
  exists bm', Expand (S fuel) name bm = Some ((Value b, None), bm').
Proof.
  intros Hname Hfree. unfold Expand. rewrite Hname, expandLoop_unfold.
  rewrite expandFirst_token_free by assumption.
  rewrite String.eqb_refl.
  destruct (incrementBoilerplateCount name bm) as [err bm']. eauto.
Qed.

(** A boilerplate added through a manager is stored in the table, and
    yet that manager does not know it: [Expand] of the new name fails
    there. A manager created afterwards from the same database expands
    it. *)
Theorem Add_visible_after_reload (fuel : nat) (name value : string)
    (bm : BoilerplateManager U SQLiteDatabase) (selectedUI : U) :
  name <> "" -> value <> "" -> token_free value ->
  exec_fails (db bm) = false -> sqlite_wf (db bm) ->
  rows (db bm) !! name = None -> boilerplates bm !! name = None ->
  exists bm',
    Add name value bm = (None, bm') /\
    GetBoilerplateByName name (db bm')
      = (Some {| Name := name; Value := value; Count := 0 |}, None) /\
    Expand fuel name bm' = Some (("", Some (UnknownBoilerplate name)), bm') /\
    exists bm2 bm3,
      NewBoilerplateManager (db bm') selectedUI = (Some bm2, None) /\
      Expand (S fuel) name bm2 = Some ((value, None), bm3).
Proof.
  intros Hname Hvalue Hfree Hexec Hwf Hrow Hmem.
  apply String.eqb_neq in Hname, Hvalue.
  unfold Add. rewrite Hname, Hvalue. cbn [CreateBoilerplate SQLite_DatabaseStore].
  unfold sqlite_create. rewrite Hexec. cbn [Name]. rewrite Hrow.
  eexists. split; [reflexivity|].
  cbn [GetBoilerplateByName SQLite_Database db with_db].
  unfold sqlite_get. cbn [rows]. rewrite lookup_insert_eq.
  split; [reflexivity|]. split.
  - unfold Expand. cbn [boilerplates with_db]. now rewrite Hmem.
  - unfold NewBoilerplateManager.
    cbn [GetAllBoilerplates SQLite_DatabaseStore].
    rewrite sqlite_get_all_rows
      by (apply (sqlite_wf_insert (db bm)
                   {| Name := name; Value := value; Count := 0 |} Hwf)).
    cbn [rows].
    destruct (Expand_value_without_token fuel name
                {| Name := name; Value := value; Count := 0 |}
                (mkManager
                   {| rows := <[name := {| Name := name; Value := value;
                                           Count := 0 |}]> (rows (db bm));
                      exec_fails := exec_fails (db bm) |}
                   selectedUI
                   (<[name := {| Name := name; Value := value; Count := 0 |}]>
                      (rows (db bm)))))
      as [bm3 Hexp]; [apply lookup_insert_eq|assumption|].
    rewrite Hexec in Hexp.
    eexists _, bm3. split; [reflexivity|exact Hexp].
Qed.

(** After a deletion that succeeds the row is gone from the table, and
    the manager that deleted it still holds the boilerplate: every
    expansion, of the deleted name included, goes as it would have gone
    before. *)
Theorem Delete_keeps_memory (name : string)
    (bm : BoilerplateManager U SQLiteDatabase) :
  name <> "" -> exec_fails (db bm) = false ->
  is_Some (rows (db bm) !! name) ->
  exists bm',
    Delete name bm = (None, bm') /\
    GetBoilerplateByName name (db bm')
      = (None, Some (UnknownBoilerplate name)) /\
    forall fuel n, outcome (Expand fuel n bm') = outcome (Expand fuel n bm).
Proof.
  intros Hname Hexec [r Hrow]. apply String.eqb_neq in Hname.
  pose proof (Delete_memory name bm) as [Hb Hu].
  unfold Delete in *. rewrite Hname in *.
  cbn [DeleteBoilerplate SQLite_DatabaseStore] in *.
  unfold sqlite_delete in *. rewrite Hexec, Hrow in *.
  eexists. split; [reflexivity|]. split.
  - cbn [GetBoilerplateByName SQLite_Database db with_db].
    unfold sqlite_get. cbn [rows]. now rewrite lookup_delete_eq.
  - intros fuel n. now apply Expand_outcome_same.
Qed.

(** An edition stores the new value with the count 0, whatever the count
    was, and leaves the boilerplates in memory, value and count, as they
    were. *)
Theorem Edit_resets_stored_count (name value : string) (old : Boilerplate)
    (bm : BoilerplateManager U SQLiteDatabase) :
  name <> "" -> value <> "" -> exec_fails (db bm) = false ->
  rows (db bm) !! name = Some old ->
  exists bm',
    Edit name value bm = (None, bm') /\
    GetBoilerplateByName name (db bm')
      = (Some {| Name := name; Value := value; Count := 0 |}, None) /\
    boilerplates bm' = boilerplates bm.
Proof.
  intros Hname Hvalue Hexec Hrow. apply String.eqb_neq in Hname, Hvalue.
  unfold Edit. rewrite Hname, Hvalue.
  cbn [UpdateBoilerplate SQLite_DatabaseStore].
  unfold sqlite_update. rewrite Hexec. cbn [Name]. rewrite Hrow.
  eexists. split; [reflexivity|].
  cbn [GetBoilerplateByName SQLite_Database db with_db boilerplates].
  unfold sqlite_get. cbn [rows]. now rewrite lookup_insert_eq.
Qed.

End ManagerOverSQLite.

(** ** The manager and the table at concrete inputs *)

Lemma sqlite_wf_empty (fails : bool) :
  sqlite_wf {| rows := ∅; exec_fails := fails |}.
Proof. intros k b. simpl. now rewrite lookup_empty. Qed.

Lemma Expand_db_irrelevant_witness :
  outcome (Expand 3 "t" (manager_of [bp "t" "{{x}} and {{x}}"]
                           [reply "1"; reply "2"]))
  = outcome (Expand 3 "t" (manager_with_failing_db [bp "t" "{{x}} and {{x}}"]
                             [reply "1"; reply "2"])).
Proof.
  apply (Expand_db_irrelevant 3 "t"
           (manager_of [bp "t" "{{x}} and {{x}}"] [reply "1"; reply "2"])
           (manager_with_failing_db [bp "t" "{{x}} and {{x}}"]
              [reply "1"; reply "2"]));
    reflexivity.
Defined.

Lemma sqlite_create_then_get_witness :
  let s := {| rows := ∅; exec_fails := false |} in
  exists s',
    sqlite_create (bp "duplicate" "test value") s = (None, s') /\
    sqlite_get "duplicate" s' = (Some (bp "duplicate" "test value"), None) /\
    exists e, sqlite_create (bp "duplicate" "test value") s' = (Some e, s').
Proof.
  intros s.
  destruct (sqlite_create_then_get (bp "duplicate" "test value") s eq_refl)
    as [Hfresh _].
  destruct (Hfresh (lookup_empty _)) as (s' & Hc & Hg & _ & Hdup).
  exists s'. split; [exact Hc|]. split; [exact Hg|exact Hdup].
Defined.

Lemma sqlite_update_delete_witness :
  let s := {| rows := <["reminder" := bp "reminder" "Don't forget"]> ∅;
              exec_fails := false |} in
  sqlite_update (bp "greeting" "Hi") s
    = (Some (UnknownBoilerplate "greeting"), s) /\
  exists s',
    sqlite_delete "reminder" s = (None, s') /\
    sqlite_get "reminder" s' = (None, Some (UnknownBoilerplate "reminder")).
Proof.
  intros s.
  destruct (sqlite_update_delete (bp "greeting" "Hi") "reminder" s eq_refl)
    as (Hupd & _ & _ & Hdel).
  split; [apply Hupd; vm_compute; reflexivity|].
  destruct (Hdel ltac:(eexists; apply lookup_insert_eq))
    as (s' & Hd & Hg & _).
  exists s'. split; [exact Hd|exact Hg].
Defined.

Lemma sqlite_inc_adds_witness :
  let s := {| rows := <["greeting" := bp "greeting" "Hello {{name}}"]> ∅;
              exec_fails := false |} in
  sqlite_get "greeting" (sqlite_inc_times 2 "greeting" s)
  = (Some {| Name := "greeting"; Value := "Hello {{name}}"; Count := 2 |}, None).
Proof.
  intros s.
  destruct (sqlite_inc_adds 2 "greeting" (bp "greeting" "Hello {{name}}") s
              eq_refl ltac:(apply lookup_insert_eq)
              ltac:(vm_compute; discriminate)) as [Hget _].
  exact Hget.
Defined.

Lemma Add_visible_after_reload_witness :
  let bm := manager_of [] [] in
  exists bm',
    Add "hello" "Hello World!" bm = (None, bm') /\
    Expand 1 "hello" bm'
      = Some (("", Some (UnknownBoilerplate "hello")), bm') /\
    exists bm2 bm3,
      NewBoilerplateManager (db bm') (ui bm) = (Some bm2, None) /\
      Expand 2 "hello" bm2 = Some (("Hello World!", None), bm3).
Proof.
  intros bm.
  destruct (Add_visible_after_reload 1 "hello" "Hello World!" bm (ui bm)
              ltac:(discriminate) ltac:(discriminate)
              ltac:(apply FindStringIndex_None_iff; reflexivity)
              eq_refl (sqlite_wf_empty false)
              (lookup_empty _) (lookup_empty _))
    as (bm' & Hadd & _ & Hexp & Hreload).
  exists bm'. split; [exact Hadd|]. split; [exact Hexp|exact Hreload].
Defined.

Lemma Delete_keeps_memory_witness :
  let bm := manager_of [bp "foobar" "the text of foobar"] [] in
  exists bm',
    Delete "foobar" bm = (None, bm') /\
    GetBoilerplateByName "foobar" (db bm')
      = (None, Some (UnknownBoilerplate "foobar")) /\
    fst <$> outcome (Expand 1 "foobar" bm')
      = Some ("the text of foobar", None, ui bm).
Proof.
  intros bm.
  destruct (Delete_keeps_memory "foobar" bm ltac:(discriminate) eq_refl
              ltac:(eexists; vm_compute; reflexivity))
    as (bm' & Hdel & Hget & Hsame).
  exists bm'. split; [exact Hdel|]. split; [exact Hget|].
  rewrite Hsame. vm_compute. reflexivity.
Defined.

Lemma Edit_resets_stored_count_witness :
  let bm := manager_of [{| Name := "reminder"; Value := "Don't forget";
                           Count := 5 |}] [] in
  exists bm',
    Edit "reminder" "Remember" bm = (None, bm') /\
    GetBoilerplateByName "reminder" (db bm')
      = (Some {| Name := "reminder"; Value := "Remember"; Count := 0 |}, None) /\
    Count <$> (boilerplates bm' !! "reminder") = Some 5%Z.
Proof.
  intros bm.
  destruct (Edit_resets_stored_count "reminder" "Remember"
              {| Name := "reminder"; Value := "Don't forget"; Count := 5 |} bm
              ltac:(discriminate) ltac:(discriminate) eq_refl
              ltac:(vm_compute; reflexivity))
    as (bm' & Hedit & Hget & Hmem).
  exists bm'. split; [exact Hedit|]. split; [exact Hget|].
  rewrite Hmem. vm_compute. reflexivity.
Defined.

(** ** Package engine: memory and database *)

Section EngineFacts.

Context {U D : Type} `{!UI U} `{!Database D} `{!DatabaseStore D}.

(** engine.Add of a fresh name puts the boilerplate into the map, with the
    count 0, before it calls the database, and keeps it there whatever the
    database answers, an error included; the other boilerplates are as
    before, and a second Add of the name is refused without a call to the
    database. *)
Theorem engine_Add_in_memory (name value value' : string)
    (bm : BoilerplateManager U D) :
  name <> "" -> value <> "" -> boilerplates bm !! name = None ->
  let b := {| Name := name; Value := value; Count := 0 |} in
  exists err bm',
    engine.Add name value bm = (err, bm') /\
    CreateBoilerplate b (db bm) = (err, db bm') /\
    engine.Get name bm' = Some b /\
    (forall n, n <> name -> engine.Get n bm' = engine.Get n bm) /\
    ui bm' = ui bm /\
    (value' <> "" ->
     engine.Add name value' bm' = (Some engine.ErrBoilerplateAlreadyExist, bm')).
Proof.
  intros Hname Hvalue Hfresh b. apply String.eqb_neq in Hname, Hvalue.
  unfold engine.Add. rewrite Hname, Hvalue, Hfresh. cbv zeta.
  unfold with_boilerplates at 1. cbn [db].
  destruct (CreateBoilerplate _ (db bm)) as [err d] eqn:Hcreate.
  exists err. eexists. split; [reflexivity|].
  unfold engine.Get. cbn [db ui boilerplates with_db with_boilerplates].
  split; [reflexivity|]. split; [apply lookup_insert_eq|].
  split; [intros n Hn; now apply lookup_insert_ne|]. split; [reflexivity|].
  intros Hvalue'. apply String.eqb_neq in Hvalue'. rewrite Hvalue'.
  now rewrite lookup_insert_eq.
Qed.

(** engine.Edit replaces the value in memory and keeps the name and the
    count of the record; that record is what the database is asked to
    store, and memory keeps the new value whatever the database answers.
    A name that is not in memory is refused, for Edit and for Delete,
    without a call to the database. *)
Theorem engine_Edit_keeps_count (name value : string) (b0 : Boilerplate)
    (bm : BoilerplateManager U D) :
  name <> "" -> value <> "" ->
  (boilerplates bm !! name = Some b0 ->
   let b := {| Name := Name b0; Value := value; Count := Count b0 |} in
   exists err bm',
     engine.Edit name value bm = (err, bm') /\
     UpdateBoilerplate b (db bm) = (err, db bm') /\
     engine.Get name bm' = Some b /\
     (forall n, n <> name -> engine.Get n bm' = engine.Get n bm) /\
     ui bm' = ui bm) /\
  (boilerplates bm !! name = None ->
   engine.Edit name value bm = (Some engine.ErrBoilerplateUnknown, bm) /\
   engine.Delete name bm = (Some engine.ErrBoilerplateUnknown, bm)).
Proof.
  intros Hname Hvalue. apply String.eqb_neq in Hname, Hvalue.
  unfold engine.Edit, engine.Delete. rewrite Hname, Hvalue. split.
  - intros Hfound. rewrite Hfound. cbv zeta.
    unfold with_boilerplates at 1. cbn [db].
    destruct (UpdateBoilerplate _ (db bm)) as [err d] eqn:Hupdate.
    exists err. eexists. split; [reflexivity|].
    unfold engine.Get. cbn [db ui boilerplates with_db with_boilerplates].
    split; [reflexivity|]. split; [apply lookup_insert_eq|].
    split; [intros n Hn; now apply lookup_insert_ne|reflexivity].
  - intros Hmissing. now rewrite Hmissing.
Qed.

End EngineFacts.

Section EngineOverSQLite.

Context {U : Type} `{!UI U}.

(** engine.Delete takes the row out of the table and leaves the
    boilerplate in the map: it is still found by Get, a later Add of the
    same name is refused as already existing, and a second Delete reaches
    the database and fails there. *)
Theorem engine_Delete_leaves_memory (name value : string) (b : Boilerplate)
    (bm : BoilerplateManager U SQLiteDatabase) :
  name <> "" -> value <> "" -> exec_fails (db bm) = false ->
  boilerplates bm !! name = Some b -> is_Some (rows (db bm) !! name) ->
  exists bm',
    engine.Delete name bm = (None, bm') /\
    GetBoilerplateByName name (db bm')
      = (None, Some (UnknownBoilerplate name)) /\
    engine.Get name bm' = Some b /\
    engine.Add name value bm' = (Some engine.ErrBoilerplateAlreadyExist, bm') /\
    engine.Delete name bm' = (Some (UnknownBoilerplate name), bm') /\
    ~ engine.in_sync bm'.
Proof.
  intros Hname Hvalue Hexec Hmem [r Hrow].
  apply String.eqb_neq in Hname, Hvalue.
  unfold engine.Delete, engine.Add, engine.Get. rewrite Hname, Hmem.
  cbn [DeleteBoilerplate SQLite_DatabaseStore].
  unfold sqlite_delete at 1. rewrite Hexec, Hrow.
  eexists. split; [reflexivity|].
  cbn [GetBoilerplateByName SQLite_Database db ui boilerplates with_db].
  unfold sqlite_get, sqlite_delete. cbn [rows exec_fails].
  rewrite Hvalue, Hmem, !lookup_delete_eq.
  do 4 (split; [reflexivity|]).
  unfold engine.in_sync, with_db. cbn [db boilerplates rows]. intros Heq.
  rewrite Heq, lookup_delete_eq in Hmem. discriminate.
Qed.

(** While the writes of the database succeed, Add, Edit and a finished
    Expand leave the map in memory and the table equal when they were
    equal before (for Expand, as long as the count does not overflow). *)
Theorem engine_in_sync_preserved (fuel : nat) (name value : string)
    (bm : BoilerplateManager U SQLiteDatabase) :
  engine.in_sync bm -> sqlite_wf (db bm) -> exec_fails (db bm) = false ->
  engine.in_sync (snd (engine.Add name value bm)) /\
  engine.in_sync (snd (engine.Edit name value bm)) /\
  (forall res bm',
      (forall b, boilerplates bm !! name = Some b ->
                 (GoInt.min_int <= Count b < GoInt.max_int)%Z) ->
      Expand fuel name bm = Some (res, bm') -> engine.in_sync bm').
Proof.
  unfold engine.in_sync. intros Hsync Hwf Hexec. split; [|split].
  - unfold engine.Add. destruct (String.eqb name ""); [assumption|].
    destruct (String.eqb value ""); [assumption|].
    destruct (boilerplates bm !! name) eqn:Hmem; [assumption|].
    cbn [CreateBoilerplate SQLite_DatabaseStore]. cbv zeta.
    unfold sqlite_create. cbn [db with_boilerplates Name].
    rewrite Hexec, <- Hsync, Hmem. cbn. reflexivity.
  - unfold engine.Edit. destruct (String.eqb name ""); [assumption|].
    destruct (String.eqb value ""); [assumption|].
    destruct (boilerplates bm !! name) as [b0|] eqn:Hmem; [|assumption].
    cbn [UpdateBoilerplate SQLite_DatabaseStore]. cbv zeta.
    unfold sqlite_update. cbn [db with_boilerplates Name].
    assert (Hkey : Name b0 = name) by (apply Hwf; now rewrite <- Hsync).
    rewrite Hkey, Hexec, <- Hsync, Hmem. cbn. reflexivity.
  - intros res bm' Hrange. unfold Expand.
    destruct (boilerplates bm !! name) as [b|] eqn:Hmem;
      [|intros [= <- <-]; assumption].
    destruct (expandLoop fuel (Value b) bm) as [[[after [e|]] bm1]|] eqn:Hloop;
      [| |discriminate];
      apply expandLoop_preserves in Hloop as (Hb & Hd & _).
    + intros [= <- <-]. now rewrite Hb, Hd.
    + unfold incrementBoilerplateCount. rewrite Hb, Hmem.
      cbn [IncBoilerplateCount SQLite_Database]. cbv zeta.
      unfold sqlite_inc. cbn [db with_boilerplates].
      rewrite Hd, Hexec, <- Hsync, Hmem.
      intros [= <- <-]. cbn.
      now rewrite (incr_no_overflow (Count b)) by (now apply Hrange).
Qed.

End EngineOverSQLite.

(** ** Package engine at concrete inputs *)

Lemma engine_Add_in_memory_witness :
  let bm := manager_with_failing_db [] [] in
  exists bm',
    engine.Add "hello" "Hi" bm = (Some (External "exec failed"), bm') /\
    engine.Get "hello" bm'
      = Some {| Name := "hello"; Value := "Hi"; Count := 0 |} /\
    GetBoilerplateByName "hello" (db bm')
      = (None, Some (UnknownBoilerplate "hello")).
Proof.
  intros bm.
  destruct (engine_Add_in_memory "hello" "Hi" "Hi" bm
              ltac:(discriminate) ltac:(discriminate) (lookup_empty _))
    as (err & bm' & Hadd & Hcreate & Hget & _).
  exists bm'. injection Hcreate as <- <-.
  split; [exact Hadd|]. split; [exact Hget|reflexivity].
Defined.

Lemma engine_Edit_keeps_count_witness :
  let bm := manager_of [{| Name := "reminder"; Value := "Don't forget";
                           Count := 5 |}] [] in
  exists bm',
    engine.Edit "reminder" "Remember" bm = (None, bm') /\
    engine.Get "reminder" bm'
      = Some {| Name := "reminder"; Value := "Remember"; Count := 5 |} /\
    GetBoilerplateByName "reminder" (db bm')
      = (Some {| Name := "reminder"; Value := "Remember"; Count := 5 |}, None).
Proof.
  intros bm.
  destruct (engine_Edit_keeps_count "reminder" "Remember"
              {| Name := "reminder"; Value := "Don't forget"; Count := 5 |} bm
              ltac:(discriminate) ltac:(discriminate)) as [Hfound _].
  destruct (Hfound ltac:(vm_compute; reflexivity))
    as (err & bm' & Hedit & Hupdate & Hget & _).
  exists bm'. injection Hupdate as <- <-.
  split; [exact Hedit|]. split; [exact Hget|vm_compute; reflexivity].
Defined.

Lemma engine_Delete_leaves_memory_witness :
  let bm := manager_of [bp "foobar" "the text of foobar"] [] in
  exists bm',
    engine.Delete "foobar" bm = (None, bm') /\
    engine.Get "foobar" bm' = Some (bp "foobar" "the text of foobar") /\
    engine.Add "foobar" "again" bm'
      = (Some engine.ErrBoilerplateAlreadyExist, bm').
Proof.
  intros bm.
  destruct (engine_Delete_leaves_memory "foobar" "again"
              (bp "foobar" "the text of foobar") bm
              ltac:(discriminate) ltac:(discriminate) eq_refl
              ltac:(vm_compute; reflexivity)
              ltac:(eexists; vm_compute; reflexivity))
    as (bm' & Hdel & _ & Hget & Hadd & _).
  exists bm'. split; [exact Hdel|]. split; [exact Hget|exact Hadd].
Defined.

Lemma engine_in_sync_preserved_witness :
  let bm := manager_of [bp "t" "{{x}} and {{x}}"] [reply "1"; reply "2"] in
  engine.in_sync (snd (engine.Add "new" "text" bm)) /\
  engine.in_sync (snd (engine.Edit "t" "plain" bm)) /\
  exists res bm', Expand 3 "t" bm = Some (res, bm') /\ engine.in_sync bm'.
Proof.
  intros bm.
  destruct (engine_in_sync_preserved 3 "t" "plain" bm eq_refl
              (sqlite_wf_insert {| rows := ∅; exec_fails := false |}
                 (bp "t" "{{x}} and {{x}}") (sqlite_wf_empty false))
              eq_refl) as (_ & Hedit & Hexpand).
  destruct (engine_in_sync_preserved 3 "new" "text" bm eq_refl
              (sqlite_wf_insert {| rows := ∅; exec_fails := false |}
                 (bp "t" "{{x}} and {{x}}") (sqlite_wf_empty false))
              eq_refl) as (Hadd & _ & _).
  split; [exact Hadd|]. split; [exact Hedit|].
  destruct (Expand 3 "t" bm) as [[res bm']|] eqn:E;
    [|vm_compute in E; discriminate E].
  exists res, bm'. split; [reflexivity|].
  apply (Hexpand res bm'); [|reflexivity].
  intros b Hb. vm_compute in Hb. injection Hb as <-.
  vm_compute. split; [discriminate|reflexivity].
Defined.

(** ** The choices handed to [Select] *)

Lemma contains_char_app (c : ascii) (a b : string) :
  contains_char c (a ++ b) = contains_char c a || contains_char c b.
Proof.
  induction a as [|d a IH]; [reflexivity|].
  rewrite app_cons. simpl. now rewrite IH, orb_assoc.
Qed.

Lemma split_acc_length (sep : ascii) (cur s : string) :
  length (split_acc sep cur s) = S (Count_char s sep).
Proof.
  revert cur. induction s as [|c s IH]; intros cur; [reflexivity|].
  simpl. destruct (Ascii.eqb c sep); simpl; now rewrite IH.
Qed.

Lemma split_acc_no_separator (sep : ascii) (cur s : string) :
  contains_char sep cur = false ->
  Forall (fun piece => contains_char sep piece = false) (split_acc sep cur s).
Proof.
  revert cur. induction s as [|c s IH]; intros cur Hcur; simpl.
  - now constructor.
  - destruct (Ascii.eqb c sep) eqn:E.
    + constructor; [assumption|]. now apply IH.
    + apply IH. rewrite contains_char_app, Hcur. simpl. now rewrite E.
Qed.

Section SelectFacts.

Context {U D : Type} `{!UI U} `{!Database D}.

(** When the inner text of the first prompt token holds the separator,
    the step calls [Select] with a prompt that holds no separator and with
    a list of choices that is never empty: it has one choice for each
    separator of the inner text, none of which holds a separator. *)
Theorem Select_choices_never_empty (v pre x post : string)
    (bm : BoilerplateManager U D) :
  first_token v pre ("{{" ++ x ++ "}}") post ->
  contains_char "|" x = true ->
  exists prompt options,
    Split x "|" = prompt :: options /\
    expandFirst v bm = answered pre post bm (Select prompt options (ui bm)) /\
    options <> [] /\
    length options = Count_char x "|" /\
    contains_char "|" prompt = false /\
    Forall (fun choice => contains_char "|" choice = false) options.
Proof.
  intros Hft Hsep.
  pose proof (expandFirst_prompt v pre x post bm Hft) as Hstep.
  rewrite Hsep in Hstep.
  pose proof (split_acc_length "|" "" x) as Hlen.
  pose proof (split_acc_no_separator "|" "" x eq_refl) as Hno.
  fold (Split x "|") in Hlen, Hno.
  destruct (Split x "|") as [|prompt options]; [discriminate|].
  exists prompt, options. simpl in Hstep, Hlen.
  apply Forall_cons in Hno as [Hprompt Hoptions].
  injection Hlen as Hlen.
  assert (Hpos : 0 < Count_char x "|").
  { clear -Hsep. induction x as [|c x IH]; [discriminate|]. simpl in *.
    destruct (Ascii.eqb c "|"); simpl; [lia|]. now apply IH. }
  repeat split; try assumption.
  intros ->. simpl in Hlen. lia.
Qed.

(** The two versions of [Expand], the one that counts in memory only and
    the one that also tells the database, give the same result, the same
    dialogue and the same boilerplates in memory; the first leaves the
    database field as it is. *)
Theorem legacy_Expand_same_outcome (fuel : nat) (name : string)
    (bm : BoilerplateManager U D) :
  outcome (legacy.Expand fuel name bm) = outcome (Expand fuel name bm) /\
  forall res bm',
    legacy.Expand fuel name bm = Some (res, bm') -> db bm' = db bm.
Proof.
  unfold legacy.Expand, Expand.
  destruct (boilerplates bm !! name) as [b|] eqn:Hname;
    [|split; [reflexivity|now intros res bm' [= <- <-]]].
  destruct (expandLoop fuel (Value b) bm) as [[[after [e|]] bm1]|] eqn:Hloop;
    [| |split; [reflexivity|discriminate]];
    apply expandLoop_preserves in Hloop as (Hb & Hd & _).
  - split; [reflexivity|now intros res bm' [= <- <-]].
  - unfold incrementBoilerplateCount. rewrite Hb, Hname. cbv zeta.
    destruct (IncBoilerplateCount name _) as [err d].
    split; [reflexivity|]. now intros res bm' [= <- <-].
Qed.

End SelectFacts.

Lemma Select_choices_never_empty_witness :
  let bm := manager_of [bp "t" "{{Confirm|}}"] [reply ""] in
  Split "Confirm|" "|" = ["Confirm"; ""] /\
  expandFirst "{{Confirm|}}" bm
    = answered "" "" bm (Select "Confirm" [""] (ui bm)).
Proof.
  intros bm.
  destruct (Select_choices_never_empty "{{Confirm|}}" "" "Confirm|" "" bm
              ltac:(apply (first_token_by_scan "" "{{Confirm|}}" ""); reflexivity)
              eq_refl)
    as (prompt & options & Hsplit & Hstep & _).
  vm_compute in Hsplit. injection Hsplit as <- <-.
  split; [reflexivity|exact Hstep].
Defined.

(** ** The CSV records *)

Section CsvFacts.

Local Open Scope Z_scope.

Lemma digit_value_of_digit (d : Z) :
  0 <= d <= 9 ->
  csv.digit_value (ascii_of_nat (Z.to_nat (48 + d))) = Some d.
Proof.
  intros Hd.
  assert (H : d = 0 \/ d = 1 \/ d = 2 \/ d = 3 \/ d = 4 \/ d = 5 \/ d = 6 \/
              d = 7 \/ d = 8 \/ d = 9) by lia.
  repeat (destruct H as [-> | H]; [reflexivity|]). now subst d.
Qed.

Lemma format_digits_parse (fuel : nat) (n : Z) (acc : string) :
  0 <= n < 10 ^ Z.of_nat (S fuel) ->
  exists ds,
    csv.format_digits (S fuel) n acc = (ds ++ acc)%string /\
    (exists c ds', ds = String c ds' /\ csv.digit_value c <> None) /\
    forall a s,
      csv.parse_digits a (ds ++ s)%string
      = csv.parse_digits (a * 10 ^ Z.of_nat (String.length ds) + n) s.
Proof.
  revert n acc. induction fuel as [|fuel IH]; intros n acc Hn.
  - change (10 ^ Z.of_nat 1) with 10 in Hn.
    assert (Hlt : (n <? 10) = true) by (apply Z.ltb_lt; lia).
    cbn [csv.format_digits]. rewrite Hlt. rewrite Z.mod_small by lia.
    exists (String (ascii_of_nat (Z.to_nat (48 + n))) "").
    split; [reflexivity|]. split.
    + eexists _, _. split; [reflexivity|].
      rewrite digit_value_of_digit by lia. discriminate.
    + intros a s. rewrite app_cons, app_empty_l. cbn [csv.parse_digits].
      rewrite digit_value_of_digit by lia.
      change (Z.of_nat (String.length (String _ ""))) with 1.
      f_equal; lia.
  - cbn [csv.format_digits]. destruct (n <? 10) eqn:Hlt.
    + apply Z.ltb_lt in Hlt. rewrite Z.mod_small by lia.
      exists (String (ascii_of_nat (Z.to_nat (48 + n))) "").
      split; [reflexivity|]. split.
      * eexists _, _. split; [reflexivity|].
        rewrite digit_value_of_digit by lia. discriminate.
      * intros a s. rewrite app_cons, app_empty_l. cbn [csv.parse_digits].
        rewrite digit_value_of_digit by lia.
        change (Z.of_nat (String.length (String _ ""))) with 1.
        f_equal; lia.
    + apply Z.ltb_ge in Hlt.
      assert (Hdiv : 0 <= n / 10 < 10 ^ Z.of_nat (S fuel)).
      { split; [apply Z.div_pos; lia|].
        apply Z.div_lt_upper_bound; [lia|].
        rewrite (Nat2Z.inj_succ (S fuel)), Z.pow_succ_r in Hn by lia. lia. }
      destruct (IH (n / 10)
                  (String (ascii_of_nat (Z.to_nat (48 + n mod 10))) acc) Hdiv)
        as (ds & Hfmt & (c & ds' & Hds & Hc) & Hparse).
      exists (ds ++ String (ascii_of_nat (Z.to_nat (48 + n mod 10))) "")%string.
      split; [|split].
      * change (csv.format_digits (S fuel) (n / 10)
                  (String (ascii_of_nat (Z.to_nat (48 + n mod 10))) acc)
                = ((ds ++ String (ascii_of_nat (Z.to_nat (48 + n mod 10))) "")
                   ++ acc)%string).
        rewrite Hfmt, app_assoc. reflexivity.
      * exists c, (ds' ++ String (ascii_of_nat (Z.to_nat (48 + n mod 10))) "")%string.
        split; [now rewrite Hds|assumption].
      * intros a s. rewrite app_assoc, Hparse.
        rewrite app_cons, app_empty_l. cbn [csv.parse_digits].
        pose proof (Z.mod_pos_bound n 10 ltac:(lia)) as Hmod.
        rewrite digit_value_of_digit by lia.
        rewrite length_app. cbn [String.length].
        rewrite Nat2Z.inj_add, Z.pow_add_r by lia.
        change (10 ^ Z.of_nat 1) with 10. f_equal.
        pose proof (Z.div_mod n 10 ltac:(lia)). lia.
Qed.

(** [Atoi] reads back what "%d" prints. *)
Lemma Atoi_FormatInt (n : Z) :
  GoInt.min_int <= n <= GoInt.max_int -> csv.Atoi (csv.FormatInt n) = Some n.
Proof.
  intros Hn. unfold csv.FormatInt. destruct (n <? 0) eqn:Hneg.
  - apply Z.ltb_lt in Hneg.
    destruct (format_digits_parse 19 (- n) "")
      as (ds & Hfmt & (c & ds' & -> & Hc) & Hparse).
    { unfold GoInt.min_int in Hn. split; [lia|].
      change (10 ^ Z.of_nat 20) with 100000000000000000000. lia. }
    rewrite Hfmt, app_empty_r. unfold csv.Atoi.
    change (Ascii.eqb "-" "-") with true. cbn [orb].
    specialize (Hparse 0 ""%string). rewrite app_empty_r in Hparse.
    rewrite Hparse. cbn [csv.parse_digits]. rewrite Z.mul_0_l, Z.add_0_l.
    rewrite Z.opp_involutive.
    destruct ((GoInt.min_int <=? n) && (n <=? GoInt.max_int)) eqn:E;
      [reflexivity|].
    apply andb_false_iff in E as [E|E]; [apply Z.leb_gt in E|apply Z.leb_gt in E];
      lia.
  - apply Z.ltb_ge in Hneg.
    destruct (format_digits_parse 19 n "")
      as (ds & Hfmt & (c & ds' & -> & Hc) & Hparse).
    { unfold GoInt.max_int in Hn. split; [lia|].
      change (10 ^ Z.of_nat 20) with 100000000000000000000. lia. }
    rewrite Hfmt, app_empty_r. unfold csv.Atoi.
    assert (Hminus : Ascii.eqb c "-" = false).
    { destruct (Ascii.eqb_spec c "-") as [->|]; [|reflexivity]. now elim Hc. }
    assert (Hplus : Ascii.eqb c "+" = false).
    { destruct (Ascii.eqb_spec c "+") as [->|]; [|reflexivity]. now elim Hc. }
    rewrite Hminus, Hplus. cbn [orb].
    specialize (Hparse 0 ""%string). rewrite app_empty_r in Hparse.
    rewrite Hparse. cbn [csv.parse_digits]. rewrite Z.mul_0_l, Z.add_0_l.
    destruct ((GoInt.min_int <=? n) && (n <=? GoInt.max_int)) eqn:E;
      [reflexivity|].
    apply andb_false_iff in E as [E|E]; [apply Z.leb_gt in E|apply Z.leb_gt in E];
      lia.
Qed.

End CsvFacts.

Section CsvRecords.

Lemma foldl_insert_list_to_map (l : list Boilerplate) :
  foldl (fun m b => <[Name b := b]> m) (∅ : gmap string Boilerplate) l
  = list_to_map ((fun b => (Name b, b)) <$> reverse l).
Proof.
  induction l as [|b l IH] using rev_ind; [reflexivity|].
  rewrite foldl_snoc, reverse_snoc, IH. reflexivity.
Qed.

Lemma readRecord_accepted (record : list string)
    (acc : gmap string Boilerplate) :
  (exists m, csv.readRecord record acc = inl m) <-> csv.accepted (inl record).
Proof.
  unfold csv.readRecord, csv.accepted.
  destruct record as [|name [|value [|count [|extra record]]]];
    try (split; [intros [m Hm]; discriminate|intros []]).
  - split; [trivial|eauto].
  - destruct (csv.Atoi count); split.
    + discriminate.
    + eauto.
    + intros [m Hm]. discriminate.
    + intros H. now elim H.
Qed.

Lemma readRecords_app (a b : list (list string + error))
    (acc : gmap string Boilerplate) :
  csv.readRecords (a ++ b)%list acc =
    match csv.readRecords a acc with
    | inl m => csv.readRecords b m
    | inr e => inr e
    end.
Proof.
  revert acc. induction a as [|[record|e] a IH]; intros acc;
    [reflexivity| |reflexivity].
  cbn [app csv.readRecords].
  destruct (csv.readRecord record acc) as [acc'|e]; [apply IH|reflexivity].
Qed.

(** Records of other names leave the entry of a name as it was. *)
Lemma readRecords_other_names (name : string)
    (reads : list (list string + error)) (acc m : gmap string Boilerplate) :
  Forall (fun r => csv.name_of r <> Some name) reads ->
  csv.readRecords reads acc = inl m ->
  m !! name = acc !! name.
Proof.
  revert acc. induction reads as [|[record|e] reads IH]; intros acc Hother.
  - now intros [= <-].
  - apply Forall_cons in Hother as [Hname Hother].
    cbn [csv.readRecords]. unfold csv.readRecord.
    destruct record as [|n [|v [|c [|x record]]]]; try discriminate.
    + intros Hm. rewrite (IH _ Hother Hm).
      apply lookup_insert_ne. intros ->. now elim Hname.
    + destruct (csv.Atoi c); [|discriminate].
      intros Hm. rewrite (IH _ Hother Hm).
      apply lookup_insert_ne. intros ->. now elim Hname.
  - discriminate.
Qed.

(** The read succeeds exactly when every record that the reader returns
    has two fields, or three the last of which is an integer of Go's int,
    and the reader returns no error: one bad record anywhere makes the
    whole read fail, with no map returned. When it succeeds, the map is
    that of the last record of each name: a record of two fields gives
    the count 0, a record of three fields the count that Atoi reads in
    the third, and a name that no record has keeps the entry that the
    map had. *)
Theorem csv_read_all_or_nothing (reads : list (list string + error))
    (acc : gmap string Boilerplate) :
  ((exists m, csv.readRecords reads acc = inl m) <->
   Forall csv.accepted reads) /\
  (forall (before after : list (list string + error)) record name m,
      reads = (before ++ inl record :: after)%list ->
      csv.name_of (inl record) = Some name ->
      Forall (fun r => csv.name_of r <> Some name) after ->
      csv.readRecords reads acc = inl m ->
      (exists value,
          record = [name; value] /\
          m !! name = Some {| Name := name; Value := value; Count := 0 |}) \/
      (exists value count n,
          record = [name; value; count] /\ csv.Atoi count = Some n /\
          m !! name = Some {| Name := name; Value := value; Count := n |})) /\
  (forall name m,
      Forall (fun r => csv.name_of r <> Some name) reads ->
      csv.readRecords reads acc = inl m ->
      m !! name = acc !! name).
Proof.
  split; [|split].
  - revert acc. induction reads as [|[record|e] reads IH]; intros acc.
    + split; [constructor|]. intros _. now exists acc.
    + cbn [csv.readRecords]. rewrite Forall_cons.
      rewrite <- (readRecord_accepted record acc).
      destruct (csv.readRecord record acc) as [acc'|e].
      * rewrite (IH acc'). split; [intros H; split; eauto|tauto].
      * split; [intros [m Hm]; discriminate|].
        intros [[m Hm] _]. discriminate.
    + cbn [csv.readRecords]. rewrite Forall_cons. cbn [csv.accepted].
      split; [intros [m Hm]; discriminate|tauto].
  - intros before after record name m -> Hname Hafter.
    rewrite readRecords_app.
    destruct (csv.readRecords before acc) as [acc1|e]; [|discriminate].
    cbn [csv.readRecords]. unfold csv.readRecord.
    destruct record as [|n [|v [|c [|x record]]]]; try discriminate;
      cbn [csv.name_of] in Hname; injection Hname as ->.
    + intros Hm. left. exists v. split; [reflexivity|].
      rewrite (readRecords_other_names name after _ m Hafter Hm).
      apply lookup_insert_eq.
    + destruct (csv.Atoi c) as [k|] eqn:Hk; [|discriminate].
      intros Hm. right. exists v, c, k. split; [reflexivity|].
      split; [exact Hk|].
      rewrite (readRecords_other_names name after _ m Hafter Hm).
      apply lookup_insert_eq.
  - intros name m. apply readRecords_other_names.
Qed.

End CsvRecords.

(** ** What a finished expansion returns *)

Section ResultFacts.

Context {U D : Type} `{!UI U} `{!Database D}.

Lemma expandLoop_last_step (fuel : nat) (v text : string)
    (bm bm' : BoilerplateManager U D) :
  expandLoop fuel v bm = Some ((text, None), bm') ->
  exists bm0,
    boilerplates bm0 = boilerplates bm /\
    expandFirst text bm0 = ((text, None), bm').
Proof.
  revert v bm. induction fuel as [|fuel IH]; intros v bm; [discriminate|].
  rewrite expandLoop_unfold.
  pose proof (expandFirst_preserves v bm) as Hpres.
  destruct (expandFirst v bm) as [[after [e|]] bm1] eqn:Hstep; [discriminate|].
  destruct Hpres as (Hb & _ & _).
  destruct (String.eqb_spec v after) as [<-|Hne].
  - intros [= <- <-]. now exists bm.
  - intros Hloop. destruct (IH _ _ Hloop) as (bm0 & Hb0 & Hlast).
    exists bm0. split; [congruence|assumption].
Qed.

(** A text that [Expand] returns without error is one that the step maps
    to itself. So either it holds no token at all, or its first token was
    replaced by itself: a reference whose boilerplate has the token as its
    value, or a prompt that was answered with the token. *)
Theorem Expand_returns_fixed_point (fuel : nat) (name text : string)
    (bm bm' : BoilerplateManager U D) :
  Expand fuel name bm = Some ((text, None), bm') ->
  (exists bm0 bm1 : BoilerplateManager U D,
      boilerplates bm0 = boilerplates bm /\
      expandFirst text bm0 = ((text, None), bm1)) /\
  (token_free text \/
   exists pre t post,
     first_token text pre t post /\
     ((exists b, boilerplates bm !! t = Some b /\ Value b = t) \/
      is_prompt_token t)).
Proof.
  unfold Expand. destruct (boilerplates bm !! name) as [b|]; [|discriminate].
  destruct (expandLoop fuel (Value b) bm) as [[[after [e|]] bm1]|] eqn:Hloop;
    try discriminate.
  destruct (incrementBoilerplateCount name bm1) as [err bm2].
  intros [= <- <-].
  destruct (expandLoop_last_step _ _ _ _ _ Hloop) as (bm0 & Hb0 & Hlast).
  split; [now exists bm0, bm1|].
  destruct (FindStringIndex after) as [[i j]|] eqn:Hfind;
    [|left; now apply FindStringIndex_None_iff].
  right. apply FindStringIndex_Some_inv in Hfind
    as (pre & t & post & Hft & _ & _).
  exists pre, t, post. split; [assumption|].
  pose proof Hft as (Hv & [(id & _ & _ & Ht) | Hprompt] & _);
    [|now right].
  left. subst t. rewrite (expandFirst_include after pre id post bm0 Hft) in Hlast.
  rewrite Hb0 in Hlast.
  destruct (boilerplates bm !! ("[[" ++ id ++ "]]")) as [b0|]; [|discriminate].
  exists b0. split; [reflexivity|].
  injection Hlast as Htext _. rewrite Hv in Htext.
  apply (inj (String.append pre)) in Htext.
  assert (Hlen : String.length (Value b0) = String.length ("[[" ++ id ++ "]]")).
  { apply (f_equal String.length) in Htext. rewrite !length_app in Htext.
    rewrite !length_app. lia. }
  now destruct (app_inv_length _ _ _ _ Htext Hlen).
Qed.

End ResultFacts.

Lemma Expand_returns_fixed_point_witness :
  let bm := manager_of [bp "t" "{{x}}"] [reply "{{x}}"] in
  exists pre t post,
    first_token "{{x}}" pre t post /\
    ((exists b, boilerplates bm !! t = Some b /\ Value b = t) \/
     is_prompt_token t).
Proof.
  intros bm.
  destruct (Expand 2 "t" bm) as [[[text [e|]] bm']|] eqn:E;
    try (vm_compute in E; discriminate E).
  assert (Htext : text = "{{x}}") by (vm_compute in E; congruence).
  subst text.
  destruct (Expand_returns_fixed_point 2 "t" "{{x}}" bm bm' E) as [_ [Hfree|H]];
    [|exact H].
  apply FindStringIndex_None_iff in Hfree. vm_compute in Hfree. discriminate.
Defined.

(** ** The command line *)

(** A configuration that loadConfigFromFile returns without error names
    one of the two user interfaces, a Rofi executable and, when the join
    of the directory and the file name is not empty, a database path;
    what the file gives for these is kept when it is usable and is
    replaced by the default otherwise - the join of the directory and
    "ezbp.db" for an empty database path, "terminal" for a user
    interface that is neither "rofi" nor "terminal", "rofi" for an empty
    Rofi path - and the editor, the theme and the extra arguments are
    kept as they are. With no file, the defaults are returned once the
    file is written. *)
Theorem loadConfig_normalised (Join : string -> string -> string)
    (fs : cli.FileSystem) (configDir : string) (cfg : cli.Config) :
  cli.loadConfigFromFile Join fs configDir = (cfg, None) ->
  Join configDir cli.defaultDatabaseFileName <> "" ->
  (cli.DefaultUI cfg = "rofi" \/ cli.DefaultUI cfg = "terminal") /\
  cli.Path (cli.Rofi cfg) <> "" /\
  cli.DatabasePath cfg <> "" /\
  (cli.statFile fs = cli.NotExist ->
   cfg = {| cli.DatabasePath := Join configDir cli.defaultDatabaseFileName;
            cli.DefaultUI := "terminal"; cli.Editor := "";
            cli.Rofi := {| cli.Path := "rofi"; cli.Theme := "";
                           cli.SelectArgs := []; cli.InputArgs := [] |} |}) /\
  (forall loaded,
      cli.statFile fs = cli.Found -> cli.decodeFile fs = inl loaded ->
      (cli.DatabasePath loaded <> "" ->
       cli.DatabasePath cfg = cli.DatabasePath loaded) /\
      (cli.DefaultUI loaded = "rofi" \/ cli.DefaultUI loaded = "terminal" ->
       cli.DefaultUI cfg = cli.DefaultUI loaded) /\
      (cli.Path (cli.Rofi loaded) <> "" ->
       cli.Path (cli.Rofi cfg) = cli.Path (cli.Rofi loaded)) /\
      cli.Editor cfg = cli.Editor loaded /\
      cli.Theme (cli.Rofi cfg) = cli.Theme (cli.Rofi loaded) /\
      cli.SelectArgs (cli.Rofi cfg) = cli.SelectArgs (cli.Rofi loaded) /\
      cli.InputArgs (cli.Rofi cfg) = cli.InputArgs (cli.Rofi loaded) /\
      (cli.DatabasePath loaded = "" ->
       cli.DatabasePath cfg = Join configDir cli.defaultDatabaseFileName) /\
      (cli.DefaultUI loaded <> "rofi" -> cli.DefaultUI loaded <> "terminal" ->
       cli.DefaultUI cfg = "terminal") /\
      (cli.Path (cli.Rofi loaded) = "" -> cli.Path (cli.Rofi cfg) = "rofi")).
Proof.
  unfold cli.loadConfigFromFile. intros Hload Hjoin.
  destruct (cli.statFile fs) as [|e|].
  - destruct (cli.mkdirAll fs); [discriminate|].
    destruct (cli.createFile fs); [discriminate|].
    destruct (cli.writeString fs); [discriminate|].
    injection Hload as <-. cbn. repeat split; try discriminate; auto.
  - discriminate.
  - destruct (cli.decodeFile fs) as [loaded|e]; [|discriminate].
    cbv zeta in Hload. injection Hload as <-. cbn.
    split; [|split; [|split; [|split; [discriminate|]]]].
    + destruct (String.eqb_spec (cli.DefaultUI loaded) "rofi") as [->|];
        [now left|].
      destruct (String.eqb_spec (cli.DefaultUI loaded) "terminal") as [->|];
        cbn; now right.
    + destruct (String.eqb_spec (cli.Path (cli.Rofi loaded)) "");
        [discriminate|assumption].
    + destruct (String.eqb_spec (cli.DatabasePath loaded) ""); assumption.
    + intros loaded' _ [= <-].
      split; [intros Hne; apply String.eqb_neq in Hne; now rewrite Hne|].
      split; [intros [-> | ->]; reflexivity|].
      split; [intros Hne; apply String.eqb_neq in Hne; now rewrite Hne|].
      do 4 (split; [reflexivity|]).
      split; [intros ->; reflexivity|].
      split; [|intros ->; reflexivity].
      intros Hr Ht. apply String.eqb_neq in Hr, Ht. now rewrite Hr, Ht.
Qed.

(** When loadConfigFromFile returns an error, the configuration beside it
    is the empty one: nothing of the file or of the defaults comes
    through. *)
Lemma loadConfig_error_zero (Join : string -> string -> string)
    (fs : cli.FileSystem) (configDir : string) (cfg : cli.Config) (e : error) :
  cli.loadConfigFromFile Join fs configDir = (cfg, Some e) ->
  cfg = cli.zeroConfig.
Proof.
  unfold cli.loadConfigFromFile.
  destruct (cli.statFile fs).
  - destruct (cli.mkdirAll fs); [now intros [= <-]|].
    destruct (cli.createFile fs); [now intros [= <-]|].
    destruct (cli.writeString fs); [now intros [= <-]|discriminate].
  - now intros [= <-].
  - destruct (cli.decodeFile fs); [discriminate|now intros [= <-]].
Qed.

(** getDefaultEditor never returns the empty string, so openEditor always
    has a command to run; the editor of the configuration comes first,
    then the variable VISUAL, then the variable EDITOR, then the default
    of the platform. *)
Theorem getDefaultEditor_never_empty (getenv : string -> string)
    (goos editor filename : string) :
  cli.getDefaultEditor getenv goos editor <> "" /\
  fst (cli.openEditor_command getenv goos editor filename) <> "" /\
  (editor <> "" -> cli.getDefaultEditor getenv goos editor = editor) /\
  (editor = "" -> getenv "VISUAL" <> "" ->
   cli.getDefaultEditor getenv goos editor = getenv "VISUAL") /\
  (editor = "" -> getenv "VISUAL" = "" -> getenv "EDITOR" <> "" ->
   cli.getDefaultEditor getenv goos editor = getenv "EDITOR") /\
  (editor = "" -> getenv "VISUAL" = "" -> getenv "EDITOR" = "" ->
   cli.getDefaultEditor getenv goos editor
   = if String.eqb goos "windows" then "notepad" else "nano").
Proof.
  assert (Hne : cli.getDefaultEditor getenv goos editor <> "").
  { unfold cli.getDefaultEditor.
    destruct (String.eqb_spec editor ""); cbn; [|assumption].
    destruct (String.eqb_spec (getenv "VISUAL") ""); cbn; [|assumption].
    destruct (String.eqb_spec (getenv "EDITOR") ""); cbn; [|assumption].
    destruct (String.eqb goos "windows"); [discriminate|].
    destruct (String.eqb goos "darwin"); discriminate. }
  split; [exact Hne|]. split.
  - unfold cli.openEditor_command.
    destruct (String.eqb goos "windows"); [discriminate|exact Hne].
  - unfold cli.getDefaultEditor. repeat split.
    + intros H. apply String.eqb_neq in H. now rewrite H.
    + intros -> H. apply String.eqb_neq in H. now rewrite H.
    + intros -> -> H. apply String.eqb_neq in H. now rewrite H.
    + intros -> -> ->. cbn. now destruct (String.eqb goos "windows"),
        (String.eqb goos "darwin").
Qed.

Lemma loadConfig_normalised_witness :
  let loaded := {| cli.DatabasePath := ""; cli.DefaultUI := "invalid_ui_value";
                   cli.Editor := "vim";
                   cli.Rofi := {| cli.Path := ""; cli.Theme := "";
                                  cli.SelectArgs := [];
                                  cli.InputArgs := [] |} |} in
  let fs := {| cli.statFile := cli.Found; cli.mkdirAll := None;
               cli.createFile := None; cli.writeString := None;
               cli.decodeFile := inl loaded |} in
  let cfg := fst (cli.loadConfigFromFile (fun d f => d ++ "/" ++ f) fs "/tmp/cfg") in
  (cli.DefaultUI cfg = "rofi" \/ cli.DefaultUI cfg = "terminal") /\
  cli.Path (cli.Rofi cfg) <> "" /\ cli.DatabasePath cfg <> "" /\
  cli.DatabasePath cfg = "/tmp/cfg" ++ "/" ++ cli.defaultDatabaseFileName /\
  cli.DefaultUI cfg = "terminal" /\
  cli.Path (cli.Rofi cfg) = "rofi" /\
  cli.Editor cfg = "vim".
Proof.
  intros loaded fs cfg.
  destruct (loadConfig_normalised (fun d f => d ++ "/" ++ f) fs "/tmp/cfg" cfg
              eq_refl ltac:(discriminate)) as (Hui & Hpath & Hdb & _ & Hloaded).
  destruct (Hloaded loaded eq_refl eq_refl)
    as (_ & _ & _ & Hed & _ & _ & _ & Hdbdef & Huidef & Hpathdef).
  split; [exact Hui|]. split; [exact Hpath|]. split; [exact Hdb|].
  split; [exact (Hdbdef eq_refl)|].
  split; [apply Huidef; discriminate|].
  split; [exact (Hpathdef eq_refl)|exact Hed].
Defined.

(** ** The expand command *)

Section ExpandCommandFacts.

Context {U D W : Type} `{!UI U} `{!Database D} `{!BoilerplateSelector U}
        `{!Clipboard W}.

Lemma boilerplateExpand_unfold (rounds fuel : nat)
    (bm : BoilerplateManager U D) (w : W) :
  boilerplateExpand (S rounds) fuel bm w =
    let '((name, err), u) := SelectBoilerplate (boilerplates bm) (ui bm) in
    let bm0 := with_ui u bm in
    match err with
    | Some e => Some (Some (cli.FailedToSelect e), bm0, w)
    | None =>
        match Expand fuel name bm0 with
        | None => None
        | Some ((_, Some e), bm1) =>
            Some (Some (cli.FailedToExpand name e), bm1, w)
        | Some ((value, None), bm1) =>
            let '(cerr, w1) := WriteAll value w in
            match cerr with
            | Some e => Some (Some (cli.FailedToCopy e), bm1, w1)
            | None => boilerplateExpand rounds fuel bm1 w1
            end
        end
    end.
Proof. reflexivity. Qed.

Lemma boilerplateExpand_ends_on_error (rounds fuel : nat)
    (bm bm' : BoilerplateManager U D) (w w' : W)
    (r : option cli.loop_error) :
  boilerplateExpand rounds fuel bm w = Some (r, bm', w') -> r <> None.
Proof.
  revert bm w. induction rounds as [|rounds IH]; intros bm w; [discriminate|].
  rewrite boilerplateExpand_unfold.
  destruct (SelectBoilerplate _ _) as [[name [e|]] u]; cbv zeta.
  - now intros [= <- _ _].
  - destruct (Expand fuel name _) as [[[value [e|]] bm1]|]; [| |discriminate].
    + now intros [= <- _ _].
    + destruct (WriteAll value w) as [[e|] w1]; [now intros [= <- _ _]|].
      apply IH.
Qed.

(** One full turn on a boilerplate whose value has no token. *)
Lemma boilerplateExpand_turn (rounds fuel : nat) (name : string)
    (b : Boilerplate) (bm : BoilerplateManager U D) (w : W) (u : U) :
  boilerplates bm !! name = Some b -> token_free (Value b) ->
  SelectBoilerplate (boilerplates bm) (ui bm) = ((name, None), u) ->
  fst (WriteAll (Value b) w) = None ->
  boilerplateExpand (S rounds) (S fuel) bm w =
    boilerplateExpand rounds (S fuel)
      {| db := snd (IncBoilerplateCount name (db bm)); ui := u;
         boilerplates :=
           <[name := {| Name := Name b; Value := Value b;
                        Count := GoInt.incr (Count b) |}]> (boilerplates bm) |}
      (snd (WriteAll (Value b) w)).
Proof.
  intros Hname Hfree Hsel Hcopy.
  rewrite boilerplateExpand_unfold, Hsel. cbv zeta.
  unfold Expand. cbn [boilerplates with_ui]. rewrite Hname, expandLoop_unfold.
  rewrite expandFirst_token_free by assumption. rewrite String.eqb_refl.
  unfold incrementBoilerplateCount. cbn [boilerplates with_ui]. rewrite Hname.
  cbv zeta. cbn [db with_boilerplates with_ui].
  destruct (IncBoilerplateCount name (db bm)) as [err d].
  destruct (WriteAll (Value b) w) as [cerr w1]. simpl in Hcopy. subst cerr.
  reflexivity.
Qed.

(** The expand command never ends without an error. While the user keeps
    selecting a boilerplate whose value has no token and the clipboard
    takes the text, it goes on: after [n] such turns the value has been
    copied [n] times, the count of the boilerplate has been raised [n]
    times in memory, the database has been asked [n] times to increment
    it, and the command is where it would be had it started in that
    state. *)
Theorem boilerplateExpand_turns (n rounds fuel : nat) (name : string)
    (b : Boilerplate) (bm : BoilerplateManager U D) (w : W) (us : nat -> U) :
  boilerplates bm !! name = Some b -> token_free (Value b) ->
  us 0 = ui bm ->
  (forall m k, k < n ->
     SelectBoilerplate m (us k) = ((name, None), us (S k))) ->
  (forall w0, fst (WriteAll (Value b) w0) = None) ->
  (forall r bm' w',
      boilerplateExpand (n + rounds) (S fuel) bm w = Some (r, bm', w') ->
      r <> None) /\
  boilerplateExpand (n + rounds) (S fuel) bm w =
    boilerplateExpand rounds (S fuel)
      {| db := Nat.iter n (fun d => snd (IncBoilerplateCount name d)) (db bm);
         ui := us n;
         boilerplates :=
           <[name := {| Name := Name b; Value := Value b;
                        Count := Nat.iter n GoInt.incr (Count b) |}]>
             (boilerplates bm) |}
      (Nat.iter n (fun w0 => snd (WriteAll (Value b) w0)) w).
Proof.
  intros Hname Hfree Hus Hsel Hcopy.
  split; [intros r bm' w'; apply boilerplateExpand_ends_on_error|].
  revert b bm w us Hname Hfree Hus Hsel Hcopy.
  induction n as [|n IH]; intros b bm w us Hname Hfree Hus Hsel Hcopy.
  - cbn [Nat.iter Nat.add]. f_equal. destruct bm as [d u m]. cbn in *.
    subst u. f_equal. rewrite insert_id; [reflexivity|].
    now destruct b.
  - cbn [Nat.add].
    rewrite (boilerplateExpand_turn (n + rounds) fuel name b bm w (us 1));
      try assumption;
      [|rewrite <- Hus; apply Hsel; lia|apply Hcopy].
    set (b1 := {| Name := Name b; Value := Value b;
                  Count := GoInt.incr (Count b) |}).
    rewrite (IH b1 _ _ (fun k => us (S k)));
      [|apply lookup_insert_eq|assumption|reflexivity
       |intros m k Hk; apply Hsel; lia|assumption].
    cbn [db ui boilerplates Name Value Count b1].
    rewrite insert_insert_eq, !Nat.iter_succ_r. reflexivity.
Qed.

End ExpandCommandFacts.

Lemma boilerplateExpand_turns_witness :
  observe_command "foobar"
    (boilerplateExpand (2 + 1) 1
       (manager_of test_boilerplates [reply "foobar"; reply "foobar"; cancel])
       [])
  = Some (Some (cli.FailedToSelect (External "user aborted")),
          Some 2%Z, Some 2%Z,
          ["the text of foobar"; "the text of foobar"]).
Proof.
  set (bm := manager_of test_boilerplates
               [reply "foobar"; reply "foobar"; cancel]).
  set (us := fun k : nat =>
               match k with
               | 0 => ui bm
               | 1 => {| replies := [reply "foobar"; cancel];
                         calls := [CallPrompt "Select Boilerplate"] |}
               | _ => {| replies := [cancel];
                         calls := [CallPrompt "Select Boilerplate";
                                   CallPrompt "Select Boilerplate"] |}
               end).
  destruct (boilerplateExpand_turns 2 1 0 "foobar"
              (bp "foobar" "the text of foobar") bm [] us
              ltac:(vm_compute; reflexivity)
              ltac:(apply FindStringIndex_None_iff; reflexivity)
              eq_refl
              ltac:(intros m [|[|k]] Hk; [reflexivity|reflexivity|lia])
              ltac:(reflexivity)) as [_ Heq].
  rewrite Heq. vm_compute. reflexivity.
Defined.

(** ** The terminal selector *)

Section SelectorFacts.

Local Open Scope Z_scope.

Lemma selector_at_index_Some (l : list Boilerplate) (i : Z) :
  0 <= i < Z.of_nat (length l) ->
  exists b, selector.at_index l i = Some b /\ b ∈ l.
Proof.
  intros Hi. unfold selector.at_index.
  replace ((0 <=? i) && (i <? Z.of_nat (length l))) with true
    by (symmetry; apply andb_true_iff; split; [apply Z.leb_le|apply Z.ltb_lt]; lia).
  destruct (lookup_lt_is_Some_2 l (Z.to_nat i) ltac:(lia)) as [b Hb].
  exists b. split; [assumption|]. now apply list_elem_of_lookup_2 in Hb.
Qed.

Lemma selector_updatePreview (m : selector.Model) (i : Z) :
  0 <= i < Z.of_nat (length (selector.boilerplates m)) ->
  exists m',
    selector.updatePreview (selector.with_index i m) = Some m' /\
    selector.well_formed m' /\
    selector.boilerplates m' = selector.boilerplates m /\
    selector.selectedIndex m' = i /\
    selector.cancelled m' = selector.cancelled m /\
    selector.selectedName m' = selector.selectedName m.
Proof.
  intros Hi. unfold selector.updatePreview. cbn [selector.boilerplates
    selector.selectedIndex selector.with_index].
  destruct (Nat.eqb_spec (length (selector.boilerplates m)) 0) as [E|_];
    [lia|].
  destruct (selector_at_index_Some _ _ Hi) as (b & Hb & _). rewrite Hb.
  eexists. split; [reflexivity|]. unfold selector.well_formed. cbn.
  repeat split; try (right; lia); try lia.
  intros c [= <-]. eauto.
Qed.

Lemma selector_new_well_formed (l : list Boilerplate) :
  selector.well_formed (selector.newBoilerplateSelector l).
Proof.
  unfold selector.well_formed. cbn. split; [|discriminate].
  destruct l; [now left|right; cbn [length]; lia].
Qed.

Lemma selector_well_formed_ext (m m' : selector.Model) :
  selector.well_formed m ->
  selector.boilerplates m' = selector.boilerplates m ->
  selector.selectedIndex m' = selector.selectedIndex m ->
  selector.content m' = selector.content m ->
  selector.well_formed m'.
Proof.
  unfold selector.well_formed. intros [Hidx Hcontent] -> -> ->. now split.
Qed.

(** One message: no panic, the model stays well formed, the list is the
    same; a message that quits either cancels or names a boilerplate of
    the list, and one that does not quit leaves the flag and the name. *)
Lemma selector_Update_step (msg : selector.Msg) (m : selector.Model) :
  selector.well_formed m ->
  exists m' quit,
    selector.Update msg m = Some (m', quit) /\
    selector.well_formed m' /\
    selector.boilerplates m' = selector.boilerplates m /\
    (quit = false ->
     selector.cancelled m' = selector.cancelled m /\
     selector.selectedName m' = selector.selectedName m) /\
    (quit = true -> selector.boilerplates m <> [] ->
     selector.cancelled m' = true \/
     exists b, selector.at_index (selector.boilerplates m)
                 (selector.selectedIndex m) = Some b /\
               b ∈ selector.boilerplates m /\
               selector.selectedName m' = Name b /\
               selector.cancelled m' = selector.cancelled m).
Proof.
  intros Hwf. pose proof Hwf as [Hidx Hcontent].
  assert (Hsame : exists m' quit,
             Some (m, false) = Some (m', quit) /\
             selector.well_formed m' /\
             selector.boilerplates m' = selector.boilerplates m /\
             (quit = false ->
              selector.cancelled m' = selector.cancelled m /\
              selector.selectedName m' = selector.selectedName m) /\
             (quit = true -> selector.boilerplates m <> [] ->
              selector.cancelled m' = true \/
              exists b, selector.at_index (selector.boilerplates m)
                          (selector.selectedIndex m) = Some b /\
                        b ∈ selector.boilerplates m /\
                        selector.selectedName m' = Name b /\
                        selector.cancelled m' = selector.cancelled m)).
  { exists m, false. split; [reflexivity|]. split; [assumption|].
    split; [reflexivity|]. split; [now split|discriminate]. }
  assert (Hmove : forall i,
             0 <= i < Z.of_nat (length (selector.boilerplates m)) ->
             exists m' quit,
               match selector.updatePreview (selector.with_index i m) with
               | Some m1 => Some (m1, false)
               | None => None
               end = Some (m', quit) /\
               selector.well_formed m' /\
               selector.boilerplates m' = selector.boilerplates m /\
               (quit = false ->
                selector.cancelled m' = selector.cancelled m /\
                selector.selectedName m' = selector.selectedName m) /\
               (quit = true -> selector.boilerplates m <> [] ->
                selector.cancelled m' = true \/
                exists b, selector.at_index (selector.boilerplates m)
                            (selector.selectedIndex m) = Some b /\
                          b ∈ selector.boilerplates m /\
                          selector.selectedName m' = Name b /\
                          selector.cancelled m' = selector.cancelled m)).
  { intros i Hi.
    destruct (selector_updatePreview m i Hi)
      as (m' & -> & Hwf' & Hl & _ & Hc & Hn).
    exists m', false. split; [reflexivity|]. split; [assumption|].
    split; [assumption|]. split; [now split|discriminate]. }
  destruct msg as [w h|key|]; cbn [selector.Update]; [| |exact Hsame].
  - cbn [selector.ready]. destruct (selector.ready m) eqn:Hready.
    + eexists _, false. split; [reflexivity|].
      split; [now apply (selector_well_formed_ext m)|].
      split; [reflexivity|]. split; [now split|discriminate].
    + unfold selector.updatePreview. cbn.
      destruct Hidx as [[Hnil Hzero]|Hrange].
      * rewrite Hnil. cbn.
        eexists _, false. split; [reflexivity|].
        split; [apply (selector_well_formed_ext m); cbn;
                [assumption|now rewrite ?Hnil|reflexivity|reflexivity]|].
        split; [cbn; now rewrite ?Hnil|]. split; [now split|discriminate].
      * destruct (Nat.eqb_spec (length (selector.boilerplates m)) 0); [lia|].
        destruct (selector_at_index_Some _ _ Hrange) as (b & Hb & _).
        rewrite Hb. eexists _, false. split; [reflexivity|].
        split; [|split; [reflexivity|split; [now split|discriminate]]].
        split; [now right|]. cbn. intros c [= <-]. eauto.
  - destruct (selector.is_key key ["ctrl+c"; "q"; "esc"]).
    { eexists _, true. split; [reflexivity|].
      split; [now apply (selector_well_formed_ext m)|].
      split; [reflexivity|]. split; [discriminate|]. intros _ _. now left. }
    destruct (selector.is_key key ["enter"]).
    { destruct Hidx as [[Hnil Hzero]|Hrange].
      - replace (0 <? length (selector.boilerplates m))%nat with false
          by now rewrite Hnil.
        exists m, true. split; [reflexivity|]. split; [assumption|].
        split; [reflexivity|]. split; [discriminate|].
        intros _ H. now elim H.
      - destruct (Nat.ltb_spec 0 (length (selector.boilerplates m))); [|lia].
        destruct (selector_at_index_Some _ _ Hrange) as (b & Hb & Hin).
        rewrite Hb. eexists _, true. split; [reflexivity|].
        split; [now apply (selector_well_formed_ext m)|].
        split; [reflexivity|]. split; [discriminate|].
        intros _ _. right. now exists b. }
    destruct (selector.is_key key ["up"; "k"]).
    { destruct (Z.ltb_spec 0 (selector.selectedIndex m)) as [Hpos|Hle];
        [|exact Hsame].
      destruct Hidx as [[Hnil Hzero]|Hrange]; [lia|]. apply Hmove. lia. }
    destruct (selector.is_key key ["down"; "j"]); [|exact Hsame].
    destruct (Z.ltb_spec (selector.selectedIndex m)
                (Z.of_nat (length (selector.boilerplates m)) - 1))
      as [Hlt|Hge]; [|exact Hsame].
    destruct Hidx as [[Hnil Hzero]|Hrange];
      [rewrite Hnil in Hlt; cbn in Hlt; lia|].
    apply Hmove. lia.
Qed.

End SelectorFacts.

Section SelectorClaims.

Local Open Scope Z_scope.

Lemma selector_updates_app (a b : list selector.Msg) (m : selector.Model) :
  selector.updates (a ++ b)%list m =
    match selector.updates a m with
    | Some m' => selector.updates b m'
    | None => None
    end.
Proof.
  revert m. induction a as [|msg a IH]; intros m; [reflexivity|].
  cbn [app selector.updates].
  destruct (selector.Update msg m) as [[m' quit]|]; [apply IH|reflexivity].
Qed.

Lemma selector_Run_messages (msgs : list selector.Msg)
    (rest : list selector.Event) (m : selector.Model) :
  selector.Run ((selector.Message <$> msgs) ++ rest)%list m =
    match selector.updates msgs m with
    | Some m' => selector.Run rest m'
    | None => selector.Panicked
    end.
Proof.
  revert m. induction msgs as [|msg msgs IH]; intros m; [reflexivity|].
  cbn [fmap list_fmap app selector.Run selector.updates].
  destruct (selector.Update msg m) as [[m' quit]|]; [apply IH|reflexivity].
Qed.

(** One message on a list that is not empty: a cancelled selection stays
    cancelled, and the name held stays empty or that of a boilerplate of
    the list. *)
Lemma selector_Update_known (msg : selector.Msg) (m : selector.Model) :
  selector.well_formed m -> selector.boilerplates m <> [] ->
  exists m' quit,
    selector.Update msg m = Some (m', quit) /\
    selector.well_formed m' /\
    selector.boilerplates m' = selector.boilerplates m /\
    (selector.cancelled m = true -> selector.cancelled m' = true) /\
    (selector_known m -> selector_known m').
Proof.
  intros Hwf Hne.
  destruct (selector_Update_step msg m Hwf)
    as (m' & quit & Hupd & Hwf' & Hl & Hstay & Hquit).
  exists m', quit. split; [exact Hupd|]. split; [exact Hwf'|].
  split; [exact Hl|].
  destruct quit.
  - destruct (Hquit eq_refl Hne) as [Hc|(b & _ & Hin & Hname & Hc)].
    + split; [now intros _|]. intros _. now left.
    + split; [congruence|]. intros _. right. right.
      exists b. split; [now rewrite Hl|exact Hname].
  - destruct (Hstay eq_refl) as [Hc Hn].
    split; [congruence|].
    unfold selector_known. rewrite Hc, Hn, Hl. tauto.
Qed.

Lemma selector_updates_known (msgs : list selector.Msg) (m : selector.Model) :
  selector.well_formed m -> selector.boilerplates m <> [] ->
  exists m',
    selector.updates msgs m = Some m' /\
    selector.well_formed m' /\
    selector.boilerplates m' = selector.boilerplates m /\
    (selector.cancelled m = true -> selector.cancelled m' = true) /\
    (selector_known m -> selector_known m').
Proof.
  revert m. induction msgs as [|msg msgs IH]; intros m Hwf Hne.
  - exists m. split; [reflexivity|]. split; [exact Hwf|].
    split; [reflexivity|]. now split.
  - destruct (selector_Update_known msg m Hwf Hne)
      as (m1 & quit & Hupd & Hwf1 & Hl1 & Hc1 & Hk1).
    destruct (IH m1 Hwf1 ltac:(now rewrite Hl1))
      as (m' & Hupds & Hwf' & Hl' & Hc' & Hk').
    exists m'. cbn [selector.updates]. rewrite Hupd.
    split; [exact Hupds|]. split; [exact Hwf'|].
    split; [congruence|]. split; [tauto|tauto].
Qed.

(** A message that neither cancels nor selects does not quit. *)
Lemma selector_Update_keeps_choice (msg : selector.Msg)
    (m m' : selector.Model) (quit : bool) :
  selector_keeps_choice msg ->
  selector.Update msg m = Some (m', quit) -> quit = false.
Proof.
  intros Hmsg Hupd. destruct quit; [|reflexivity]. exfalso.
  destruct msg as [w h|key|]; cbn [selector.Update] in Hupd.
  - destruct (selector.ready _);
      [|destruct (selector.updatePreview _)]; congruence.
  - cbn [selector_keeps_choice] in Hmsg. unfold selector.is_key in *.
    cbn [existsb] in Hmsg, Hupd.
    destruct (String.eqb key "ctrl+c"); [discriminate|].
    destruct (String.eqb key "q"); [discriminate|].
    destruct (String.eqb key "esc"); [discriminate|].
    destruct (String.eqb key "enter"); [discriminate|].
    cbn [orb] in Hupd.
    destruct (_ || _) in Hupd.
    + destruct (0 <? _) in Hupd;
        [destruct (selector.updatePreview _) in Hupd|]; congruence.
    + destruct (_ || _) in Hupd; [|congruence].
      destruct (_ <? _) in Hupd;
        [destruct (selector.updatePreview _) in Hupd|]; congruence.
  - congruence.
Qed.

(** Messages that neither cancel nor select leave the flag and the name
    as they are. *)
Lemma selector_updates_keep (msgs : list selector.Msg) (m : selector.Model) :
  Forall selector_keeps_choice msgs ->
  selector.well_formed m ->
  exists m',
    selector.updates msgs m = Some m' /\
    selector.well_formed m' /\
    selector.boilerplates m' = selector.boilerplates m /\
    selector.cancelled m' = selector.cancelled m /\
    selector.selectedName m' = selector.selectedName m.
Proof.
  intros Hmsgs. revert m.
  induction Hmsgs as [|msg msgs Hmsg _ IH]; intros m Hwf.
  - exists m. split; [reflexivity|]. split; [exact Hwf|]. now repeat split.
  - destruct (selector_Update_step msg m Hwf)
      as (m1 & quit & Hupd & Hwf1 & Hl1 & Hstay & _).
    pose proof (selector_Update_keeps_choice msg m m1 quit Hmsg Hupd) as Hq.
    destruct (Hstay Hq) as [Hc Hn].
    destruct (IH m1 Hwf1) as (m' & Hupds & Hwf' & Hl' & Hc' & Hn').
    exists m'. cbn [selector.updates]. rewrite Hupd.
    split; [exact Hupds|]. split; [exact Hwf'|]. repeat split; congruence.
Qed.


(** Whatever messages arrive, the selector never indexes its list out of
    range: [Update] returns a model, the selected index stays one of the
    list, the list is never changed, and the preview, once shown, is that
    of the selected boilerplate. So a run never panics. *)
Theorem selector_stays_well_formed (msg : selector.Msg)
    (events : list selector.Event) (m : selector.Model) :
  selector.well_formed m ->
  (exists m' quit,
      selector.Update msg m = Some (m', quit) /\
      selector.well_formed m' /\
      selector.boilerplates m' = selector.boilerplates m) /\
  selector.Run events m <> selector.Panicked /\
  (forall m', selector.Run events m = selector.Finished m' ->
              selector.well_formed m').
Proof.
  intros Hwf. split.
  - destruct (selector_Update_step msg m Hwf) as (m' & quit & H & Hwf' & Hl & _).
    now exists m', quit.
  - revert m Hwf. induction events as [|[msg0| |] events IH]; intros m Hwf.
    + split; [discriminate|intros m'; discriminate].
    + cbn [selector.Run].
      destruct (selector_Update_step msg0 m Hwf)
        as (m1 & quit & -> & Hwf1 & _).
      now apply IH.
    + split; [discriminate|now intros m' [= <-]].
    + split; [discriminate|intros m'; discriminate].
Qed.


End SelectorClaims.

Section SelectorNavigation.

Local Open Scope Z_scope.

Lemma selector_Update_down (m : selector.Model) :
  selector.Update (selector.KeyMsg "down") m =
  if selector.selectedIndex m <? Z.of_nat (length (selector.boilerplates m)) - 1
  then match selector.updatePreview
               (selector.with_index (selector.selectedIndex m + 1) m) with
       | None => None
       | Some m1 => Some (m1, false)
       end
  else Some (m, false).
Proof. reflexivity. Qed.

Lemma selector_Update_up (m : selector.Model) :
  selector.Update (selector.KeyMsg "up") m =
  if 0 <? selector.selectedIndex m
  then match selector.updatePreview
               (selector.with_index (selector.selectedIndex m - 1) m) with
       | None => None
       | Some m1 => Some (m1, false)
       end
  else Some (m, false).
Proof. reflexivity. Qed.

Lemma selector_updates_downs (k : nat) (l : list Boilerplate) (i : nat)
    (m : selector.Model) :
  selector_at m l i ->
  exists m', selector_at m' l (Nat.min (i + k) (length l - 1)) /\
    selector.updates (replicate k (selector.KeyMsg "down")) m = Some m'.
Proof.
  revert i m. induction k as [|k IH]; intros i m (Hwf & Hl & Hi & Hlt & Hc).
  - exists m. split; [|reflexivity].
    replace (Nat.min (i + 0) (length l - 1)) with i by lia.
    exact (conj Hwf (conj Hl (conj Hi (conj Hlt Hc)))).
  - destruct (Z.ltb_spec (selector.selectedIndex m)
                (Z.of_nat (length (selector.boilerplates m)) - 1)) as [Hlo|Hhi].
    + destruct (selector_updatePreview m (selector.selectedIndex m + 1))
        as (m1 & Hup & Hwf1 & Hl1 & Hi1 & Hc1 & _); [lia|].
      destruct (IH (S i) m1) as (m' & Hat & Hrun).
      { rewrite Hl in *.
        refine (conj Hwf1 (conj Hl1 (conj _ (conj _ _))));
          [lia|lia|congruence]. }
      exists m'. split.
      * replace (Nat.min (i + S k) (length l - 1))
          with (Nat.min (S i + k) (length l - 1)) by lia. exact Hat.
      * cbn [replicate selector.updates].
        rewrite selector_Update_down.
        replace (selector.selectedIndex m <?
                 Z.of_nat (length (selector.boilerplates m)) - 1) with true
          by (symmetry; now apply Z.ltb_lt).
        rewrite Hup. exact Hrun.
    + destruct (IH i m) as (m' & Hat & Hrun);
        [exact (conj Hwf (conj Hl (conj Hi (conj Hlt Hc))))|].
      rewrite Hl in Hhi.
      exists m'. split.
      * replace (Nat.min (i + S k) (length l - 1))
          with (Nat.min (i + k) (length l - 1)) by lia. exact Hat.
      * cbn [replicate selector.updates].
        rewrite selector_Update_down.
        replace (selector.selectedIndex m <?
                 Z.of_nat (length (selector.boilerplates m)) - 1) with false
          by (symmetry; apply Z.ltb_ge; rewrite Hl; lia).
        exact Hrun.
Qed.

Lemma selector_updates_ups (k : nat) (l : list Boilerplate) (i : nat)
    (m : selector.Model) :
  selector_at m l i ->
  exists m', selector_at m' l (i - k) /\
    selector.updates (replicate k (selector.KeyMsg "up")) m = Some m'.
Proof.
  revert i m. induction k as [|k IH]; intros i m (Hwf & Hl & Hi & Hlt & Hc).
  - exists m. split; [|reflexivity].
    replace (i - 0)%nat with i by lia.
    exact (conj Hwf (conj Hl (conj Hi (conj Hlt Hc)))).
  - destruct (Z.ltb_spec 0 (selector.selectedIndex m)) as [Hlo|Hhi].
    + destruct (selector_updatePreview m (selector.selectedIndex m - 1))
        as (m1 & Hup & Hwf1 & Hl1 & Hi1 & Hc1 & _); [rewrite Hl; lia|].
      destruct (IH (i - 1)%nat m1) as (m' & Hat & Hrun).
      { rewrite Hl in *.
        refine (conj Hwf1 (conj Hl1 (conj _ (conj _ _))));
          [lia|lia|congruence]. }
      exists m'. split.
      * replace (i - S k)%nat with (i - 1 - k)%nat by lia. exact Hat.
      * cbn [replicate selector.updates].
        rewrite selector_Update_up.
        replace (0 <? selector.selectedIndex m) with true
          by (symmetry; now apply Z.ltb_lt).
        rewrite Hup. exact Hrun.
    + destruct (IH i m) as (m' & Hat & Hrun);
        [exact (conj Hwf (conj Hl (conj Hi (conj Hlt Hc))))|].
      exists m'. split.
      * replace (i - S k)%nat with (i - k)%nat by lia. exact Hat.
      * cbn [replicate selector.updates].
        rewrite selector_Update_up.
        replace (0 <? selector.selectedIndex m) with false
          by (symmetry; apply Z.ltb_ge; lia).
        exact Hrun.
Qed.

Lemma selector_updates_not_keys (pre : list selector.Msg)
    (l : list Boilerplate) (i : nat) (m : selector.Model) :
  Forall selector_not_key pre -> selector_at m l i ->
  exists m', selector_at m' l i /\ selector.updates pre m = Some m'.
Proof.
  intros Hpre. revert m.
  induction Hpre as [|msg pre Hmsg _ IH]; intros m Hat;
    [exists m; now split|].
  destruct Hat as (Hwf & Hl & Hi & Hlt & Hc).
  assert (Hstep : exists m1, selector.Update msg m = Some (m1, false) /\
                             selector_at m1 l i).
  { destruct msg as [w h|key|];
      [|now elim Hmsg
       |exists m; split;
        [reflexivity|exact (conj Hwf (conj Hl (conj Hi (conj Hlt Hc))))]].
    cbn [selector.Update selector.ready].
    destruct (selector.ready m).
    - eexists. split; [reflexivity|].
      refine (conj _ (conj Hl (conj Hi (conj Hlt Hc)))).
      eapply selector_well_formed_ext; [exact Hwf|reflexivity..].
    - destruct (selector_updatePreview
                  {| selector.boilerplates := selector.boilerplates m;
                     selector.selectedIndex := selector.selectedIndex m;
                     selector.selectedName := selector.selectedName m;
                     selector.cancelled := selector.cancelled m;
                     selector.content := selector.content m;
                     selector.ready := true;
                     selector.width := w; selector.height := h |}
                  (selector.selectedIndex m))
        as (m1 & Hup & Hwf1 & Hl1 & Hi1 & Hc1 & _);
        [cbn [selector.boilerplates]; rewrite Hl; lia|].
      exists m1. split.
      + unfold selector.with_index in Hup. cbn in Hup. cbn. now rewrite Hup.
      + cbn in Hl1, Hc1.
        refine (conj Hwf1 (conj _ (conj _ (conj Hlt _)))); congruence. }
  destruct Hstep as (m1 & Hupd & Hat1).
  destruct (IH m1 Hat1) as (m' & Hat' & Hrun).
  exists m'. split; [assumption|].
  cbn [selector.updates]. rewrite Hupd. exact Hrun.
Qed.

Lemma selector_Update_enter (l : list Boilerplate) (i : nat)
    (m : selector.Model) :
  selector_at m l i ->
  exists b m',
    l !! i = Some b /\
    selector.Update (selector.KeyMsg "enter") m = Some (m', true) /\
    selector_chose m' l (Name b).
Proof.
  intros (Hwf & Hl & Hi & Hlt & Hc).
  destruct (lookup_lt_is_Some_2 l i Hlt) as [b Hb].
  assert (Hat : selector.at_index (selector.boilerplates m)
                  (selector.selectedIndex m) = Some b).
  { unfold selector.at_index. rewrite Hl, Hi.
    replace ((0 <=? Z.of_nat i) && (Z.of_nat i <? Z.of_nat (length l)))
      with true
      by (symmetry; apply andb_true_iff; split;
          [apply Z.leb_le|apply Z.ltb_lt]; lia).
    now rewrite Nat2Z.id. }
  exists b. eexists. split; [assumption|].
  change (selector.Update (selector.KeyMsg "enter") m) with
    (if (0 <? length (selector.boilerplates m))%nat
     then match selector.at_index (selector.boilerplates m)
                  (selector.selectedIndex m) with
          | None => None
          | Some b =>
              Some ({| selector.boilerplates := selector.boilerplates m;
                       selector.selectedIndex := selector.selectedIndex m;
                       selector.selectedName := Name b;
                       selector.cancelled := selector.cancelled m;
                       selector.content := selector.content m;
                       selector.ready := selector.ready m;
                       selector.width := selector.width m;
                       selector.height := selector.height m |}, true)
          end
     else Some (m, true)).
  replace (0 <? length (selector.boilerplates m))%nat with true
    by (symmetry; apply Nat.ltb_lt; rewrite Hl; lia).
  rewrite Hat. split; [reflexivity|].
  split; [now apply (selector_well_formed_ext m)|].
  split; [exact Hl|]. split; [exact Hc|reflexivity].
Qed.

Lemma selector_new_at (l : list Boilerplate) :
  l <> [] -> selector_at (selector.newBoilerplateSelector l) l 0.
Proof.
  intros Hne. split; [apply selector_new_well_formed|].
  repeat split. destruct l; [congruence|cbn; lia].
Qed.

(** The messages up to a choice by [enter], and those after it that
    neither cancel nor select, followed by the QuitMsg. *)
Lemma selector_choice (sorted : list Boilerplate)
    (pre later : list selector.Msg) (rest : list selector.Event)
    (downs ups : nat) :
  sorted <> [] ->
  Forall selector_not_key pre ->
  Forall selector_keeps_choice later ->
  exists b,
    sorted !! (Nat.min downs (length sorted - 1) - ups)%nat = Some b /\
    selector.SelectBoilerplate sorted
      ((selector.Message <$>
          (pre ++ replicate downs (selector.KeyMsg "down")
               ++ replicate ups (selector.KeyMsg "up")
               ++ selector.KeyMsg "enter" :: later))
         ++ selector.QuitMsg :: rest)%list
    = Some (Name b, None).
Proof.
  intros Hne Hpre Hlater.
  destruct (selector_updates_not_keys pre sorted 0 _ Hpre
              (selector_new_at _ Hne)) as (m1 & Hat1 & Hrun1).
  destruct (selector_updates_downs downs sorted 0 m1 Hat1)
    as (m2 & Hat2 & Hrun2).
  destruct (selector_updates_ups ups sorted _ m2 Hat2) as (m3 & Hat3 & Hrun3).
  destruct (selector_Update_enter sorted _ m3 Hat3)
    as (b & m4 & Hb & Hrun4 & Hwf4 & Hl4 & Hc4 & Hn4).
  destruct (selector_updates_keep later m4 Hlater Hwf4)
    as (m5 & Hrun5 & _ & _ & Hc5 & Hn5).
  exists b. split; [exact Hb|].
  unfold selector.SelectBoilerplate.
  destruct sorted as [|b0 sorted]; [congruence|]. cbn [length Nat.eqb].
  rewrite selector_Run_messages.
  rewrite selector_updates_app, Hrun1. cbv beta iota.
  rewrite selector_updates_app, Hrun2. cbv beta iota.
  rewrite selector_updates_app, Hrun3. cbv beta iota.
  cbn [selector.updates]. rewrite Hrun4, Hrun5. cbn [selector.Run].
  rewrite Hc5, Hc4, Hn5, Hn4. reflexivity.
Qed.

(** Once a key that cancels was handed to [Update], the flag stays. *)
Lemma selector_cancel (sorted : list Boilerplate)
    (before after : list selector.Msg) (rest : list selector.Event)
    (key : string) :
  sorted <> [] ->
  selector.is_key key ["ctrl+c"; "q"; "esc"] = true ->
  selector.SelectBoilerplate sorted
    ((selector.Message <$> (before ++ selector.KeyMsg key :: after))
       ++ selector.QuitMsg :: rest)%list
  = Some ("", Some (External "selection cancelled")).
Proof.
  intros Hne Hkey.
  destruct (selector_updates_known before
              (selector.newBoilerplateSelector sorted)
              (selector_new_well_formed _) Hne)
    as (m1 & Hrun1 & Hwf1 & Hl1 & _).
  assert (Hupd : exists m2, selector.Update (selector.KeyMsg key) m1
                            = Some (m2, true) /\
                            selector.well_formed m2 /\
                            selector.boilerplates m2 = selector.boilerplates m1 /\
                            selector.cancelled m2 = true).
  { cbn [selector.Update]. rewrite Hkey. eexists. split; [reflexivity|].
    split; [now apply (selector_well_formed_ext m1)|]. now split. }
  destruct Hupd as (m2 & Hupd & Hwf2 & Hl2 & Hc2).
  destruct (selector_updates_known after m2 Hwf2
              ltac:(rewrite Hl2, Hl1; exact Hne))
    as (m3 & Hrun3 & _ & _ & Hc3 & _).
  unfold selector.SelectBoilerplate.
  destruct sorted as [|b0 sorted]; [congruence|]. cbn [length Nat.eqb].
  rewrite selector_Run_messages, selector_updates_app, Hrun1.
  cbv beta iota. cbn [selector.updates]. rewrite Hupd, Hrun3.
  cbn [selector.Run]. now rewrite (Hc3 Hc2).
Qed.

(** Navigation: after any messages that are not keys, [down] pressed
    [downs] times then [up] pressed [ups] times and [enter], the name
    returned is that of the boilerplate at position
    min(downs, len-1) - ups (not below 0) of the sorted slice: the cursor
    stops at both ends of the list and does not wrap around. Messages
    that come between [enter] and the QuitMsg are still handed to
    [Update]: those that neither cancel nor select leave the choice as it
    is, and a key that cancels, before or after [enter], makes the
    selection fail as cancelled. *)
Theorem selector_navigation (sorted : list Boilerplate)
    (pre later : list selector.Msg) (rest : list selector.Event)
    (downs ups : nat) :
  sorted <> [] ->
  Forall selector_not_key pre ->
  Forall selector_keeps_choice later ->
  (exists b,
      sorted !! (Nat.min downs (length sorted - 1) - ups)%nat = Some b /\
      selector.SelectBoilerplate sorted
        ((selector.Message <$>
            (pre ++ replicate downs (selector.KeyMsg "down")
                 ++ replicate ups (selector.KeyMsg "up")
                 ++ selector.KeyMsg "enter" :: later))
           ++ selector.QuitMsg :: rest)%list
      = Some (Name b, None)) /\
  (forall before after key,
      selector.is_key key ["ctrl+c"; "q"; "esc"] = true ->
      selector.SelectBoilerplate sorted
        ((selector.Message <$> (before ++ selector.KeyMsg key :: after))
           ++ selector.QuitMsg :: rest)%list
      = Some ("", Some (External "selection cancelled"))).
Proof.
  intros Hne Hpre Hlater. split.
  - exact (selector_choice sorted pre later rest downs ups Hne Hpre Hlater).
  - intros before after key Hkey.
    exact (selector_cancel sorted before after rest key Hne Hkey).
Qed.

Lemma Sorted_by_count_head (b : Boilerplate) (l : list Boilerplate) :
  Sorted (fun a b => Count b <= Count a) (b :: l) ->
  forall b', b' ∈ b :: l -> Count b' <= Count b.
Proof.
  intros Hs b' Hin.
  apply Sorted_StronglySorted in Hs; [|intros x y z ? ?; lia].
  apply StronglySorted_inv in Hs as [_ Hall].
  apply elem_of_cons in Hin as [->|Hin]; [lia|].
  rewrite Forall_forall in Hall. now apply Hall.
Qed.

(** [enter] pressed before any other key selects a most used
    boilerplate: no boilerplate of the map has a larger count than the
    one whose name is returned, when the messages that come between
    [enter] and the QuitMsg neither cancel nor select again. *)
Theorem SelectBoilerplate_enter_most_used (bps : gmap string Boilerplate)
    (sorted : list Boilerplate) (pre later : list selector.Msg)
    (rest : list selector.Event) :
  selector.sorted_by_count bps sorted ->
  bps <> ∅ ->
  Forall selector_not_key pre ->
  Forall selector_keeps_choice later ->
  exists k b,
    bps !! k = Some b /\
    selector.SelectBoilerplate sorted
      ((selector.Message <$> (pre ++ selector.KeyMsg "enter" :: later))
         ++ selector.QuitMsg :: rest)%list
    = Some (Name b, None) /\
    forall k' b', bps !! k' = Some b' -> Count b' <= Count b.
Proof.
  intros [Hperm Hsorted] Hne Hpre Hlater.
  destruct sorted as [|b0 sorted].
  { apply Permutation_nil in Hperm. apply fmap_nil_inv in Hperm.
    now apply map_to_list_empty_iff in Hperm. }
  assert (Hnil : b0 :: sorted <> []) by discriminate.
  destruct (selector_choice (b0 :: sorted) pre later rest 0 0
              Hnil Hpre Hlater) as (b & Hb & Hsel).
  cbn in Hb. injection Hb as <-.
  assert (Hin : b0 ∈ snd <$> map_to_list bps)
    by (rewrite <- Hperm; apply elem_of_cons; now left).
  apply list_elem_of_fmap in Hin as ([k b'] & Hb0 & Hin). cbn in Hb0. subst b'.
  apply elem_of_map_to_list in Hin.
  exists k, b0. split; [assumption|]. split; [exact Hsel|].
  intros k' b' Hk'. apply (Sorted_by_count_head b0 sorted Hsorted).
  rewrite Hperm. apply list_elem_of_fmap. exists (k', b'). split; [reflexivity|].
  now apply elem_of_map_to_list.
Qed.

End SelectorNavigation.

Section SelectorWitnesses.

Local Open Scope Z_scope.

Lemma selector_sample_sorted : selector.sorted_by_count both [often; seldom].
Proof.
  split.
  - unfold both. rewrite map_to_list_insert by reflexivity.
    rewrite map_to_list_insert by reflexivity.
    rewrite map_to_list_empty. reflexivity.
  - repeat constructor; cbn; lia.
Qed.


Lemma selector_sample_not_empty : both <> ∅.
Proof. unfold both. apply insert_non_empty. Qed.

Lemma selector_stays_well_formed_witness :
  let m := selector.newBoilerplateSelector [often; seldom] in
  let events := [selector.Message (selector.WindowSizeMsg 80 24);
                 selector.Message (selector.KeyMsg "j");
                 selector.Message (selector.KeyMsg "j");
                 selector.Message (selector.KeyMsg "enter");
                 selector.QuitMsg] in
  selector.well_formed m /\
  (exists m' quit,
      selector.Update (selector.KeyMsg "down") m = Some (m', quit) /\
      selector.well_formed m' /\
      selector.boilerplates m' = selector.boilerplates m) /\
  selector.Run events m <> selector.Panicked /\
  (forall m', selector.Run events m = selector.Finished m' ->
              selector.well_formed m').
Proof.
  intros m events.
  assert (H : selector.well_formed m) by apply selector_new_well_formed.
  split; [exact H|].
  exact (selector_stays_well_formed (selector.KeyMsg "down") events m H).
Defined.


Lemma selector_navigation_witness :
  let sorted := [bp "a" "x"; bp "b" "y"; bp "c" "z"] in
  let pre := [selector.WindowSizeMsg 80 24] in
  let later := [selector.KeyMsg "down"; selector.WindowSizeMsg 100 30] in
  sorted <> [] /\
  Forall selector_not_key pre /\
  Forall selector_keeps_choice later /\
  (exists b,
      sorted !! (Nat.min 5 (length sorted - 1) - 1)%nat = Some b /\
      selector.SelectBoilerplate sorted
        ((selector.Message <$>
            (pre ++ replicate 5 (selector.KeyMsg "down")
                 ++ replicate 1 (selector.KeyMsg "up")
                 ++ selector.KeyMsg "enter" :: later))
           ++ selector.QuitMsg :: [])%list
      = Some (Name b, None)) /\
  selector.SelectBoilerplate sorted
    ((selector.Message <$> ([selector.KeyMsg "enter"]
                              ++ selector.KeyMsg "q" :: []))
       ++ selector.QuitMsg :: [])%list
  = Some ("", Some (External "selection cancelled")).
Proof.
  intros sorted pre later.
  assert (H1 : sorted <> []) by discriminate.
  assert (H2 : Forall selector_not_key pre) by (repeat constructor).
  assert (H3 : Forall selector_keeps_choice later) by (repeat constructor).
  split; [exact H1|]. split; [exact H2|]. split; [exact H3|].
  destruct (selector_navigation sorted pre later [] 5 1 H1 H2 H3)
    as [Hchoice Hcancel].
  split; [exact Hchoice|].
  exact (Hcancel [selector.KeyMsg "enter"] [] "q" eq_refl).
Defined.

Lemma SelectBoilerplate_enter_most_used_witness :
  let pre := [selector.WindowSizeMsg 80 24] in
  let later := [selector.KeyMsg "j"] in
  selector.sorted_by_count both [often; seldom] /\
  both <> ∅ /\
  Forall selector_not_key pre /\
  Forall selector_keeps_choice later /\
  exists k b,
    both !! k = Some b /\
    selector.SelectBoilerplate [often; seldom]
      ((selector.Message <$> (pre ++ selector.KeyMsg "enter" :: later))
         ++ selector.QuitMsg :: [])%list = Some (Name b, None) /\
    forall k' b', both !! k' = Some b' -> Count b' <= Count b.
Proof.
  intros pre later.
  assert (H : Forall selector_not_key pre) by (repeat constructor).
  assert (H' : Forall selector_keeps_choice later) by (repeat constructor).
  split; [exact selector_sample_sorted|].
  split; [exact selector_sample_not_empty|].
  split; [exact H|]. split; [exact H'|].
  exact (SelectBoilerplate_enter_most_used both [often; seldom] pre later []
           selector_sample_sorted selector_sample_not_empty H H').
Defined.

End SelectorWitnesses.

Section WhiteSpaceFacts.

Lemma rev_app (a b : string) :
  GoStrings.rev (a ++ b) = GoStrings.rev b ++ GoStrings.rev a.
Proof.
  induction a as [|c a IH]; cbn [GoStrings.rev].
  - now rewrite app_empty_l, app_empty_r.
  - now rewrite app_cons; cbn [GoStrings.rev]; rewrite IH, app_assoc.
Qed.

Lemma rev_rev (a : string) : GoStrings.rev (GoStrings.rev a) = a.
Proof.
  induction a as [|c a IH]; [reflexivity|].
  cbn [GoStrings.rev]. rewrite rev_app, IH. reflexivity.
Qed.

Lemma drop_length_le (n : nat) (s : string) :
  String.length (drop n s) = String.length s - n.
Proof.
  revert s. induction n as [|n IH]; intros [|c s]; cbn; try lia. apply IH.
Qed.

(** What [trim] returns is the end of its argument. *)
Lemma trim_suffix (runes : list string) (fuel : nat) (s : string) :
  exists pre, s = pre ++ GoStrings.trim runes fuel s.
Proof.
  revert s. induction fuel as [|fuel IH]; intros s; cbn [GoStrings.trim].
  - exists "". now rewrite app_empty_l.
  - destruct (unicode.rune_width runes s) as [|w].
    + exists "". now rewrite app_empty_l.
    + destruct (IH (drop (S w) s)) as [pre Hpre].
      exists (take (S w) s ++ pre). rewrite app_assoc, <- Hpre.
      now rewrite take_drop.
Qed.

(** With the length of the string as fuel, no rune of [runes] is left at
    the head. *)
Lemma trim_done (runes : list string) (fuel : nat) (s : string) :
  String.length s <= fuel ->
  unicode.rune_width runes (GoStrings.trim runes fuel s) = 0.
Proof.
  revert s. induction fuel as [|fuel IH]; intros s Hlen; cbn [GoStrings.trim].
  - destruct s; [|cbn in Hlen; lia]. unfold unicode.rune_width.
    destruct (find _ runes) as [p|] eqn:Hfind; [|reflexivity].
    apply find_some in Hfind as [_ Hp]. destruct p; [reflexivity|discriminate].
  - destruct (unicode.rune_width runes s) as [|w] eqn:Hw; [exact Hw|].
    apply IH. rewrite drop_length_le. lia.
Qed.

Lemma space_width_space (t : string) :
  unicode.rune_width unicode.space_runes (String " " t) = 1.
Proof. reflexivity. Qed.

Lemma space_width_plain (c : ascii) (t : string) :
  unicode.is_plain c = true ->
  unicode.rune_width unicode.space_runes (String c t) = 0.
Proof.
  destruct c as [[] [] [] [] [] [] [] []]; intros H;
    try discriminate H; reflexivity.
Qed.

Lemma space_width_rev_newline (t : string) :
  unicode.rune_width (GoStrings.rev <$> unicode.space_runes)
    (String "010" t) = 1.
Proof. reflexivity. Qed.

Lemma space_width_rev_plain (c : ascii) (t : string) :
  unicode.is_plain c = true ->
  unicode.rune_width (GoStrings.rev <$> unicode.space_runes) (String c t) = 0.
Proof.
  destruct c as [[] [] [] [] [] [] [] []]; intros H;
    try discriminate H; reflexivity.
Qed.

Lemma TrimLeft_plain (c : ascii) (t : string) :
  unicode.is_plain c = true -> GoStrings.TrimLeft (String c t) = String c t.
Proof.
  intros H. unfold GoStrings.TrimLeft. cbn [String.length GoStrings.trim].
  now rewrite (space_width_plain c t H).
Qed.

Lemma TrimLeft_space (t : string) :
  GoStrings.TrimLeft (String " " t) = GoStrings.TrimLeft t.
Proof.
  unfold GoStrings.TrimLeft. cbn [String.length GoStrings.trim].
  rewrite space_width_space. cbn [drop]. reflexivity.
Qed.

Lemma TrimLeft_spaces (n : nat) (t : string) :
  GoStrings.TrimLeft (GoStrings.spaces n ++ t) = GoStrings.TrimLeft t.
Proof.
  induction n as [|n IH]; cbn [GoStrings.spaces].
  - now rewrite app_empty_l.
  - now rewrite app_cons, TrimLeft_space.
Qed.

(** [TrimRight] of a string that ends with a plain byte and a newline
    takes the newline off and nothing else. *)
Lemma TrimRight_plain_newline (a : string) (c : ascii) :
  unicode.is_plain c = true ->
  GoStrings.TrimRight (a ++ String c rofi.newline) = a ++ String c "".
Proof.
  intros H. unfold GoStrings.TrimRight.
  replace (a ++ String c rofi.newline)
    with ((a ++ String c "") ++ rofi.newline)
    by (now rewrite app_assoc, app_cons, app_empty_l).
  rewrite rev_app, (rev_app a). cbn [GoStrings.rev rofi.newline].
  rewrite !app_empty_l, !app_cons, !app_empty_l.
  rewrite !length_app.
  replace (String.length a + String.length (String c "")
           + String.length rofi.newline)
    with (S (S (String.length a))) by (cbn; lia).
  cbn [GoStrings.trim].
  rewrite space_width_rev_newline. cbn [drop].
  rewrite (space_width_rev_plain c _ H).
  cbn [GoStrings.rev]. now rewrite rev_rev.
Qed.

Lemma TrimRight_prefix (s : string) :
  exists post, s = GoStrings.TrimRight s ++ post.
Proof.
  unfold GoStrings.TrimRight.
  destruct (trim_suffix (GoStrings.rev <$> unicode.space_runes)
              (String.length s) (GoStrings.rev s)) as [pre Hpre].
  exists (GoStrings.rev pre).
  rewrite <- rev_app, <- Hpre. now rewrite rev_rev.
Qed.

(** What [TrimSpace] returns does not begin with white space; in
    particular not with a space. *)
Lemma TrimSpace_no_leading_space (s t : string) :
  GoStrings.TrimSpace s <> String " " t.
Proof.
  unfold GoStrings.TrimSpace. intros Heq.
  destruct (TrimRight_prefix (GoStrings.TrimLeft s)) as [post Hpost].
  rewrite Heq, app_cons in Hpost.
  pose proof (trim_done unicode.space_runes (String.length s) s (le_n _)) as Hd.
  fold (GoStrings.TrimLeft s) in Hd. rewrite Hpost in Hd. discriminate Hd.
Qed.

End WhiteSpaceFacts.

Section RofiFacts.

Local Open Scope Z_scope.

Lemma digit_is_plain (d : Z) :
  0 <= d <= 9 ->
  unicode.is_plain (ascii_of_nat (Z.to_nat (48 + d))) = true.
Proof.
  intros Hd.
  assert (H : d = 0 \/ d = 1 \/ d = 2 \/ d = 3 \/ d = 4 \/ d = 5 \/ d = 6
              \/ d = 7 \/ d = 8 \/ d = 9) by lia.
  repeat (destruct H as [-> | H]; [reflexivity|]). now subst d.
Qed.

(** The digits that [format_digits] writes are plain bytes, and there is
    at least one when there is fuel. *)
Lemma format_digits_plain (fuel : nat) (n : Z) (acc : string) :
  exists c ds,
    csv.format_digits (S fuel) n acc = String c ds ++ acc /\
    GoString.all unicode.is_plain (String c ds) = true.
Proof.
  revert n acc. induction fuel as [|fuel IH]; intros n acc.
  - cbn [csv.format_digits]. eexists _, "".
    split; [now destruct (n <? 10); rewrite app_cons, app_empty_l|].
    cbn [GoString.all]. rewrite digit_is_plain; [reflexivity|].
    pose proof (Z.mod_pos_bound n 10 ltac:(lia)). lia.
  - change (csv.format_digits (S (S fuel)) n acc) with
      (let acc' := String (ascii_of_nat (Z.to_nat (48 + n mod 10))) acc in
       if n <? 10 then acc' else csv.format_digits (S fuel) (n / 10) acc').
    cbv zeta. destruct (n <? 10).
    + eexists _, "". split; [now rewrite app_cons, app_empty_l|].
      cbn [GoString.all]. rewrite digit_is_plain; [reflexivity|].
      pose proof (Z.mod_pos_bound n 10 ltac:(lia)). lia.
    + destruct (IH (n / 10)
                  (String (ascii_of_nat (Z.to_nat (48 + n mod 10))) acc))
        as (c & ds & -> & Hall).
      exists c, (ds ++ String (ascii_of_nat (Z.to_nat (48 + n mod 10))) "").
      split.
      * rewrite !app_cons, app_assoc, app_cons, app_empty_l. reflexivity.
      * cbn [GoString.all] in *. rewrite all_app.
        apply andb_true_iff in Hall as [-> ->]. cbn [GoString.all].
        rewrite digit_is_plain; [reflexivity|].
        pose proof (Z.mod_pos_bound n 10 ltac:(lia)). lia.
Qed.

Lemma FormatInt_plain (n : Z) :
  exists c ds,
    csv.FormatInt n = String c ds /\
    GoString.all unicode.is_plain (String c ds) = true.
Proof.
  unfold csv.FormatInt. destruct (n <? 0).
  - destruct (format_digits_plain 19 (- n) "") as (c & ds & -> & Hall).
    rewrite app_empty_r. eexists _, _. split; [reflexivity|].
    cbn [GoString.all] in *. now rewrite Hall.
  - destruct (format_digits_plain 19 n "") as (c & ds & -> & Hall).
    rewrite app_empty_r. eauto.
Qed.

Lemma format_digits_length (k fuel : nat) (n : Z) (acc : string) :
  0 <= n < 10 ^ Z.of_nat (S k) ->
  (String.length (csv.format_digits fuel n acc)
   <= S k + String.length acc)%nat.
Proof.
  revert fuel n acc. induction k as [|k IH]; intros [|fuel] n acc Hn;
    cbn [csv.format_digits]; try lia.
  - change (10 ^ Z.of_nat 1) with 10 in Hn.
    replace (n <? 10) with true by (symmetry; apply Z.ltb_lt; lia).
    cbn [String.length]. lia.
  - destruct (Z.ltb_spec n 10) as [Hlt|Hge]; [cbn [String.length]; lia|].
    etransitivity; [apply IH|cbn [String.length]; lia].
    rewrite Nat2Z.inj_succ, Z.pow_succ_r in Hn by lia.
    split; [apply Z.div_pos; lia|apply Z.div_lt_upper_bound; lia].
Qed.

(** A count between -999 and 9999 is printed with fewer than five
    bytes. *)
Lemma FormatInt_short (n : Z) :
  -1000 < n < 10000 -> (String.length (csv.FormatInt n) < 5)%nat.
Proof.
  intros Hn. unfold csv.FormatInt. destruct (Z.ltb_spec n 0) as [Hneg|Hpos].
  - cbn [String.length].
    pose proof (format_digits_length 2 20 (- n) "" ltac:(cbn; lia)) as H.
    cbn [String.length] in H. lia.
  - pose proof (format_digits_length 3 20 n "" ltac:(cbn; lia)) as H.
    cbn [String.length] in H. lia.
Qed.

(** The line displayed for a count of fewer than five bytes begins with
    a space. *)
Lemma displayString_padded (b : Boilerplate) :
  -1000 < Count b < 10000 ->
  exists t, rofi.displayString b = String " " t.
Proof.
  intros Hn. apply FormatInt_short in Hn.
  unfold rofi.displayString, GoStrings.pad5.
  destruct (5 - String.length (csv.FormatInt (Count b)))%nat as [|k] eqn:Hk;
    [lia|].
  cbn [GoStrings.spaces]. rewrite !app_cons. eauto.
Qed.

Lemma nameOnlyMap_lookup (bps : list Boilerplate) (key name : string) :
  foldl (fun (m : gmap string string) b =>
           <[rofi.displayString b := Name b]> m) ∅ bps !! key = Some name ->
  exists b, b ∈ bps /\ rofi.displayString b = key /\ Name b = name.
Proof.
  induction bps as [|b bps IH] using rev_ind;
    [cbn [foldl]; rewrite lookup_empty; discriminate|].
  rewrite foldl_snoc.
  destruct (decide (rofi.displayString b = key)) as [Heq|Hne].
  - rewrite Heq, lookup_insert_eq. intros [= <-].
    exists b. split; [apply elem_of_app; right; now left|now split].
  - rewrite lookup_insert_ne by exact Hne. intros H.
    destruct (IH H) as (b' & Hin & Hb').
    exists b'. split; [apply elem_of_app; now left|exact Hb'].
Qed.

(** A string that is not empty has a last byte. *)
Lemma string_last (s : string) :
  s <> "" -> exists a d, s = a ++ String d "".
Proof.
  intros Hne. destruct (GoStrings.rev s) as [|d r] eqn:Hrev.
  - apply (f_equal GoStrings.rev) in Hrev. rewrite rev_rev in Hrev.
    now elim Hne.
  - exists (GoStrings.rev r), d.
    apply (f_equal GoStrings.rev) in Hrev. rewrite rev_rev in Hrev.
    exact Hrev.
Qed.

Lemma fields_plain_run (p : string) :
  GoString.all unicode.is_plain p = true ->
  forall (fuel : nat) (cur rest : string),
    (String.length p <= fuel)%nat ->
    GoStrings.fields_acc fuel cur (p ++ rest)
    = GoStrings.fields_acc (fuel - String.length p) (cur ++ p) rest.
Proof.
  induction p as [|c p IH]; intros Hall fuel cur rest Hfuel.
  - now rewrite app_empty_l, app_empty_r, Nat.sub_0_r.
  - cbn [GoString.all] in Hall. apply andb_true_iff in Hall as [Hc Hp].
    cbn [String.length] in Hfuel. destruct fuel as [|fuel]; [lia|].
    rewrite app_cons. cbn [GoStrings.fields_acc].
    rewrite (space_width_plain c _ Hc).
    rewrite (IH Hp) by lia. cbn [String.length Nat.sub].
    now rewrite app_assoc, app_cons, app_empty_l.
Qed.

(** The fields of a count, a space and a name without white space. *)
Lemma Fields_count_name (digits name : string) :
  digits <> "" -> name <> "" ->
  GoString.all unicode.is_plain digits = true ->
  GoString.all unicode.is_plain name = true ->
  GoStrings.Fields (digits ++ " " ++ name) = [digits; name].
Proof.
  intros Hd Hn Hpd Hpn. unfold GoStrings.Fields.
  rewrite (fields_plain_run digits Hpd) by (rewrite length_app; lia).
  rewrite !length_app, app_empty_l. cbn [String.length].
  replace (String.length digits + (1 + String.length name)
           - String.length digits)%nat
    with (S (String.length name)) by lia.
  rewrite app_cons, app_empty_l. cbn [GoStrings.fields_acc].
  rewrite space_width_space. cbn [drop].
  rewrite <- (app_empty_r name) at 2.
  rewrite (fields_plain_run name Hpn) by lia.
  rewrite Nat.sub_diag, app_empty_l.
  destruct digits; [congruence|]. destruct name; [congruence|]. reflexivity.
Qed.

(** What is left of the line of a boilerplate, printed by rofi with a
    newline after it, once the white space around it is trimmed. *)
Lemma TrimSpace_display_line (b : Boilerplate) :
  Name b <> "" ->
  GoString.all unicode.is_plain (Name b) = true ->
  GoStrings.TrimSpace (rofi.displayString b ++ rofi.newline)
  = csv.FormatInt (Count b) ++ " " ++ Name b.
Proof.
  intros Hne Hplain. unfold rofi.displayString, GoStrings.pad5.
  destruct (FormatInt_plain (Count b)) as (c & ds & -> & Hall).
  destruct (string_last (Name b) Hne) as (a & d & Hname).
  assert (Hd : unicode.is_plain d = true).
  { rewrite Hname, all_app in Hplain.
    apply andb_true_iff in Hplain as [_ Hplain].
    cbn [GoString.all] in Hplain. now rewrite andb_true_r in Hplain. }
  cbn [GoString.all] in Hall. apply andb_true_iff in Hall as [Hc _].
  unfold GoStrings.TrimSpace.
  rewrite !app_assoc, TrimLeft_spaces, app_cons, (TrimLeft_plain c _ Hc).
  rewrite Hname.
  replace (String c (ds ++ " " ++ (a ++ String d "") ++ rofi.newline))
    with ((String c ds ++ " " ++ a) ++ String d rofi.newline)
    by (now rewrite !app_assoc, !app_cons, !app_empty_l).
  rewrite (TrimRight_plain_newline _ d Hd).
  now rewrite !app_assoc, !app_cons.
Qed.

End RofiFacts.

Section RofiClaims.

Local Open Scope Z_scope.

Variable exec : string -> list string -> string -> rofi.CmdResult.
Variable config : cli.RofiConfig.

Lemma runRofi_no_leading_space (prompt input : string) (args : list string)
    (t : string) :
  rofi.runRofi exec config prompt input args <> (String " " t, None).
Proof.
  unfold rofi.runRofi.
  destruct (exec _ _ _) as [stdout|code stderr|stderr].
  - destruct (_ && _); [discriminate|].
    intros [= H]. now apply TrimSpace_no_leading_space in H.
  - destruct (code =? 1); discriminate.
  - discriminate.
Qed.

(** RofiUI.Select gives back the choice that rofi prints, when that
    choice neither begins nor ends with white space or with a byte of a
    rune of several bytes: the newline that rofi puts after it is
    trimmed and nothing else. *)
Theorem rofi_Select_echo (prompt : string) (choices : list string)
    (c : string) :
  c ∈ choices ->
  rofi.plain_ends c = true ->
  exec (cli.Path config)
       (rofi.cmdArgs config prompt (cli.SelectArgs config))
       (GoStrings.Join choices rofi.newline)
    = rofi.Exited0 (c ++ rofi.newline) ->
  rofi.Select exec config prompt choices = (c, None).
Proof.
  intros Hin Hplain Hexec. unfold rofi.Select.
  destruct choices as [|c0 choices]; [now apply elem_of_nil in Hin|].
  cbn [length Nat.eqb]. unfold rofi.runRofi. rewrite Hexec.
  unfold rofi.plain_ends in Hplain.
  destruct c as [|x c]; [discriminate|].
  apply andb_true_iff in Hplain as [Hx Hlast].
  destruct (string_last (String x c) ltac:(discriminate)) as (a & d & Hc).
  assert (Hd : unicode.is_plain d = true).
  { rewrite Hc, rev_app in Hlast. cbn [GoStrings.rev] in Hlast.
    now rewrite app_empty_l, app_cons in Hlast. }
  assert (Htrim : GoStrings.TrimSpace (String x c ++ rofi.newline)
                  = String x c).
  { unfold GoStrings.TrimSpace.
    rewrite app_cons, (TrimLeft_plain x _ Hx), <- app_cons, Hc.
    rewrite app_assoc, app_cons, app_empty_l.
    apply (TrimRight_plain_newline a d Hd). }
  cbv zeta. rewrite Htrim. reflexivity.
Qed.

(** The SelectBoilerplate that looks the selected line up among the
    lines displayed returns a name only for a boilerplate whose count is
    printed with five bytes or more: the line of any other begins with
    spaces, which are trimmed from what rofi prints before the look-up.
    So, whatever rofi prints, no boilerplate used fewer than 10000 times
    is ever returned. *)
Theorem rofi_select_by_display_needs_wide_count (bps : list Boilerplate)
    (name : string) :
  rofi.SelectBoilerplate_by_display exec config bps = (name, None) ->
  exists b, b ∈ bps /\ Name b = name /\
            (Count b <= -1000 \/ 10000 <= Count b).
Proof.
  unfold rofi.SelectBoilerplate_by_display.
  destruct (rofi.runRofi _ _ _ _ _) as [sel [err|]] eqn:Hrun; [discriminate|].
  destruct (_ !! sel) as [actualName|] eqn:Hlook;
    [|destruct (String.eqb sel ""); discriminate].
  intros [= <-].
  destruct (nameOnlyMap_lookup bps sel actualName Hlook)
    as (b & Hin & Hdisplay & Hname).
  exists b. split; [exact Hin|]. split; [exact Hname|].
  destruct (Z_le_gt_dec (Count b) (-1000)) as [Hlo|Hlo]; [now left|].
  destruct (Z_le_gt_dec 10000 (Count b)) as [Hhi|Hhi]; [now right|].
  destruct (displayString_padded b ltac:(lia)) as [t Ht].
  rewrite Ht in Hdisplay. subst sel.
  now apply runRofi_no_leading_space in Hrun.
Qed.

(** The SelectBoilerplate that cuts the count off the selected line
    returns the name of the boilerplate whose line rofi prints, when
    that name is a key of the map, is not empty and is made of bytes
    below 0x80 that are not white space. *)
Theorem rofi_SelectBoilerplate_echo (boilerplates : gmap string Boilerplate)
    (bps : list Boilerplate) (b : Boilerplate) :
  is_Some (boilerplates !! Name b) ->
  Name b <> "" ->
  GoString.all unicode.is_plain (Name b) = true ->
  exec (cli.Path config)
       (rofi.cmdArgs config "Select Boilerplate" (cli.SelectArgs config))
       (rofi.rofiInput bps)
    = rofi.Exited0 (rofi.displayString b ++ rofi.newline) ->
  rofi.SelectBoilerplate exec config boilerplates bps = (Name b, None).
Proof.
  intros [b' Hkey] Hne Hplain Hexec.
  unfold rofi.SelectBoilerplate, rofi.runRofi. rewrite Hexec. cbv zeta.
  rewrite (TrimSpace_display_line b Hne Hplain).
  destruct (FormatInt_plain (Count b)) as (c & ds & Hfmt & Hall).
  rewrite Hfmt. rewrite app_cons at 1. cbn [String.eqb andb].
  rewrite (Fields_count_name (String c ds) (Name b)
             ltac:(discriminate) Hne Hall Hplain).
  cbn [length Nat.leb tail GoStrings.Join]. now rewrite Hkey.
Qed.

End RofiClaims.

Lemma rofi_Select_echo_witness :
  "green" ∈ ["red"; "green"] /\
  rofi.plain_ends "green" = true /\
  rofi.Select (rofi_prints ("green" ++ rofi.newline)) rofi_config
              "Colour" ["red"; "green"] = ("green", None).
Proof.
  assert (H : "green" ∈ ["red"; "green"]) by (right; left).
  split; [exact H|]. split; [reflexivity|].
  exact (rofi_Select_echo (rofi_prints ("green" ++ rofi.newline)) rofi_config
           "Colour" ["red"; "green"] "green" H eq_refl eq_refl).
Defined.

Lemma rofi_select_by_display_needs_wide_count_witness :
  rofi.SelectBoilerplate_by_display
    (rofi_prints (rofi.displayString worn ++ rofi.newline)) rofi_config
    [worn; often] = ("worn", None) /\
  exists b, b ∈ [worn; often] /\ Name b = "worn" /\
            (Count b <= -1000 \/ 10000 <= Count b)%Z.
Proof.
  assert (H : rofi.SelectBoilerplate_by_display
                (rofi_prints (rofi.displayString worn ++ rofi.newline))
                rofi_config [worn; often] = ("worn", None))
    by (vm_compute; reflexivity).
  split; [exact H|].
  exact (rofi_select_by_display_needs_wide_count _ _ _ _ H).
Defined.

Lemma rofi_SelectBoilerplate_echo_witness :
  is_Some (both !! Name often) /\
  Name often <> "" /\
  GoString.all unicode.is_plain (Name often) = true /\
  rofi.SelectBoilerplate
    (rofi_prints (rofi.displayString often ++ rofi.newline)) rofi_config
    both [often; seldom] = (Name often, None).
Proof.
  assert (H1 : is_Some (both !! Name often)) by (eexists; reflexivity).
  assert (H2 : Name often <> "") by discriminate.
  split; [exact H1|]. split; [exact H2|]. split; [reflexivity|].
  exact (rofi_SelectBoilerplate_echo
           (rofi_prints (rofi.displayString often ++ rofi.newline))
           rofi_config both [often; seldom] often H1 H2 eq_refl eq_refl).
Defined.

Section CsvFile.

Lemma csv_read_back_no_crlf (s : string) :
  GoString.Contains s crlf = false -> csv_read_back s = s.
Proof.
  induction s as [|c s IH]; [reflexivity|].
  cbn [GoString.Contains]. intros H.
  apply orb_false_iff in H as [Hpre Hrest].
  cbn [csv_read_back]. destruct s as [|d s]; [reflexivity|].
  rewrite (IH Hrest).
  destruct (Ascii.eqb c "013" && Ascii.eqb d "010") eqn:E; [|reflexivity].
  apply andb_true_iff in E as [Ec Ed].
  apply Ascii.eqb_eq in Ec. apply Ascii.eqb_eq in Ed. subst c d.
  unfold GoString.HasPrefix in Hpre.
  destruct s; vm_compute in Hpre; discriminate Hpre.
Qed.

Lemma csv_read_back_plain (s : string) :
  GoString.all unicode.is_plain s = true -> csv_read_back s = s.
Proof.
  induction s as [|c s IH]; [reflexivity|].
  cbn [GoString.all]. intros H. apply andb_true_iff in H as [Hc Hs].
  cbn [csv_read_back]. destruct s as [|d s]; [reflexivity|].
  rewrite (IH Hs).
  replace (Ascii.eqb c "013") with false; [reflexivity|].
  symmetry. apply Ascii.eqb_neq. intros ->. discriminate Hc.
Qed.

Lemma readRecords_written (l : list Boilerplate)
    (acc : gmap string Boilerplate) :
  Forall (fun b => (GoInt.min_int <= Count b <= GoInt.max_int)%Z) l ->
  csv.readRecords (csv_reads_of (csv.records_of l)) acc
  = inl (foldl (fun m b => <[Name (read_back b) := read_back b]> m) acc l).
Proof.
  revert acc. induction l as [|b l IH]; intros acc Hl; [reflexivity|].
  apply Forall_cons in Hl as [Hb Hl]. cbn.
  destruct (FormatInt_plain (Count b)) as (c & ds & Hfmt & Hplain).
  rewrite Hfmt, (csv_read_back_plain _ Hplain), <- Hfmt.
  rewrite (Atoi_FormatInt (Count b) Hb).
  now rewrite (IH _ Hl).
Qed.

(** Reading back what was written. Whatever the order in which the map
    was handed to the writer, every count comes back as it was: it is
    printed with "%d" and converted by Atoi to the same number. Names and
    values come back as encoding/csv returns them, a carriage return
    before a newline removed; when no name and no value holds that pair
    of bytes, the map read is the map written. *)
Theorem csv_write_then_read (m : gmap string Boilerplate)
    (l : list Boilerplate) :
  (forall k b, m !! k = Some b ->
     Name b = k /\ (GoInt.min_int <= Count b <= GoInt.max_int)%Z) ->
  l ≡ₚ (snd <$> map_to_list m) ->
  csv.readRecords (csv_reads_of (csv.records_of l)) ∅
  = inl (foldl (fun acc b => <[Name (read_back b) := read_back b]> acc) ∅ l) /\
  ((forall k b, m !! k = Some b ->
      GoString.Contains (Name b) crlf = false /\
      GoString.Contains (Value b) crlf = false) ->
   csv.readRecords (csv_reads_of (csv.records_of l)) ∅ = inl m).
Proof.
  intros Hm Hl.
  assert (Hrange : Forall (fun b => (GoInt.min_int <= Count b <= GoInt.max_int)%Z) l).
  { rewrite Hl. apply Forall_forall. intros b Hin.
    apply list_elem_of_fmap in Hin as ([k b0] & -> & Hin).
    apply elem_of_map_to_list in Hin. now apply (Hm k b0). }
  split; [exact (readRecords_written l ∅ Hrange)|].
  intros Hclean.
  assert (Hsame : Forall (fun b => read_back b = b) l).
  { rewrite Hl. apply Forall_forall. intros b Hin.
    apply list_elem_of_fmap in Hin as ([k b0] & -> & Hin).
    apply elem_of_map_to_list in Hin. cbn [snd].
    destruct (Hclean k b0 Hin) as [Hn Hv]. unfold read_back.
    rewrite (csv_read_back_no_crlf _ Hn), (csv_read_back_no_crlf _ Hv).
    now destruct b0. }
  assert (Hfold : forall acc : gmap string Boilerplate,
             foldl (fun acc b => <[Name (read_back b) := read_back b]> acc) acc l
             = foldl (fun acc b => <[Name b := b]> acc) acc l).
  { clear -Hsame. induction Hsame as [|b l Hb _ IH]; intros acc;
      [reflexivity|]. cbn [foldl]. rewrite Hb. apply IH. }
  assert (Hpairs : (fun b => (Name b, b)) <$> (snd <$> map_to_list m)
                   = map_to_list m).
  { rewrite <- list_fmap_compose.
    rewrite <- (list_fmap_id (map_to_list m)) at 2.
    apply Forall_fmap_ext, Forall_forall. intros [k b] Hin.
    apply elem_of_map_to_list in Hin. simpl.
    now rewrite (proj1 (Hm k b Hin)). }
  rewrite (readRecords_written l ∅ Hrange), Hfold. f_equal.
  rewrite foldl_insert_list_to_map.
  rewrite <- (list_to_map_to_list m) at 1.
  apply list_to_map_proper.
  - rewrite reverse_Permutation, Hl, Hpairs. apply NoDup_fst_map_to_list.
  - now rewrite reverse_Permutation, Hl, Hpairs.
Qed.

End CsvFile.

Lemma csv_write_then_read_witness :
  let greeting := {| Name := "greeting"; Value := "Hello {{name}}";
                     Count := 12 |} in
  let letter := {| Name := "letter";
                   Value := "Dear Sir," ++ crlf ++ "yours";
                   Count := 3 |} in
  csv.readRecords (csv_reads_of (csv.records_of [greeting])) ∅
    = inl (<["greeting" := greeting]> ∅) /\
  csv.readRecords (csv_reads_of (csv.records_of [letter])) ∅
    = inl (<["letter" := {| Name := "letter";
                            Value := "Dear Sir," ++ rofi.newline ++ "yours";
                            Count := 3 |}]> ∅).
Proof.
  intros greeting letter.
  assert (Hg : forall k b, (<["greeting" := greeting]> ∅ : gmap string Boilerplate) !! k = Some b ->
             Name b = k /\ (GoInt.min_int <= Count b <= GoInt.max_int)%Z).
  { intros k b Hkb. apply lookup_insert_Some in Hkb as [[<- <-]|[_ Hkb]].
    - split; [reflexivity|]. vm_compute. split; discriminate.
    - now rewrite lookup_empty in Hkb. }
  assert (Hgl : [greeting] ≡ₚ snd <$> map_to_list (<["greeting" := greeting]> ∅ : gmap string Boilerplate)).
  { rewrite map_to_list_insert by apply lookup_empty.
    now rewrite map_to_list_empty. }
  assert (Hgc : forall k b, (<["greeting" := greeting]> ∅ : gmap string Boilerplate) !! k = Some b ->
             GoString.Contains (Name b) crlf = false /\
             GoString.Contains (Value b) crlf = false).
  { intros k b Hkb. apply lookup_insert_Some in Hkb as [[<- <-]|[_ Hkb]].
    - split; reflexivity.
    - now rewrite lookup_empty in Hkb. }
  assert (Hl : forall k b, (<["letter" := letter]> ∅ : gmap string Boilerplate) !! k = Some b ->
             Name b = k /\ (GoInt.min_int <= Count b <= GoInt.max_int)%Z).
  { intros k b Hkb. apply lookup_insert_Some in Hkb as [[<- <-]|[_ Hkb]].
    - split; [reflexivity|]. vm_compute. split; discriminate.
    - now rewrite lookup_empty in Hkb. }
  assert (Hll : [letter] ≡ₚ snd <$> map_to_list (<["letter" := letter]> ∅ : gmap string Boilerplate)).
  { rewrite map_to_list_insert by apply lookup_empty.
    now rewrite map_to_list_empty. }
  split.
  - exact (proj2 (csv_write_then_read _ [greeting] Hg Hgl) Hgc).
  - exact (proj1 (csv_write_then_read _ [letter] Hl Hll)).
Defined.
